(** * GPU controller (gpu-service-v3-pair.py): a shallow embedding

    The controller packs a WAV/JSON pair, ships it to a remote worker over
    ssh/rsync, polls for a completion marker and fetches the transcripts.
    Every method of [GPUController] and [main] is translated below as a
    computation in a small state-and-exception monad:

    - the local file system is a finite map from path strings to nodes.
      A path is looked up as it is written: the statements are about
      paths written in one way, without [.] or [..] components, doubled
      slashes or links. A directory need not have a node of its own: a
      path with a node below it is a directory too;
    - log records are kept in the trace. The log file
      [logs/gpu_controller.log] has a node, made when logging is set up;
      what is appended to it afterwards is read off the trace, and the
      node does not follow it;
    - every [subprocess.run] and [time.sleep] is recorded in a trace, in
      program order, and its result is read from a [world] record (one
      field per call site, indexed by loop iteration where the call sits
      in a loop);
    - Python exceptions are [Raise e]; [KeyboardInterrupt], which
      [except Exception] does not catch, is the separate outcome
      [Interrupt].

    Console output ([print], the tqdm bar) is not part of the model; log
    records are. *)

From stdpp Require Import gmap strings list fin_maps.
From Stdlib Require Import ZArith Lia Ascii.

Set Warnings "-register-all".

Open Scope string_scope.
Open Scope Z_scope.

(** ** Strings and paths (str, os.path) *)

(** [sub in s] on Python strings. *)
Fixpoint contains (sub s : string) : bool :=
  String.prefix sub s ||
  match s with
  | EmptyString => false
  | String _ r => contains sub r
  end.

(** [s.startswith(p)]. *)
Definition startswith (s p : string) : bool := String.prefix p s.

(** [s.endswith(suf)]. *)
Fixpoint endswith (s suf : string) : bool :=
  String.eqb s suf ||
  match s with
  | EmptyString => false
  | String _ r => endswith r suf
  end.

Definition is_slash (c : ascii) : bool := Ascii.eqb c "/"%char.

Fixpoint has_slash (s : string) : bool :=
  match s with
  | EmptyString => false
  | String c r => is_slash c || has_slash r
  end.

(** [os.path.basename(p)]: what follows the last ['/']. *)
Fixpoint basename (p : string) : string :=
  match p with
  | EmptyString => EmptyString
  | String c r =>
      if has_slash r then basename r
      else if is_slash c then r else String c r
  end.

(** [os.path.join(a, b)] (posixpath, two arguments). *)
Definition join (a b : string) : string :=
  if startswith b "/" then b
  else if String.eqb a "" || endswith a "/" then a ++ b
  else a ++ "/" ++ b.

(** [sep.join(l)]. *)
Fixpoint str_join (sep : string) (l : list string) : string :=
  match l with
  | [] => ""
  | [x] => x
  | x :: r => x ++ sep ++ str_join sep r
  end.

(** [s[len(p):]] when [s.startswith(p)]. *)
Fixpoint strip_prefix (p s : string) : option string :=
  match p, s with
  | EmptyString, _ => Some s
  | String a p', String b s' =>
      if Ascii.eqb a b then strip_prefix p' s' else None
  | String _ _, EmptyString => None
  end.

(** [glob.has_magic(s)]: one of the characters [*], [?], [[] occurs. *)
Definition is_magic (c : ascii) : bool :=
  Ascii.eqb c "*"%char || Ascii.eqb c "?"%char || Ascii.eqb c "["%char.

Fixpoint has_magic (s : string) : bool :=
  match s with
  | EmptyString => false
  | String c r => is_magic c || has_magic r
  end.

(** [s.rstrip('/')]. *)
Fixpoint rstrip_slashes (s : string) : string :=
  match s with
  | EmptyString => EmptyString
  | String c r =>
      let r' := rstrip_slashes r in
      if is_slash c && String.eqb r' "" then EmptyString else String c r'
  end.

(** [p[:p.rfind('/') + 1]]: what comes up to the last ['/'], with it. *)
Fixpoint split_head (p : string) : string :=
  match p with
  | EmptyString => EmptyString
  | String c r =>
      if is_slash c || has_slash r then String c (split_head r) else EmptyString
  end.

(** [os.path.dirname(p)] (posixpath): the head, without its trailing
    slashes unless it is made of slashes only. *)
Definition dirname (p : string) : string :=
  let head := split_head p in
  let stripped := rstrip_slashes head in
  if String.eqb stripped "" then head else stripped.

(** The first component of a relative path. *)
Fixpoint first_component (r : string) : string :=
  match r with
  | EmptyString => EmptyString
  | String c r' => if is_slash c then EmptyString else String c (first_component r')
  end.

(** ** JSON values of the configuration file, with Python truthiness *)

Inductive json :=
| JNull
| JBool (b : bool)
| JNumber (z : Z)
| JString (s : string)
| JArray (l : list json)
| JObject (l : list (string * json)).

Definition truthy (v : json) : bool :=
  match v with
  | JNull => false
  | JBool b => b
  | JNumber z => negb (z =? 0)
  | JString s => negb (String.eqb s "")
  | JArray l => negb (Nat.eqb (length l) 0)
  | JObject l => negb (Nat.eqb (length l) 0)
  end.

(** The configuration dictionary as [_load_config] accepts it: the three
    required keys are present; [port] is held as [str(config['port'])],
    the only way the program reads it; [keep_remote] is the optional key
    read by [config.get('keep_remote', False)]. *)
Record config := {
  host : string;
  port : string;
  remote_path : string;
  keep_remote : option json
}.

(** The parsed configuration file before validation. *)
Record raw_config := {
  raw_host : option string;
  raw_port : option string;
  raw_remote_path : option string;
  raw_keep_remote : option json
}.

(** ** The local file system *)

(** A path names a regular file (raw bytes, or a gzipped tar archive with
    its members in order) or a directory. *)
Inductive node :=
| Bytes (data : string)
| Tar (members : list (string * node))
| Dir.

Abbreviation localfs := (gmap string node).

(** The part of a key [k] below directory [d], when [k] lies below [d]. *)
Definition below (d k : string) : option string :=
  match strip_prefix (join d "") k with
  | Some r => if String.eqb r "" then None else Some r
  | None => None
  end.

Definition child_name (d k : string) : option string :=
  match below d k with
  | Some r =>
      let n := first_component r in
      if String.eqb n "" then None else Some n
  | None => None
  end.

(** [os.listdir(d)]: the names directly under [d]. Python leaves the order
    unspecified; here it is the map's enumeration order. *)
Definition listdir (fs : localfs) (d : string) : list string :=
  remove_dups (omap (child_name d) (map fst (map_to_list fs))).

(** [fnmatch] of a name against ["*" + ext], with glob's rule that a
    leading dot is never matched by a wildcard. *)
Definition glob_match_ext (ext name : string) : bool :=
  negb (startswith name ".") && endswith name ext.

(** The matches of ["*" + ext] in the directory [d], as [glob] lists them
    once the directory is known. *)
Definition glob_ext (fs : localfs) (d ext : string) : list string :=
  map (join d) (filter (fun n => Is_true (glob_match_ext ext n)) (listdir fs d)).

(** Some path of [fs] lies below [d]: a directory need not have a node
    of its own. *)
Definition has_below (fs : localfs) (d : string) : bool :=
  existsb (fun k => match below d k with Some _ => true | None => false end)
          (map fst (map_to_list fs)).

(** [os.path.isdir(path)]; trailing slashes do not count, and a path of
    slashes only is the root. *)
Definition isdir (fs : localfs) (path : string) : bool :=
  if String.eqb path "" then false
  else
    let p := rstrip_slashes path in
    if String.eqb p "" then true
    else
      match fs !! p with
      | Some Dir => true
      | Some _ => false
      | None => has_below fs p
      end.

(** The directory a new file at [p] goes into exists. *)
Definition parent_exists (fs : localfs) (p : string) : bool :=
  String.eqb (dirname p) "" || isdir fs (dirname p).

(** The path names a regular file. *)
Definition is_file (fs : localfs) (p : string) : bool :=
  match fs !! p with
  | Some (Bytes _) | Some (Tar _) => true
  | _ => false
  end.

(** The directories above [p], the nearest first. *)
Fixpoint ancestors_upto (n : nat) (p : string) : list string :=
  match n with
  | O => []
  | S n' =>
      let d := dirname p in
      if String.eqb d "" || String.eqb d p then [] else d :: ancestors_upto n' d
  end.

Definition ancestors (p : string) : list string :=
  ancestors_upto (String.length p) p.

(** A name a file of a directory can have. *)
Definition proper_name (n : string) : bool :=
  negb (String.eqb n "") && negb (String.eqb n ".") && negb (String.eqb n "..") &&
  negb (has_slash n).

(** A new file can be written at [p]: the name is not empty and not that
    of a directory, and the directory it goes into exists. *)
Definition can_create (fs : localfs) (p : string) : bool :=
  negb (String.eqb p "") && negb (isdir fs p) && parent_exists fs p.

(** Files named [names] can be written into [dest]: it is the working
    directory or a directory that exists, and none of the names is that
    of a directory in it. *)
Definition can_unpack (fs : localfs) (dest : string) (names : list string) : bool :=
  (String.eqb dest "" || isdir fs dest) &&
  forallb (fun n => proper_name n && negb (isdir fs (join dest n))) names.

(** The directory [p] is there or can be made: neither the path nor a
    directory above it is taken by a regular file. *)
Definition can_makedirs (fs : localfs) (p : string) : bool :=
  negb (existsb (is_file fs) (ancestors p)) && negb (is_file fs p).

(** The members [ms] of a bundle are regular files with plain names, none
    the name of a directory of [dest]. *)
Definition plain_members (fs : localfs) (dest : string) (ms : list (string * node)) : Prop :=
  Forall (fun m => proper_name m.1 = true /\ m.2 <> Dir /\
                   isdir fs (join dest m.1) = false) ms.

(** ** Wildcard patterns

    The part of [fnmatch] that is worked out here: patterns made of
    literal characters, [?], [*] and bracket sets of letters and digits
    such as [[1]] or [[abc]]. Every other use of a bracket (ranges,
    negation, a bracket left open) is left out: [parse_wild] gives
    [None] for it. *)

Inductive wild :=
| WLit (c : ascii)
| WAny
| WStar
| WSet (cs : list ascii).

Definition is_alnum (c : ascii) : bool :=
  let n := nat_of_ascii c in
  Nat.leb 48 n && Nat.leb n 57 || Nat.leb 65 n && Nat.leb n 90 ||
  Nat.leb 97 n && Nat.leb n 122.

(** [inset] holds the characters read since an opening bracket. *)
Fixpoint parse_wild (inset : option (list ascii)) (p : string) : option (list wild) :=
  match p with
  | EmptyString =>
      match inset with
      | None => Some []
      | Some _ => None
      end
  | String c r =>
      match inset with
      | Some cs =>
          if Ascii.eqb c "]"%char then
            match cs with
            | [] => None
            | _ => option_map (cons (WSet cs)) (parse_wild None r)
            end
          else if is_alnum c then parse_wild (Some (c :: cs)) r
          else None
      | None =>
          if Ascii.eqb c "*"%char then option_map (cons WStar) (parse_wild None r)
          else if Ascii.eqb c "?"%char then option_map (cons WAny) (parse_wild None r)
          else if Ascii.eqb c "["%char then parse_wild (Some []) r
          else option_map (cons (WLit c)) (parse_wild None r)
      end
  end.

(** The whole of [s] matches the pattern. *)
Fixpoint wild_match (ws : list wild) (s : string) : bool :=
  match ws with
  | [] => String.eqb s ""
  | WStar :: ws' =>
      (fix star (s : string) : bool :=
         wild_match ws' s ||
         match s with
         | EmptyString => false
         | String _ r => star r
         end) s
  | w :: ws' =>
      match s with
      | EmptyString => false
      | String c r =>
          match w with
          | WLit a => Ascii.eqb a c
          | WAny => true
          | WSet cs => existsb (Ascii.eqb c) cs
          | WStar => false
          end && wild_match ws' r
      end
  end.

(** [fnmatch.fnmatch(name, pat)] on the patterns that are worked out. *)
Definition fnmatch (name pat : string) : option bool :=
  option_map (fun ws => wild_match ws name) (parse_wild None pat).

(** The directory names [glob] takes as they are written: no
    metacharacter, and no doubled slash at the end (which [os.path.split]
    would strip from the paths it returns). *)
Definition glob_literal (d : string) : bool :=
  negb (has_magic d) && negb (endswith d "//").

(** The directories of the working directory that match the one-component
    pattern [pat]; hidden ones only if the pattern begins with a dot. *)
Definition glob_dirs (fs : localfs) (pat : string) (ws : list wild) : list string :=
  filter (fun n => Is_true ((startswith pat "." || negb (startswith n ".")) &&
                            wild_match ws n && isdir fs n))
         (listdir fs "").

(** ** Exceptions, log records, trace *)

Inductive exn :=
| CalledProcessError (argv : list string) (returncode : Z)
| OSError (msg : string)
| FileNotFoundError (path : string)
| FileExistsError (path : string)
| IsADirectoryError (path : string)
| NotADirectoryError (path : string)
| ReadError (path : string)
| ValueError (msg : string)
| Failure (msg : string)
| FailedAfter (max_retries : Z) (cause : exn).

Inductive level := INFO | WARNING | ERROR.

(** A log message is kept as the pieces of its f-string: literal text,
    [str] of an integer, [str] of an exception. *)
Inductive frag :=
| FStr (s : string)
| FInt (z : Z)
| FExn (e : exn).

Inductive event :=
| EvRun (argv : list string)
| EvSleep (secs : Z)
| EvLog (lvl : level) (msg : list frag).

(** What one [subprocess.run] call does: the child exits with a status and
    its captured output, the call itself raises (the program could not be
    started), or the user interrupts it. *)
Inductive response :=
| Returned (returncode : Z) (stdout : string)
| Raised (msg : string)
| Interrupted.

(** The environment of one run, one field per call site. The [nat]
    argument is the zero-based iteration of the enclosing loop. For a
    sleep the field tells whether the user interrupts it. [w_glob d ext]
    is what [glob.glob] returns for a directory pattern [d] that is not
    worked out here (see [glob_paths]). *)
Record world := {
  w_config : option raw_config;
  w_glob : string -> string -> list string;
  w_timestamp : string;
  w_connect : response;
  w_mkdir : response;
  w_upload : response;
  w_unpack : response;
  w_start : response;
  w_tail : nat -> response;
  w_test : nat -> response;
  w_poll_sleep : nat -> bool;
  w_settle_sleep : bool;
  w_backoff_sleep : nat -> bool;
  w_create : nat -> response;
  w_download : nat -> response;
  w_bundle : nat -> node;
  w_cleanup : nat -> response
}.

(** [glob.glob(os.path.join(d, "*" + ext))]. A literal directory name is
    listed as it is. A one-component pattern is matched against the
    directories of the working directory, and each match is listed. The
    other patterns (several components, bracket forms that are not
    worked out) are left to the environment. *)
Definition glob_paths (w : world) (fs : localfs) (d ext : string) : list string :=
  if glob_literal d then glob_ext fs d ext
  else if has_slash d then w_glob w d ext
  else
    match parse_wild None d with
    | Some ws => flat_map (fun dn => glob_ext fs dn ext) (glob_dirs fs d ws)
    | None => w_glob w d ext
    end.

(** ** The monad *)

Record state := {
  st_fs : localfs;
  st_trace : list event
}.

Inductive res (A : Type) :=
| Ok (a : A)
| Raise (e : exn)
| Interrupt
| OutOfFuel.

Arguments Ok {A} a.
Arguments Raise {A} e.
Arguments Interrupt {A}.
Arguments OutOfFuel {A}.

Definition M (A : Type) : Type := state -> res A * state.

Definition ret {A} (a : A) : M A := fun st => (Ok a, st).

Definition bind {A B} (m : M A) (k : A -> M B) : M B :=
  fun st =>
    match m st with
    | (Ok a, st') => k a st'
    | (Raise e, st') => (Raise e, st')
    | (Interrupt, st') => (Interrupt, st')
    | (OutOfFuel, st') => (OutOfFuel, st')
    end.

Declare Scope prog_scope.
Delimit Scope prog_scope with prog.
Bind Scope prog_scope with M.

Notation "'let*' x ':=' m 'in' k" := (bind m (fun x => k))
  (at level 10, x name, m at level 100, k at level 200, only parsing) : prog_scope.
Notation "m ;; k" := (bind m (fun _ => k))
  (at level 100, k at level 200, only parsing, right associativity) : prog_scope.

Open Scope prog_scope.

Definition raise {A} (e : exn) : M A := fun st => (Raise e, st).
Definition interrupt {A} : M A := fun st => (Interrupt, st).
Definition out_of_fuel {A} : M A := fun st => (OutOfFuel, st).

Definition emit (ev : event) : M unit :=
  fun st => (Ok tt, {| st_fs := st_fs st; st_trace := st_trace st ++ [ev] |}).

Definition get_fs : M localfs := fun st => (Ok (st_fs st), st).

Definition put_fs (fs : localfs) : M unit :=
  fun st => (Ok tt, {| st_fs := fs; st_trace := st_trace st |}).

(** [try: m  except Exception as e: h e] *)
Definition try_except {A} (m : M A) (h : exn -> M A) : M A :=
  fun st =>
    match m st with
    | (Raise e, st') => h e st'
    | r => r
    end.

(** [try: m  except KeyboardInterrupt: hk  except Exception as e: he e] *)
Definition try_except2 {A} (m : M A) (hk : M A) (he : exn -> M A) : M A :=
  fun st =>
    match m st with
    | (Raise e, st') => he e st'
    | (Interrupt, st') => hk st'
    | r => r
    end.

Definition log (lvl : level) (msg : list frag) : M unit := emit (EvLog lvl msg).

(** ** Primitives: subprocess, time, os, tarfile *)

(** [subprocess.run(argv, ...)] without [check]. *)
Definition subprocess_run (argv : list string) (r : response) : M (Z * string) :=
  emit (EvRun argv);;
  match r with
  | Returned rc out => ret (rc, out)
  | Raised msg => raise (OSError msg)
  | Interrupted => interrupt
  end.

(** [subprocess.run(argv, check=True, ...)]. *)
Definition subprocess_run_check (argv : list string) (r : response) : M (Z * string) :=
  let* p := subprocess_run argv r in
  if p.1 =? 0 then ret p else raise (CalledProcessError argv p.1).

(** [time.sleep(secs)]; a negative length is refused before any wait. *)
Definition sleep (secs : Z) (interrupted : bool) : M unit :=
  if secs <? 0 then raise (ValueError "sleep length must be non-negative")
  else
    emit (EvSleep secs);;
    if interrupted then interrupt else ret tt.

(** [os.remove(path)]. *)
Definition os_remove (path : string) : M unit :=
  let* fs := get_fs in
  match fs !! path with
  | Some Dir => raise (IsADirectoryError path)
  | Some _ => put_fs (delete path fs)
  | None =>
      if isdir fs path then raise (IsADirectoryError path)
      else raise (FileNotFoundError path)
  end.

(** [os.makedirs(path, exist_ok=True)] and [Path(path).mkdir(exist_ok=True)]:
    no directory can be made below a regular file. The directories in
    between need no node of their own (see [isdir]). *)
Definition makedirs (path : string) : M unit :=
  let* fs := get_fs in
  if existsb (is_file fs) (ancestors path) then raise (NotADirectoryError path)
  else
    match fs !! path with
    | Some Dir => ret tt
    | Some _ => raise (FileExistsError path)
    | None => put_fs (<[path := Dir]> fs)
    end.

(** The members [tar.add(path, arcname=arcname)] appends: the file itself,
    or a directory followed by everything below it. *)
Definition tar_members (fs : localfs) (path arcname : string) : option (list (string * node)) :=
  let tree :=
    (arcname, Dir) ::
    omap (fun kv => match below path kv.1 with
                    | Some r => Some (arcname ++ "/" ++ r, kv.2)
                    | None => None
                    end) (map_to_list fs) in
  match fs !! path with
  | None => if isdir fs path then Some tree else None
  | Some Dir => Some tree
  | Some n => Some [(arcname, n)]
  end.

(** [tar.add(path, arcname=arcname)] on the archive being written at
    [archive]. *)
Definition tar_add (archive path arcname : string) : M unit :=
  let* fs := get_fs in
  match tar_members fs path arcname with
  | None => raise (FileNotFoundError path)
  | Some ms =>
      match fs !! archive with
      | Some (Tar old) => put_fs (<[archive := Tar (old ++ ms)]> fs)
      | _ => put_fs (<[archive := Tar ms]> fs)
      end
  end.

(** [tarfile.open(archive, "w:gz")]: the file is created or truncated,
    in a directory that exists. *)
Definition tar_open_w (archive : string) : M unit :=
  let* fs := get_fs in
  if String.eqb archive "" then raise (FileNotFoundError archive)
  else if isdir fs archive then raise (IsADirectoryError archive)
  else if parent_exists fs archive then put_fs (<[archive := Tar []]> fs)
  else
    match fs !! dirname archive with
    | Some (Bytes _) | Some (Tar _) => raise (NotADirectoryError archive)
    | _ => raise (FileNotFoundError archive)
    end.

(** [tarfile.open(archive, "r:gz")]. *)
Definition tar_open_r (archive : string) : M (list (string * node)) :=
  let* fs := get_fs in
  match fs !! archive with
  | Some (Tar ms) => ret ms
  | Some (Bytes _) => raise (ReadError archive)
  | Some Dir => raise (IsADirectoryError archive)
  | None =>
      if isdir fs archive then raise (IsADirectoryError archive)
      else raise (FileNotFoundError archive)
  end.

(** [tar.extractall(path=dest)]: each member is written at
    [os.path.join(dest, name)], later members over earlier ones. The
    name is joined as it is and the node is put at the path whatever was
    there: this is what [extractall] does for regular files with plain
    names written into a directory that holds no directory of such a
    name ([plain_members], [can_unpack]); the statements on where
    members end up are about these. *)
Definition extract_members (dest : string) (ms : list (string * node)) (fs : localfs) : localfs :=
  foldl (fun acc m => <[join dest m.1 := m.2]> acc) fs ms.

Definition extractall (archive dest : string) : M unit :=
  let* ms := tar_open_r archive in
  let* fs := get_fs in
  put_fs (extract_members dest ms fs).

(** ** GPUController *)

(** Truthiness of an [Optional[str]]. *)
Definition str_truthy (o : option string) : bool :=
  match o with
  | Some s => negb (String.eqb s "")
  | None => false
  end.

(** The double-quote character. *)
Definition dquote : string := String (ascii_of_nat 34) EmptyString.

(** [['ssh', '-p', str(self.config['port']), self.config['host'], command]] *)
Definition ssh_argv (cfg : config) (command : string) : list string :=
  ["ssh"; "-p"; port cfg; host cfg; command].

(** [GPUController._load_config], from the parsed file ([None]: the file
    does not exist). *)
Definition _load_config (config_file : string) (parsed : option raw_config) : M config :=
  match parsed with
  | None => raise (FileNotFoundError config_file)
  | Some raw =>
      match raw_host raw, raw_port raw, raw_remote_path raw with
      | Some h, Some p, Some rp =>
          ret {| host := h; port := p; remote_path := rp;
                 keep_remote := raw_keep_remote raw |}
      | _, _, _ =>
          raise (ValueError "Config file must contain: ['host', 'port', 'remote_path']")
      end
  end.

(** The file [logging.FileHandler] writes to. *)
Definition log_file : string := "logs/gpu_controller.log".

(** [logging.FileHandler(path)]: the file is opened for appending at
    once, and created if it is not there. What is appended later is kept
    in the trace ([EvLog]); the node of the file does not follow it. *)
Definition open_append (path : string) : M unit :=
  let* fs := get_fs in
  if isdir fs path then raise (IsADirectoryError path)
  else
    match fs !! path with
    | Some _ => ret tt
    | None => put_fs (<[path := Bytes ""]> fs)
    end.

(** [GPUController.setup_logging]: the [logs] directory and the log file
    in it. *)
Definition setup_logging : M unit :=
  makedirs "logs";;
  open_append log_file.

(** [GPUController.__init__] *)
Definition new_controller (config_file : string) (w : world) : M config :=
  let* cfg := _load_config config_file (w_config w) in
  setup_logging;;
  ret cfg.

Definition verify_connection (cfg : config) (w : world) : M bool :=
  try_except
    (let* result := subprocess_run
       (ssh_argv cfg ("echo " ++ dquote ++ "Connection test" ++ dquote)) (w_connect w) in
     ret (result.1 =? 0))
    (fun e => log ERROR [FStr "Connection error: "; FExn e];; ret false).

Definition find_audio_pair (w : world) (input_dir : string)
  : M (option string * option string) :=
  try_except
    (let* fs := get_fs in
     let wav_files := glob_paths w fs input_dir ".wav" in
     let json_files := glob_paths w fs input_dir ".json" in
     if negb (Nat.eqb (length wav_files) 1) || negb (Nat.eqb (length json_files) 1) then
       log ERROR [FStr "Expected exactly 1 WAV and 1 JSON file, found ";
                  FInt (Z.of_nat (length wav_files)); FStr " WAV and ";
                  FInt (Z.of_nat (length json_files)); FStr " JSON files"];;
       ret (None, None)
     else ret (wav_files !! 0%nat, json_files !! 0%nat))
    (fun e => log ERROR [FStr "Error finding audio pair: "; FExn e];; ret (None, None)).

(** The [for file_path in files] loop of [create_compressed_archive]. *)
Fixpoint add_files (archive_name : string) (files : list string) : M unit :=
  match files with
  | [] => ret tt
  | file_path :: rest =>
      tar_add archive_name file_path (basename file_path);;
      add_files archive_name rest
  end.

Definition create_compressed_archive (files : list string) (archive_name : string)
  : M (option string) :=
  try_except
    (tar_open_w archive_name;;
     add_files archive_name files;;
     ret (Some archive_name))
    (fun e => log ERROR [FStr "Error creating archive: "; FExn e];; ret None).

Definition work_dir_of (cfg : config) (timestamp : string) : string :=
  remote_path cfg ++ "/work_" ++ timestamp.

Definition execute_cmd (work_dir wav_file json_file : string) : string :=
  "cd " ++ work_dir ++ " && " ++
  "python3 /wylder-whisper-vast-fastapi/gpu_service.py " ++
  "--wav " ++ basename wav_file ++ " " ++
  "--json " ++ basename json_file ++ " " ++
  "--work_dir " ++ work_dir ++ " " ++
  "> process.log 2>&1 & " ++
  "echo $!".

Definition execute_gpu_service (cfg : config) (w : world)
    (input_dir wav_file json_file : string) : M (option string) :=
  try_except
    (let timestamp := w_timestamp w in
     let work_dir := work_dir_of cfg timestamp in
     let archive_name := "input_" ++ timestamp ++ ".tar.gz" in
     let archive_path := join input_dir archive_name in
     let* created := create_compressed_archive [wav_file; json_file] archive_path in
     (if negb (str_truthy created) then raise (Failure "Failed to create archive") else ret tt);;
     subprocess_run_check
       (ssh_argv cfg (str_join " && " ["mkdir -p " ++ work_dir; "cd " ++ work_dir]))
       (w_mkdir w);;
     subprocess_run_check
       ["rsync"; "-avz"; "--progress"; "-e"; "ssh -p " ++ port cfg;
        archive_path; host cfg ++ ":" ++ work_dir ++ "/"]
       (w_upload w);;
     subprocess_run_check
       (ssh_argv cfg ("cd " ++ work_dir ++ " && tar xzf " ++ archive_name))
       (w_unpack w);;
     subprocess_run_check
       (ssh_argv cfg (execute_cmd work_dir wav_file json_file))
       (w_start w);;
     os_remove archive_path;;
     ret (Some work_dir))
    (fun e => log ERROR [FStr "Error in execute_gpu_service: "; FExn e];; ret None).

(** The [while True] loop of [monitor_process], from iteration [i]; [fuel]
    bounds the number of iterations that are followed. *)
Fixpoint monitor_loop (cfg : config) (w : world) (work_dir : string)
    (fuel : nat) (i : nat) : M bool :=
  match fuel with
  | O => out_of_fuel
  | S fuel' =>
      subprocess_run (ssh_argv cfg ("tail -n 1 " ++ work_dir ++ "/process.log")) (w_tail w i);;
      let* result := subprocess_run (ssh_argv cfg ("test -f " ++ work_dir ++ "/COMPLETED")) (w_test w i) in
      if result.1 =? 0 then
        log INFO [FStr "Processing completed successfully"];;
        ret true
      else
        sleep 5 (w_poll_sleep w i);;
        monitor_loop cfg w work_dir fuel' (S i)
  end.

Definition monitor_process (cfg : config) (w : world) (work_dir : string) (fuel : nat)
  : M bool :=
  try_except2
    (monitor_loop cfg w work_dir fuel 0)
    (log INFO [FStr "Monitoring interrupted by user"];; ret false)
    (fun e => log ERROR [FStr "Error monitoring process: "; FExn e];; ret false).

Definition remote_archive : string := "results.tar.gz".

Definition create_archive_cmd (work_dir wav_name json_name : string) : string :=
  "cd " ++ work_dir ++ " && " ++
  "sleep 2 && " ++
  "tar czf " ++ remote_archive ++ " " ++
  "--exclude='" ++ wav_name ++ "' " ++
  "--exclude='" ++ json_name ++ "' " ++
  "--exclude='process.log' " ++
  "--exclude='COMPLETED' " ++
  "--exclude='input_*.tar.gz' " ++
  "--exclude='*.log' " ++
  "transcript_* && " ++
  "test -s " ++ remote_archive.

Definition expected_files : list string :=
  ["transcript_detailed"; "transcript_conversation"; "transcript_"].

(** [[f for f in os.listdir(d) if any(exp in f for exp in expected_files)]] *)
Definition found_files (fs : localfs) (transcripts_dir : string) : list string :=
  filter (fun f => Is_true (existsb (fun exp => contains exp f) expected_files))
         (listdir fs transcripts_dir).

(** [self.config.get('keep_remote', False)] as a condition. *)
Definition keep_remote_set (cfg : config) : bool :=
  match keep_remote cfg with
  | Some v => truthy v
  | None => false
  end.

Definition cleanup_cmd (work_dir : string) : string := "rm -rf " ++ work_dir.

(** The command line of the download of the result bundle. *)
Definition download_argv (cfg : config) (work_dir local_archive : string) : list string :=
  ["rsync"; "-avz"; "--progress"; "-e"; "ssh -p " ++ port cfg;
   host cfg ++ ":" ++ work_dir ++ "/" ++ remote_archive; local_archive].

(** The body of the inner [try] of [retrieve_results], for one value of
    [attempt], up to the removal of the local bundle: back-off, remote
    bundle, download, extraction, verification. *)
Definition retrieve_fetch (cfg : config) (w : world)
    (work_dir transcripts_dir wav_name json_name : string) (attempt : nat) : M unit :=
  (if 0 <? Z.of_nat attempt
   then sleep (Z.of_nat attempt * 2) (w_backoff_sleep w attempt)
   else ret tt);;
  log INFO [FStr ("Creating remote archive, excluding: " ++ wav_name ++ ", " ++ json_name)];;
  subprocess_run_check
    (ssh_argv cfg (create_archive_cmd work_dir wav_name json_name))
    (w_create w attempt);;
  let local_archive := join transcripts_dir remote_archive in
  subprocess_run_check (download_argv cfg work_dir local_archive) (w_download w attempt);;
  (let* fs := get_fs in put_fs (<[local_archive := w_bundle w attempt]> fs));;
  extractall local_archive transcripts_dir;;
  let* fs := get_fs in
  let found := found_files fs transcripts_dir in
  (if Nat.eqb (length found) 0
   then raise (Failure "No transcript files found in the extracted archive")
   else ret tt);;
  log INFO [FStr ("Successfully extracted files: " ++ str_join ", " found)];;
  os_remove local_archive.

(** The rest of that body: the remote cleanup, unless [keep_remote] is
    set; it ends where the source has [return True]. *)
Definition retrieve_cleanup (cfg : config) (w : world) (work_dir : string)
    (attempt : nat) : M unit :=
  if negb (keep_remote_set cfg)
  then subprocess_run_check (ssh_argv cfg (cleanup_cmd work_dir)) (w_cleanup w attempt);; ret tt
  else ret tt.

Definition retrieve_attempt (cfg : config) (w : world)
    (work_dir transcripts_dir wav_name json_name : string) (attempt : nat) : M unit :=
  retrieve_fetch cfg w work_dir transcripts_dir wav_name json_name attempt;;
  retrieve_cleanup cfg w work_dir attempt.

(** The [for attempt in range(max_retries)] loop with [n] values left,
    the next one being [attempt]. Falling off the loop returns [None]. *)
Fixpoint retrieve_loop (cfg : config) (w : world)
    (work_dir transcripts_dir wav_name json_name : string) (max_retries : Z)
    (n : nat) (attempt : nat) : M (option bool) :=
  match n with
  | O => ret None
  | S n' =>
      let* succeeded := try_except
        (retrieve_attempt cfg w work_dir transcripts_dir wav_name json_name attempt;;
         ret true)
        (fun e =>
           if Z.of_nat attempt =? max_retries - 1
           then raise (FailedAfter max_retries e)
           else log WARNING [FStr "Attempt "; FInt (Z.of_nat attempt + 1);
                             FStr " failed: "; FExn e];;
                ret false) in
      if succeeded then ret (Some true)
      else retrieve_loop cfg w work_dir transcripts_dir wav_name json_name max_retries
             n' (S attempt)
  end.

Definition retrieve_results (cfg : config) (w : world) (work_dir local_dir : string)
    (original_files : string * string) (max_retries : Z) (initial_delay : Z)
  : M (option bool) :=
  try_except
    (let transcripts_dir := join local_dir "transcripts" in
     makedirs transcripts_dir;;
     let wav_name := basename original_files.1 in
     let json_name := basename original_files.2 in
     sleep initial_delay (w_settle_sleep w);;
     retrieve_loop cfg w work_dir transcripts_dir wav_name json_name max_retries
       (Z.to_nat max_retries) 0)
    (fun e => log ERROR [FStr "Error retrieving results: "; FExn e];; ret (Some false)).

(** ** main *)

Record args := {
  arg_input : string;
  arg_config : string;
  arg_keep_remote : bool
}.

(** The line [main] ends on. *)
Inductive verdict :=
| NotADirectory
| ConnectionFailed
| NoValidPair
| StartFailed
| ProcessingFailedOrInterrupted
| RetrieveFailed
| ResultsRetrieved
| InterruptedByUser
| UnexpectedError (e : exn).

Definition main (a : args) (w : world) (fuel : nat) : M verdict :=
  try_except2
    (let* fs := get_fs in
     if negb (isdir fs (arg_input a)) then ret NotADirectory else
     let* controller := new_controller (arg_config a) w in
     let* connected := verify_connection controller w in
     if negb connected then ret ConnectionFailed else
     let* pair := find_audio_pair w (arg_input a) in
     if negb (str_truthy pair.1) || negb (str_truthy pair.2) then ret NoValidPair else
     let wav_file := default "" pair.1 in
     let json_file := default "" pair.2 in
     let* work_dir := execute_gpu_service controller w (arg_input a) wav_file json_file in
     if str_truthy work_dir then
       let wd := default "" work_dir in
       let* completed := monitor_process controller w wd fuel in
       if completed then
         let* retrieved := retrieve_results controller w wd (arg_input a) (wav_file, json_file) 3 5 in
         if default false retrieved then ret ResultsRetrieved else ret RetrieveFailed
       else ret ProcessingFailedOrInterrupted
     else ret StartFailed)
    (ret InterruptedByUser)
    (fun e => log ERROR [FStr "Unexpected error: "; FExn e];; ret (UnexpectedError e)).

(** ** Reading traces and worlds *)

(** The durations of the [time.sleep] calls of a trace, in order. *)
Definition sleeps (tr : list event) : list Z :=
  omap (fun ev => match ev with EvSleep s => Some s | _ => None end) tr.

(** The command lines of the [subprocess.run] calls of a trace, in order. *)
Definition runs (tr : list event) : list (list string) :=
  omap (fun ev => match ev with EvRun argv => Some argv | _ => None end) tr.

(** A remote cleanup command: an [ssh] call whose remote command line
    begins [rm -rf]. What the remote shell makes of the other command
    lines of a run, into which names are pasted as they are, is not part
    of the model. *)
Definition is_remote_delete (ev : event) : bool :=
  match ev with
  | EvRun [prog; _; _; _; command] =>
      String.eqb prog "ssh" && startswith command "rm -rf "
  | _ => false
  end.

Definition deletions (tr : list event) : list event :=
  filter (fun ev => Is_true (is_remote_delete ev)) tr.

(** A checked call went through / failed with an exception. *)
Definition step_ok (r : response) : bool :=
  match r with
  | Returned rc _ => rc =? 0
  | _ => false
  end.

Definition step_failed (r : response) : bool :=
  match r with
  | Returned rc _ => negb (rc =? 0)
  | Raised _ => true
  | Interrupted => false
  end.

(** The first of the four remote steps of the launch that does not go
    through fails with an exception. *)
Definition launch_fails (w : world) : bool :=
  step_failed (w_mkdir w) ||
  step_ok (w_mkdir w) &&
    (step_failed (w_upload w) ||
     step_ok (w_upload w) &&
       (step_failed (w_unpack w) ||
        step_ok (w_unpack w) && step_failed (w_start w))).

Definition launch_succeeds (w : world) : bool :=
  step_ok (w_mkdir w) && step_ok (w_upload w) && step_ok (w_unpack w) && step_ok (w_start w).

(** The state after the [logging.warning] of a failed attempt. *)
Definition warned (attempt : nat) (e : exn) (st : state) : state :=
  {| st_fs := st_fs st;
     st_trace := st_trace st ++
       [EvLog WARNING [FStr "Attempt "; FInt (Z.of_nat attempt + 1); FStr " failed: "; FExn e]] |}.

(** The invariant as the specification words it: every one of the three
    markers occurs in some name. The program tests [found_files] instead. *)
Definition all_categories_present (names : list string) : bool :=
  forallb (fun exp => existsb (fun f => contains exp f) names) expected_files.

(** One full round of the poll loop, and [k] of them. *)
Definition poll_round (cfg : config) (work_dir : string) : list event :=
  [EvRun (ssh_argv cfg ("tail -n 1 " ++ work_dir ++ "/process.log"));
   EvRun (ssh_argv cfg ("test -f " ++ work_dir ++ "/COMPLETED"));
   EvSleep 5].

Fixpoint poll_rounds (cfg : config) (work_dir : string) (k : nat) : list event :=
  match k with
  | O => []
  | S k' => poll_round cfg work_dir ++ poll_rounds cfg work_dir k'
  end.

(** Round [i] of the poll loop runs to its end and the loop goes on. *)
Definition poll_continues (w : world) (i : nat) : Prop :=
  (exists rc out, w_tail w i = Returned rc out) /\
  (exists rc out, w_test w i = Returned rc out /\ rc <> 0) /\
  w_poll_sleep w i = false.

(** The calls of round [i] up to and including the first one that does not
    return normally ([None] when all three return). *)
Definition poll_cut (cfg : config) (w : world) (work_dir : string) (i : nat)
  : option (list event * response) :=
  let tail := EvRun (ssh_argv cfg ("tail -n 1 " ++ work_dir ++ "/process.log")) in
  let test := EvRun (ssh_argv cfg ("test -f " ++ work_dir ++ "/COMPLETED")) in
  match w_tail w i with
  | Returned _ _ =>
      match w_test w i with
      | Returned rc _ =>
          if rc =? 0 then None
          else if w_poll_sleep w i then Some ([tail; test; EvSleep 5], Interrupted)
          else None
      | r => Some ([tail; test], r)
      end
  | r => Some ([tail], r)
  end.

(** The state [st] with [evs] appended to its trace. *)
Definition logged (st : state) (evs : list event) : state :=
  {| st_fs := st_fs st; st_trace := st_trace st ++ evs |}.

(** What an attempt does up to the remote bundle command. *)
Definition attempt_prefix (cfg : config) (wd wav json : string) (attempt : nat) : list event :=
  (if 0 <? Z.of_nat attempt then [EvSleep (Z.of_nat attempt * 2)] else []) ++
  [EvLog INFO [FStr ("Creating remote archive, excluding: " ++ wav ++ ", " ++ json)];
   EvRun (ssh_argv cfg (create_archive_cmd wd wav json))].

(** [p] names a regular file. *)
Definition is_regular (fs : localfs) (p : string) : Prop :=
  exists n, fs !! p = Some n /\ n <> Dir.

(** The members an archive of the regular files [files] holds. *)
Definition members_of (fs : localfs) (files : list string) : list (string * node) :=
  omap (fun p => match fs !! p with
                 | Some n => Some (basename p, n)
                 | None => None
                 end) files.

(** The paths [tar.extractall(path=dest)] writes for the members [ms]. *)
Definition extracted_paths (dest : string) (ms : list (string * node)) : list string :=
  map (fun m => join dest m.1) ms.

(** [m] records no event that satisfies [P], whatever its outcome. *)
Definition quiet {A} (P : event -> Prop) (m : M A) : Prop :=
  forall st r st', m st = (r, st') ->
    exists tr, st_trace st' = (st_trace st ++ tr)%list /\ Forall (fun ev => ~ P ev) tr.

(** [m] sleeps exactly for the durations [l], whatever its outcome. *)
Definition sleeps_for {A} (l : list Z) (m : M A) : Prop :=
  forall st r st', m st = (r, st') ->
    exists tr, st_trace st' = (st_trace st ++ tr)%list /\ sleeps tr = l.

Definition is_sleep (ev : event) : Prop := exists s, ev = EvSleep s.

Definition is_deletion (ev : event) : Prop := is_remote_delete ev = true.

(** Run one after the other from [st], with the warning logged in
    between, the [n] bodies from index [attempt] on all raise. *)
Fixpoint fails_in_sequence (body : nat -> M unit) (n attempt : nat) (st : state) : Prop :=
  match n with
  | O => True
  | S n' =>
      exists e st', body attempt st = (Raise e, st') /\
        fails_in_sequence body n' (S attempt) (warned attempt e st')
  end.

(** The same, naming the exception [e] of the last body and the state
    [st'] it leaves. *)
Fixpoint fails_with (body : nat -> M unit) (n attempt : nat) (st : state)
    (e : exn) (st' : state) : Prop :=
  match n with
  | O => False
  | S n' =>
      match n' with
      | O => body attempt st = (Raise e, st')
      | S _ =>
          exists e1 st1, body attempt st = (Raise e1, st1) /\
            fails_with body n' (S attempt) (warned attempt e1 st1) e st'
      end
  end.

(** ** A sample run

    The end-to-end scenario of the specification: endpoint [10.0.0.5:22],
    remote path [/remote/work], inputs [meeting.wav] and [meeting.json] in
    the directory [in]. *)

Definition sample_raw : raw_config :=
  {| raw_host := Some "10.0.0.5"; raw_port := Some "22";
     raw_remote_path := Some "/remote/work"; raw_keep_remote := None |}.

Definition sample_config : config :=
  {| host := "10.0.0.5"; port := "22"; remote_path := "/remote/work";
     keep_remote := None |}.

Definition keeping_config : config :=
  {| host := "10.0.0.5"; port := "22"; remote_path := "/remote/work";
     keep_remote := Some (JBool true) |}.

Definition sample_fs : localfs :=
  <["in" := Dir]> (<["in/meeting.wav" := Bytes "RIFF"]>
    (<["in/meeting.json" := Bytes "{}"]> (<["deep/dir/notes.json" := Bytes "[]"]> ∅))).

Definition two_wav_fs : localfs := <["in/other.wav" := Bytes "RIFF"]> sample_fs.

Definition sample_state : state := {| st_fs := sample_fs; st_trace := [] |}.

Definition sample_args : args :=
  {| arg_input := "in"; arg_config := "vast_config.json"; arg_keep_remote := true |}.

Definition sample_bundle : node :=
  Tar [("transcript_detailed_1.json", Bytes "d");
       ("transcript_conversation_1.json", Bytes "c");
       ("transcript_1.txt", Bytes "t")].

(** A bundle with a plain-text transcript only. *)
Definition text_only_bundle : node := Tar [("transcript_1.txt", Bytes "t")].

(** The bundle of the specification's example, without plain text. *)
Definition spec_example_members : list (string * node) :=
  [("x_detailed_1.json", Bytes "d"); ("x_conversation_1.json", Bytes "c")].

(** A world in which everything not given as an argument goes through:
    the connection check, directory setup, upload and start succeed, the
    log has a line to show, no sleep is interrupted, downloads succeed. *)
Definition world_with (unpack : response) (test : nat -> response)
    (poll_sleep : nat -> bool) (create cleanup : nat -> response)
    (bundle : nat -> node) : world :=
  {| w_config := Some sample_raw;
     w_glob := fun _ _ => [];
     w_timestamp := "20240101_000000";
     w_connect := Returned 0 "Connection test";
     w_mkdir := Returned 0 "";
     w_upload := Returned 0 "";
     w_unpack := unpack;
     w_start := Returned 0 "4242";
     w_tail := fun _ => Returned 0 "working";
     w_test := test;
     w_poll_sleep := poll_sleep;
     w_settle_sleep := false;
     w_backoff_sleep := fun _ => false;
     w_create := create;
     w_download := fun _ => Returned 0 "";
     w_bundle := bundle;
     w_cleanup := cleanup |}.

(** The marker appears at the third probe and retrieval works at once. *)
Definition sample_world : world :=
  world_with (Returned 0 "") (fun i => if Nat.eqb i 2 then Returned 0 "" else Returned 1 "")
    (fun _ => false) (fun _ => Returned 0 "") (fun _ => Returned 0 "")
    (fun _ => sample_bundle).

(** The marker is there from the start. *)
Definition marker_world : world :=
  world_with (Returned 0 "") (fun _ => Returned 0 "")
    (fun _ => false) (fun _ => Returned 0 "") (fun _ => Returned 0 "")
    (fun _ => sample_bundle).

(** The remote unpack fails after a successful upload. *)
Definition unpack_fails_world : world :=
  world_with (Returned 2 "") (fun _ => Returned 0 "")
    (fun _ => false) (fun _ => Returned 0 "") (fun _ => Returned 0 "")
    (fun _ => sample_bundle).

(** The user interrupts the sleep of the second round of polling. *)
Definition interrupted_world : world :=
  world_with (Returned 0 "") (fun _ => Returned 1 "")
    (fun i => Nat.eqb i 1) (fun _ => Returned 0 "") (fun _ => Returned 0 "")
    (fun _ => sample_bundle).

(** The marker test cannot be started in the second round. *)
Definition broken_poll_world : world :=
  world_with (Returned 0 "")
    (fun i => if Nat.eqb i 1 then Raised "ssh: not found" else Returned 1 "")
    (fun _ => false) (fun _ => Returned 0 "") (fun _ => Returned 0 "")
    (fun _ => sample_bundle).

(** The remote bundle command fails at every attempt. *)
Definition no_bundle_world : world :=
  world_with (Returned 0 "") (fun _ => Returned 0 "")
    (fun _ => false) (fun _ => Returned 1 "") (fun _ => Returned 0 "")
    (fun _ => sample_bundle).

(** Every attempt fetches and verifies, and its remote [rm -rf] fails. *)
Definition cleanup_fails_world : world :=
  world_with (Returned 0 "") (fun _ => Returned 0 "")
    (fun _ => false) (fun _ => Returned 0 "") (fun _ => Returned 255 "")
    (fun _ => sample_bundle).

(** The bundle holds the plain-text transcript only. *)
Definition text_only_world : world :=
  world_with (Returned 0 "") (fun _ => Returned 0 "")
    (fun _ => false) (fun _ => Returned 0 "") (fun _ => Returned 0 "")
    (fun _ => text_only_bundle).

(** The bundle is the one of the specification's example. *)
Definition spec_example_world : world :=
  world_with (Returned 0 "") (fun _ => Returned 0 "")
    (fun _ => false) (fun _ => Returned 0 "") (fun _ => Returned 0 "")
    (fun _ => Tar spec_example_members).

(** ** Shapes used in the statements *)

(** The outcome of a round that is cut short. *)
Definition cut_outcome (r : response) : res bool :=
  match r with
  | Raised msg => Raise (OSError msg)
  | _ => Interrupt
  end.

(** The record [monitor_process] logs when round [k] is cut short by [r]. *)
Definition cut_record (r : response) : event :=
  match r with
  | Raised msg => EvLog ERROR [FStr "Error monitoring process: "; FExn (OSError msg)]
  | _ => EvLog INFO [FStr "Monitoring interrupted by user"]
  end.

(** The remote command of [verify_connection]. *)
Definition connect_cmd : string := "echo " ++ dquote ++ "Connection test" ++ dquote.

(** The back-off of an attempt: nothing before the first, twice the
    attempt index before the others. *)
Definition backoff (attempt : nat) : list Z :=
  if 0 <? Z.of_nat attempt then [Z.of_nat attempt * 2] else [].

(** The file system once the bundle [ms] of an attempt is downloaded and
    unpacked, and the events of the attempt up to there. *)
Definition unpacked_fs (tdir : string) (ms : list (string * node)) (fs : localfs) : localfs :=
  extract_members tdir ms (<[join tdir remote_archive := Tar ms]> fs).

Definition unpacked_state (cfg : config) (wd tdir wav json : string) (attempt : nat)
    (ms : list (string * node)) (s : state) : state :=
  {| st_fs := unpacked_fs tdir ms (st_fs s);
     st_trace := st_trace s ++ attempt_prefix cfg wd wav json attempt ++
                 [EvRun (download_argv cfg wd (join tdir remote_archive))] |}.

(** ** Further sample data *)

(** The sample world with another configuration file and another answer
    to the connection check. *)
Definition startup_world (parsed : option raw_config) (connect : response) : world :=
  {| w_config := parsed;
     w_glob := w_glob sample_world;
     w_timestamp := w_timestamp sample_world;
     w_connect := connect;
     w_mkdir := w_mkdir sample_world;
     w_upload := w_upload sample_world;
     w_unpack := w_unpack sample_world;
     w_start := w_start sample_world;
     w_tail := w_tail sample_world;
     w_test := w_test sample_world;
     w_poll_sleep := w_poll_sleep sample_world;
     w_settle_sleep := w_settle_sleep sample_world;
     w_backoff_sleep := w_backoff_sleep sample_world;
     w_create := w_create sample_world;
     w_download := w_download sample_world;
     w_bundle := w_bundle sample_world;
     w_cleanup := w_cleanup sample_world |}.

(** The configuration file is missing. *)
Definition no_config_world : world := startup_world None (Returned 0 "").

(** The configuration file lacks the [port] key. *)
Definition no_port_world : world :=
  startup_world
    (Some {| raw_host := Some "10.0.0.5"; raw_port := None;
             raw_remote_path := Some "/remote/work"; raw_keep_remote := None |})
    (Returned 0 "").

(** The connection check is refused. *)
Definition refused_world : world := startup_world (Some sample_raw) (Returned 255 "").

(** The configuration file sets [keep_remote]. *)
Definition keeping_world : world :=
  startup_world
    (Some {| raw_host := Some "10.0.0.5"; raw_port := Some "22";
             raw_remote_path := Some "/remote/work";
             raw_keep_remote := Some (JBool true) |})
    (Returned 0 "Connection test").

(** The marker never appears. *)
Definition waiting_world : world :=
  world_with (Returned 0 "") (fun _ => Returned 1 "")
    (fun _ => false) (fun _ => Returned 0 "") (fun _ => Returned 0 "")
    (fun _ => sample_bundle).


(** The path of the [transcripts] directory is taken by a regular file. *)
Definition blocked_fs : localfs := <["in/transcripts" := Bytes "x"]> sample_fs.


(** A directory whose name holds a bracket, with two WAV files in it,
    next to a directory that holds a pair. *)
Definition bracket_fs : localfs :=
  <["in[1]" := Dir]> (<["in[1]/a.wav" := Bytes "RIFF"]>
    (<["in[1]/b.wav" := Bytes "RIFF"]> (<["in[1]/a.json" := Bytes "{}"]>
      (<["in1" := Dir]> (<["in1/x.wav" := Bytes "RIFF"]>
        (<["in1/x.json" := Bytes "{}"]> ∅)))))).

Definition bracket_args : args :=
  {| arg_input := "in[1]"; arg_config := "vast_config.json"; arg_keep_remote := false |}.

(** ** Further shapes *)

(** *** The bundle command on the remote side

    The names of the command go to the remote shell as they are. Between
    single quotes the shell hands the operand of [--exclude] on to [tar]
    unchanged (a quote in a name would end the quoting early); [tar]
    reads the operand as a wildcard pattern, not as a name; and the shell
    expands the operand [transcript_*] to the names of the work directory
    that match it. *)

(** The operands of the [--exclude] options of [create_archive_cmd]. *)
Definition exclude_patterns (wav_name json_name : string) : list string :=
  [wav_name; json_name; "process.log"; "COMPLETED"; "input_*.tar.gz"; "*.log"].

(** The file [name] of the work directory goes into the bundle: the
    inclusion glob matches it and no exclusion pattern does. [None] when
    one of the patterns is not worked out (see [parse_wild]). *)
Definition bundled (wav_name json_name name : string) : option bool :=
  match fnmatch name "transcript_*" with
  | Some included =>
      foldr (fun p acc =>
               match fnmatch name p, acc with
               | Some excluded, Some b => Some (negb excluded && b)
               | _, _ => None
               end) (Some included) (exclude_patterns wav_name json_name)
  | None => None
  end.

(** The configuration file cannot be used: it is missing, or lacks one of
    the three required keys. *)
Definition config_unusable (w : world) : Prop :=
  w_config w = None \/
  exists raw, w_config w = Some raw /\
    (raw_host raw = None \/ raw_port raw = None \/ raw_remote_path raw = None).

(** The exception [GPUController.__init__] raises for an unusable
    configuration file. *)
Definition config_error (config_file : string) (w : world) : exn :=
  match w_config w with
  | None => FileNotFoundError config_file
  | Some _ => ValueError "Config file must contain: ['host', 'port', 'remote_path']"
  end.

(** The file system after [setup_logging]. *)
Definition with_logs (fs : localfs) : localfs :=
  let fs1 := match fs !! "logs" with
             | None => <["logs" := Dir]> fs
             | Some _ => fs
             end in
  match fs1 !! log_file with
  | None => <[log_file := Bytes ""]> fs1
  | Some _ => fs1
  end.

(** An event that is a [subprocess.run] call. *)
Definition is_run (ev : event) : Prop := exists argv, ev = EvRun argv.

(** [m] never hands an exception to its caller. *)
Definition never_raises {A} (m : M A) : Prop :=
  forall st e, (m st).1 <> Raise e.

(** [m] comes to an end in every environment: it needs no fuel. *)
Definition finishes {A} (m : M A) : Prop :=
  forall st, (m st).1 <> OutOfFuel.

(** A remote deletion other than the [rm -rf] of the work directory that
    the run with configuration [cfg] creates, or any remote deletion at
    all when [keep_remote] is set. *)
Definition foreign_deletion (cfg : config) (w : world) (ev : event) : Prop :=
  exists argv, ev = EvRun argv /\ is_remote_delete ev = true /\
    (keep_remote_set cfg = true \/
     argv <> ssh_argv cfg (cleanup_cmd (work_dir_of cfg (w_timestamp w)))).

(* ================================================================= *)
(** * Properties *)

(** ** Strings and paths *)

Lemma sapp_nil_l (s : string) : "" ++ s = s.
Proof. reflexivity. Qed.

Lemma sapp_cons (c : ascii) (a b : string) : String c a ++ b = String c (a ++ b).
Proof. reflexivity. Qed.

Lemma prefix_app (s t : string) : String.prefix s (s ++ t) = true.
Proof.
  induction s as [|c s IH]; rewrite ?sapp_cons, ?sapp_nil_l; simpl.
  - by destruct t.
  - destruct (ascii_dec c c); [exact IH | done].
Qed.

Lemma contains_of_prefix (sub s : string) :
  String.prefix sub s = true -> contains sub s = true.
Proof. intros H. destruct s; cbn [contains]; rewrite H; reflexivity. Qed.

Lemma contains_here (sub b : string) : contains sub (sub ++ b) = true.
Proof. apply contains_of_prefix, prefix_app. Qed.

Lemma contains_skip (a sub s : string) :
  contains sub s = true -> contains sub (a ++ s) = true.
Proof.
  intros H. induction a as [|c a IH]; rewrite ?sapp_cons, ?sapp_nil_l; [exact H|].
  cbn [contains]. rewrite IH. apply orb_true_r.
Qed.

Lemma contains_mid (a sub b : string) : contains sub (a ++ sub ++ b) = true.
Proof. apply contains_skip, contains_here. Qed.

Lemma string_app_assoc (a b c : string) : (a ++ b) ++ c = a ++ b ++ c.
Proof.
  induction a as [|x a IH]; rewrite ?sapp_cons, ?sapp_nil_l; [reflexivity | congruence].
Qed.

Lemma string_app_nil_r (a : string) : a ++ "" = a.
Proof.
  induction a as [|x a IH]; rewrite ?sapp_cons, ?sapp_nil_l; [reflexivity | congruence].
Qed.

Lemma endswith_app (a suf : string) : endswith (a ++ suf) suf = true.
Proof.
  induction a as [|c a IH]; rewrite ?sapp_cons, ?sapp_nil_l.
  - destruct suf; cbn [endswith]; by rewrite String.eqb_refl.
  - cbn [endswith]. rewrite IH. apply orb_true_r.
Qed.

Lemma endswith_inv (s suf : string) :
  endswith s suf = true -> exists a, s = a ++ suf.
Proof.
  induction s as [|c s IH]; cbn [endswith]; intros H.
  - apply orb_true_iff in H as [H|H]; [|done].
    apply String.eqb_eq in H. exists "". by rewrite <- H.
  - apply orb_true_iff in H as [H|H].
    + apply String.eqb_eq in H. exists "". by rewrite <- H.
    + destruct (IH H) as [a ->]. by exists (String c a).
Qed.

Lemma has_slash_app (a b : string) : has_slash (a ++ b) = has_slash a || has_slash b.
Proof.
  induction a as [|c a IH]; rewrite ?sapp_cons, ?sapp_nil_l; cbn [has_slash]; [reflexivity|].
  by rewrite IH, orb_assoc.
Qed.

Lemma basename_flat (p : string) : has_slash (basename p) = false.
Proof.
  induction p as [|c p IH]; cbn [basename]; [reflexivity|].
  destruct (has_slash p) eqn:Hp; [exact IH|].
  destruct (is_slash c) eqn:Hc; cbn [has_slash]; [exact Hp|].
  by rewrite Hc, Hp.
Qed.

Lemma basename_id (n : string) : has_slash n = false -> basename n = n.
Proof.
  destruct n as [|c n]; cbn [basename has_slash]; [reflexivity|].
  intros H. apply orb_false_iff in H as [Hc Hn]. by rewrite Hn, Hc.
Qed.

Lemma basename_after_slash (a n : string) :
  has_slash n = false -> basename (a ++ "/" ++ n) = n.
Proof.
  intros Hn. induction a as [|c a IH]; rewrite ?sapp_cons, ?sapp_nil_l; cbn [basename].
  - by rewrite Hn.
  - rewrite has_slash_app. cbn [has_slash is_slash]. simpl.
    rewrite orb_true_r. exact IH.
Qed.

Lemma no_slash_not_absolute (n : string) : has_slash n = false -> startswith n "/" = false.
Proof.
  destruct n as [|c n]; cbn [has_slash]; [reflexivity|].
  intros H. apply orb_false_iff in H as [Hc _].
  unfold is_slash in Hc. apply Ascii.eqb_neq in Hc.
  unfold startswith. cbn [String.prefix].
  destruct (ascii_dec "/"%char c) as [<-|]; [done|reflexivity].
Qed.

(** Joining a slash-free name to a directory appends it to the directory
    prefix. *)
Lemma join_flat (d n : string) : has_slash n = false -> join d n = join d "" ++ n.
Proof.
  intros Hn. unfold join. rewrite (no_slash_not_absolute n Hn).
  change (startswith "" "/") with false. cbv iota.
  destruct (String.eqb d "" || endswith d "/").
  - by rewrite string_app_nil_r.
  - by rewrite !string_app_assoc, sapp_nil_l.
Qed.

Lemma basename_join (d n : string) : has_slash n = false -> basename (join d n) = n.
Proof.
  intros Hn. unfold join. rewrite (no_slash_not_absolute n Hn).
  destruct (String.eqb d "" || endswith d "/") eqn:Hd.
  - apply orb_true_iff in Hd as [Hd|Hd].
    + apply String.eqb_eq in Hd. subst d. rewrite sapp_nil_l. by apply basename_id.
    + destruct (endswith_inv _ _ Hd) as [a ->].
      rewrite string_app_assoc. by apply basename_after_slash.
  - by apply basename_after_slash.
Qed.

Lemma string_app_inv_head (a x y : string) : a ++ x = a ++ y -> x = y.
Proof.
  induction a as [|c a IH]; rewrite ?sapp_cons, ?sapp_nil_l; [done|].
  intros [= H]. by apply IH.
Qed.

Lemma join_flat_inj (d n m : string) :
  has_slash n = false -> has_slash m = false -> join d n = join d m -> n = m.
Proof.
  intros Hn Hm. rewrite (join_flat d n Hn), (join_flat d m Hm).
  apply string_app_inv_head.
Qed.

(** ** Stepping through the monad *)

(** The back-off of an attempt is a length [time.sleep] accepts. *)
Lemma backoff_not_negative (attempt : nat) : (Z.of_nat attempt * 2 <? 0) = false.
Proof. apply Z.ltb_ge. lia. Qed.

Ltac sleep_lengths :=
  try unfold sleep; rewrite ?backoff_not_negative; change (5 <? 0) with false.

Ltac mstep :=
  sleep_lengths;
  cbn [bind ret raise interrupt out_of_fuel emit log
       get_fs put_fs try_except try_except2 subprocess_run
       fst snd st_fs st_trace].

Ltac mcbv :=
  sleep_lengths;
  cbv beta iota delta [bind ret raise interrupt out_of_fuel emit log
       get_fs put_fs try_except try_except2 subprocess_run];
  cbn [fst snd st_fs st_trace].

Lemma bind_of {A B} (m : M A) (k : A -> M B) (st st' : state) (r : res A) :
  m st = (r, st') ->
  bind m k st =
    match r with
    | Ok a => k a st'
    | Raise e => (Raise e, st')
    | Interrupt => (Interrupt, st')
    | OutOfFuel => (OutOfFuel, st')
    end.
Proof. intros H. unfold bind. rewrite H. by destruct r. Qed.

Lemma bind_ok_inv {A B} (m : M A) (k : A -> M B) (st st' : state) (b : B) :
  bind m k st = (Ok b, st') ->
  exists a st1, m st = (Ok a, st1) /\ k a st1 = (Ok b, st').
Proof.
  unfold bind. destruct (m st) as [[a|e| |] st1]; intros H; try discriminate H.
  eauto.
Qed.

Lemma try_except_ok_inv {A} (m : M A) (h : exn -> M A) (st st' : state) (a : A) :
  try_except m h st = (Ok a, st') ->
  m st = (Ok a, st') \/ exists e st1, m st = (Raise e, st1) /\ h e st1 = (Ok a, st').
Proof.
  unfold try_except. destruct (m st) as [[a'|e| |] st1]; intros H; eauto.
Qed.

Lemma logged_logged (st : state) (a b : list event) :
  logged (logged st a) b = logged st (a ++ b).
Proof. unfold logged. cbn [st_fs st_trace]. by rewrite <- app_assoc. Qed.

Lemma logged_nil (st : state) : logged st [] = st.
Proof. destruct st. unfold logged. cbn [st_fs st_trace]. by rewrite app_nil_r. Qed.

Lemma emit_eq (ev : event) (st : state) : emit ev st = (Ok tt, logged st [ev]).
Proof. reflexivity. Qed.

Lemma run_check_zero (argv : list string) (out : string) (st : state) :
  subprocess_run_check argv (Returned 0 out) st = (Ok (0, out), logged st [EvRun argv]).
Proof. reflexivity. Qed.

Lemma run_check_nonzero (argv : list string) (rc : Z) (out : string) (st : state) :
  rc <> 0 ->
  subprocess_run_check argv (Returned rc out) st =
    (Raise (CalledProcessError argv rc), logged st [EvRun argv]).
Proof.
  intros H. apply Z.eqb_neq in H.
  unfold subprocess_run_check. mstep. by rewrite H.
Qed.

Lemma run_check_raised (argv : list string) (msg : string) (st : state) :
  subprocess_run_check argv (Raised msg) st = (Raise (OSError msg), logged st [EvRun argv]).
Proof. reflexivity. Qed.

Lemma run_check_interrupted (argv : list string) (st : state) :
  subprocess_run_check argv Interrupted st = (Interrupt, logged st [EvRun argv]).
Proof. reflexivity. Qed.

(** A checked call that goes through. *)
Lemma run_check_ok (argv : list string) (r : response) (st : state) :
  step_ok r = true ->
  exists out, subprocess_run_check argv r st = (Ok (0, out), logged st [EvRun argv]).
Proof.
  destruct r as [rc out| |]; cbn [step_ok]; intros H; try done.
  apply Z.eqb_eq in H. subst rc. exists out. apply run_check_zero.
Qed.

(** A checked call that fails. *)
Lemma run_check_failed (argv : list string) (r : response) (st : state) :
  step_failed r = true ->
  exists e, subprocess_run_check argv r st = (Raise e, logged st [EvRun argv]).
Proof.
  destruct r as [rc out|msg|]; cbn [step_failed]; intros H; try done.
  - apply negb_true_iff, Z.eqb_neq in H. eexists. by apply run_check_nonzero.
  - eexists. apply run_check_raised.
Qed.

(** ** The remote result-bundle command *)

Lemma contains_here3 (a b c r : string) :
  contains (a ++ b ++ c) (a ++ b ++ c ++ r) = true.
Proof.
  replace (a ++ b ++ c ++ r) with ((a ++ b ++ c) ++ r)
    by (by rewrite !string_app_assoc).
  apply contains_here.
Qed.

(** The [--exclude] option the command carries for pattern [p]. *)
Lemma exclude_flag_present (wd wav json p : string) :
  p ∈ [wav; json; "process.log"; "COMPLETED"; "input_*.tar.gz"; "*.log"] ->
  contains ("--exclude='" ++ p ++ "' ") (create_archive_cmd wd wav json) = true.
Proof.
  intros Hp. unfold create_archive_cmd, remote_archive.
  repeat (apply elem_of_cons in Hp as [->|Hp]);
    [..| by apply elem_of_nil in Hp].
  - do 7 apply contains_skip. apply contains_here3.
  - do 10 apply contains_skip. apply contains_here3.
  - do 13 apply contains_skip. apply (contains_here "--exclude='process.log' ").
  - do 14 apply contains_skip. apply (contains_here "--exclude='COMPLETED' ").
  - do 15 apply contains_skip. apply (contains_here "--exclude='input_*.tar.gz' ").
  - do 16 apply contains_skip. apply (contains_here "--exclude='*.log' ").
Qed.

(** The command line ends with the inclusion glob and the size test. *)
Lemma create_archive_cmd_tail (wd wav json : string) :
  endswith (create_archive_cmd wd wav json) "transcript_* && test -s results.tar.gz" = true.
Proof.
  unfold create_archive_cmd, remote_archive.
  rewrite <- !string_app_assoc.
  rewrite (string_app_assoc _ "transcript_* && " "test -s ").
  rewrite (string_app_assoc _ _ "results.tar.gz").
  apply (endswith_app _ "transcript_* && test -s results.tar.gz").
Qed.

Lemma fetch_stops_at_create (cfg : config) (w : world) (wd tdir wav json : string)
    (attempt : nat) (st : state) (rc : Z) (out : string) :
  w_backoff_sleep w attempt = false ->
  w_create w attempt = Returned rc out ->
  rc <> 0 ->
  retrieve_fetch cfg w wd tdir wav json attempt st =
    (Raise (CalledProcessError (ssh_argv cfg (create_archive_cmd wd wav json)) rc),
     logged st (attempt_prefix cfg wd wav json attempt)).
Proof.
  intros Hs Hc Hrc.
  unfold retrieve_fetch, attempt_prefix. rewrite Hs, Hc.
  destruct (0 <? Z.of_nat attempt); mstep;
    erewrite bind_of by (by apply run_check_nonzero);
    unfold logged; cbn [st_fs st_trace]; rewrite <- ?app_assoc; reflexivity.
Qed.

Lemma attempt_stops_at_create (cfg : config) (w : world) (wd tdir wav json : string)
    (attempt : nat) (st : state) (rc : Z) (out : string) :
  w_backoff_sleep w attempt = false ->
  w_create w attempt = Returned rc out ->
  rc <> 0 ->
  retrieve_attempt cfg w wd tdir wav json attempt st =
    (Raise (CalledProcessError (ssh_argv cfg (create_archive_cmd wd wav json)) rc),
     logged st (attempt_prefix cfg wd wav json attempt)).
Proof.
  intros Hs Hc Hrc. unfold retrieve_attempt.
  by rewrite (bind_of _ _ _ _ _ (fetch_stops_at_create _ _ _ tdir _ _ _ st _ _ Hs Hc Hrc)).
Qed.

(** X21. The text of the remote bundle command. For every pair of
    original input names, the command line that [retrieve_results] sends
    holds, in this order, an [--exclude='...'] option with the base name
    of each of the two inputs pasted in as it is, the options for
    [process.log], [COMPLETED], [input_*.tar.gz] and [*.log], then the
    one inclusion operand [transcript_*] and [&& test -s results.tar.gz];
    and when the command exits with a nonzero status (the bundle is
    empty, say) the attempt fails there, before any download. What the
    remote shell and [tar] make of the names is not part of this
    statement. *)
Theorem bundle_command_text_and_size_test
    (cfg : config) (w : world) (wd tdir : string) (original_files : string * string)
    (attempt : nat) (st : state) (rc : Z) (out : string) :
  let wav_name := basename original_files.1 in
  let json_name := basename original_files.2 in
  let cmd := create_archive_cmd wd wav_name json_name in
  cmd = "cd " ++ wd ++ " && sleep 2 && tar czf results.tar.gz " ++
        String.concat ""
          (map (fun p => "--exclude='" ++ p ++ "' ")
             [wav_name; json_name; "process.log"; "COMPLETED";
              "input_*.tar.gz"; "*.log"]) ++
        "transcript_* && test -s results.tar.gz" /\
  Forall (fun p => contains ("--exclude='" ++ p ++ "' ") cmd = true)
    [wav_name; json_name; "process.log"; "COMPLETED"; "input_*.tar.gz"] /\
  endswith cmd "transcript_* && test -s results.tar.gz" = true /\
  (w_backoff_sleep w attempt = false ->
   w_create w attempt = Returned rc out ->
   rc <> 0 ->
   retrieve_attempt cfg w wd tdir wav_name json_name attempt st =
     (Raise (CalledProcessError (ssh_argv cfg cmd) rc),
      logged st (attempt_prefix cfg wd wav_name json_name attempt)) /\
   last (runs (attempt_prefix cfg wd wav_name json_name attempt)) = Some (ssh_argv cfg cmd)).
Proof.
  intros wav_name json_name cmd. split; [|split; [|split]].
  - unfold cmd, create_archive_cmd, remote_archive. cbn [map String.concat].
    rewrite !string_app_assoc. reflexivity.
  - repeat constructor; apply exclude_flag_present; set_solver.
  - apply create_archive_cmd_tail.
  - intros Hs Hc Hrc. split; [by eapply attempt_stops_at_create|].
    unfold attempt_prefix. by destruct (0 <? Z.of_nat attempt).
Qed.

(** C3 (the program falls short of the claim). The inputs are excluded by
    name only as long as [tar] reads the names as themselves. The command
    built for the input [in/transcript_[x].wav] carries the option
    [--exclude='transcript_[x].wav']; as a wildcard pattern this operand
    matches [transcript_x.wav] and not the name of the input, no other
    exclusion matches the name either, and the inclusion glob
    [transcript_*] does: the original WAV file goes into the result
    bundle. *)
Theorem bracket_name_stays_in_the_bundle :
  let wav := basename "in/transcript_[x].wav" in
  let json := basename "in/meeting.json" in
  let cmd := create_archive_cmd "/remote/work/work_1" wav json in
  wav = "transcript_[x].wav" /\
  cmd = "cd /remote/work/work_1 && sleep 2 && tar czf results.tar.gz " ++
        String.concat "" (map (fun p => "--exclude='" ++ p ++ "' ")
                            (exclude_patterns wav json)) ++
        "transcript_* && test -s results.tar.gz" /\
  fnmatch wav wav = Some false /\
  fnmatch "transcript_x.wav" wav = Some true /\
  Forall (fun p => fnmatch wav p = Some false) (exclude_patterns wav json) /\
  fnmatch wav "transcript_*" = Some true /\
  bundled wav json wav = Some true.
Proof.
  cbv zeta. split; [reflexivity|]. split; [vm_compute; reflexivity|].
  split; [reflexivity|]. split; [reflexivity|].
  split; [repeat constructor|]. split; reflexivity.
Qed.

(** ** Packing and unpacking *)

Lemma members_of_names (fs : localfs) (files : list string) :
  Forall (is_regular fs) files ->
  map fst (members_of fs files) = map basename files.
Proof.
  induction 1 as [|p files [n [Hn _]] _ IH]; [reflexivity|].
  unfold members_of in *. cbn [omap list_omap map]. rewrite Hn. cbn. by rewrite IH.
Qed.

Lemma members_of_insert_archive (fs : localfs) (archive : string) (n : node)
    (files : list string) :
  archive ∉ files ->
  members_of (<[archive := n]> fs) files = members_of fs files.
Proof.
  intros Hnot. unfold members_of. induction files as [|p files IH]; [reflexivity|].
  apply not_elem_of_cons in Hnot as [Hne Hnot].
  cbn [omap list_omap]. rewrite lookup_insert_ne by done. by rewrite IH.
Qed.

Lemma members_of_cons (fs : localfs) (p : string) (n : node) (files : list string) :
  fs !! p = Some n ->
  members_of fs (p :: files) = (basename p, n) :: members_of fs files.
Proof. intros H. unfold members_of. cbn [omap list_omap]. by rewrite H. Qed.

Lemma tar_add_regular (archive p : string) (fs : localfs) (tr : list event)
    (old : list (string * node)) (n : node) :
  fs !! archive = Some (Tar old) ->
  fs !! p = Some n -> n <> Dir ->
  tar_add archive p (basename p) {| st_fs := fs; st_trace := tr |} =
    (Ok tt, {| st_fs := <[archive := Tar (old ++ [(basename p, n)])]> fs; st_trace := tr |}).
Proof.
  intros Ha Hp Hn. unfold tar_add, tar_members. mstep. rewrite Hp.
  destruct n; try done; rewrite Ha; reflexivity.
Qed.

Lemma add_files_regular (archive : string) (files : list string) :
  forall (fs : localfs) (tr : list event) (old : list (string * node)),
  fs !! archive = Some (Tar old) ->
  archive ∉ files ->
  Forall (is_regular fs) files ->
  add_files archive files {| st_fs := fs; st_trace := tr |} =
    (Ok tt, {| st_fs := <[archive := Tar (old ++ members_of fs files)]> fs;
               st_trace := tr |}).
Proof.
  induction files as [|p files IH]; intros fs tr old Ha Hnot Hreg.
  - cbn [add_files members_of omap list_omap]. mstep.
    rewrite app_nil_r, insert_id by done. reflexivity.
  - apply not_elem_of_cons in Hnot as [Hne Hnot].
    apply Forall_cons in Hreg as [[n [Hp Hn]] Hreg].
    cbn [add_files].
    erewrite bind_of by (by eapply tar_add_regular).
    rewrite IH with (old := (old ++ [(basename p, n)])%list).
    + rewrite members_of_insert_archive by done.
      rewrite insert_insert_eq, (members_of_cons _ _ _ _ Hp), <- app_assoc.
      reflexivity.
    + apply lookup_insert_eq.
    + done.
    + rewrite Forall_forall in Hreg. apply Forall_forall.
      intros q Hq. destruct (Hreg q Hq) as [m [Hm Hd]]. exists m. split; [|done].
      rewrite lookup_insert_ne; [done|]. by intros ->.
Qed.

(** Opening a bundle for writing where a file can be created. *)
Lemma tar_open_w_ok (archive : string) (fs : localfs) (tr : list event) :
  can_create fs archive = true ->
  tar_open_w archive {| st_fs := fs; st_trace := tr |} =
    (Ok tt, {| st_fs := <[archive := Tar []]> fs; st_trace := tr |}).
Proof.
  unfold can_create. intros H.
  apply andb_true_iff in H as [H Hp]. apply andb_true_iff in H as [Hne Hd].
  apply negb_true_iff in Hne, Hd.
  unfold tar_open_w. mstep. by rewrite Hne, Hd, Hp.
Qed.

Lemma create_archive_regular (files : list string) (archive : string)
    (fs : localfs) (tr : list event) :
  Forall (is_regular fs) files ->
  archive ∉ files ->
  can_create fs archive = true ->
  create_compressed_archive files archive {| st_fs := fs; st_trace := tr |} =
    (Ok (Some archive),
     {| st_fs := <[archive := Tar (members_of fs files)]> fs; st_trace := tr |}).
Proof.
  intros Hreg Hnot Hdir. unfold create_compressed_archive, try_except.
  pose proof (tar_open_w_ok archive fs tr Hdir) as Hopen.
  erewrite bind_of by exact Hopen. cbv iota.
  erewrite bind_of.
  2:{ apply add_files_regular with (old := []); [apply lookup_insert_eq|done|].
      rewrite Forall_forall in Hreg. apply Forall_forall.
      intros q Hq. destruct (Hreg q Hq) as [m [Hm Hd]]. exists m. split; [|done].
      rewrite lookup_insert_ne; [done|]. by intros ->. }
  cbv iota. mstep.
  by rewrite members_of_insert_archive, insert_insert_eq.
Qed.

Lemma extract_members_other (dest : string) (ms : list (string * node)) :
  forall (fs : localfs) (k : string),
  k ∉ extracted_paths dest ms ->
  extract_members dest ms fs !! k = fs !! k.
Proof.
  unfold extract_members, extracted_paths.
  induction ms as [|m ms IH]; intros fs k Hk; [reflexivity|].
  cbn [map] in Hk. apply not_elem_of_cons in Hk as [Hne Hk].
  cbn [foldl]. rewrite IH by done. by rewrite lookup_insert_ne.
Qed.

Lemma extract_members_member (dest : string) (ms : list (string * node)) :
  forall (fs : localfs) (m : string * node),
  NoDup (extracted_paths dest ms) ->
  m ∈ ms ->
  extract_members dest ms fs !! join dest m.1 = Some m.2.
Proof.
  induction ms as [|m0 ms IH]; intros fs m Hnd Hm; [by apply elem_of_nil in Hm|].
  cbn [extracted_paths map] in Hnd. apply NoDup_cons in Hnd as [Hfresh Hnd].
  unfold extract_members. cbn [foldl].
  apply elem_of_cons in Hm as [->|Hm].
  - fold (extract_members dest ms (<[join dest m0.1 := m0.2]> fs)).
    rewrite extract_members_other by done. apply lookup_insert_eq.
  - by apply IH.
Qed.

Lemma extractall_tar (archive dest : string) (ms : list (string * node)) (st : state) :
  st_fs st !! archive = Some (Tar ms) ->
  extractall archive dest st =
    (Ok tt, {| st_fs := extract_members dest ms (st_fs st); st_trace := st_trace st |}).
Proof.
  intros H. unfold extractall, tar_open_r. mcbv. rewrite H. reflexivity.
Qed.

(** C7. Take files with distinct base names, a bundle path at which a file
    can be created (in a directory that exists, not itself a directory)
    and a destination into which files of these names can be written (the
    working directory or an existing directory that holds no directory of
    one of these names), the bundle not being written over by the
    unpacking. Then packing the files and unpacking the bundle into
    [dest] succeeds; the bundle's member names are the base names of the
    packed paths and hold no directory part; the unpacked paths lie
    directly under [dest] and their base names are those of the packed
    paths; every packed file is found under its base name with its
    contents, and nothing else is written. *)
Theorem pack_unpack_base_names
    (fs : localfs) (tr : list event) (files : list string) (archive dest : string) :
  Forall (is_regular fs) files ->
  archive ∉ files ->
  can_create fs archive = true ->
  can_unpack fs dest (map basename files) = true ->
  archive ∉ map (join dest) (map basename files) ->
  NoDup (map basename files) ->
  exists st1 st2 ms,
    create_compressed_archive files archive {| st_fs := fs; st_trace := tr |} =
      (Ok (Some archive), st1) /\
    st_fs st1 !! archive = Some (Tar ms) /\
    map fst ms = map basename files /\
    Forall (fun m => has_slash m.1 = false) ms /\
    extractall archive dest st1 = (Ok tt, st2) /\
    map basename (extracted_paths dest ms) = map basename files /\
    (forall p, p ∈ files -> st_fs st2 !! join dest (basename p) = fs !! p) /\
    (forall k, st_fs st2 !! k <> st_fs st1 !! k -> k ∈ extracted_paths dest ms).
Proof.
  intros Hreg Hnot Hdir _ _ Hnd.
  pose proof (members_of_names fs files Hreg) as Hnames.
  assert (Hflat : Forall (fun m : string * node => has_slash m.1 = false) (members_of fs files)).
  { apply Forall_forall. intros m Hm.
    assert (Hin : m.1 ∈ map fst (members_of fs files)) by (apply list_elem_of_fmap; eauto).
    rewrite Hnames in Hin. apply list_elem_of_fmap in Hin as [p [-> _]].
    apply basename_flat. }
  eexists _, _, (members_of fs files).
  split; [by apply create_archive_regular|].
  cbn [st_fs st_trace].
  split; [apply lookup_insert_eq|].
  split; [exact Hnames|].
  split; [exact Hflat|].
  split; [apply extractall_tar; cbn [st_fs]; apply lookup_insert_eq|].
  cbn [st_fs].
  assert (Hpaths : map basename (extracted_paths dest (members_of fs files)) =
                   map basename files).
  { rewrite <- Hnames. unfold extracted_paths. rewrite !map_map.
    apply map_ext_Forall. eapply Forall_impl; [exact Hflat|].
    intros m Hm. by apply basename_join. }
  split; [exact Hpaths|].
  split.
  - intros p Hp.
    rewrite Forall_forall in Hreg. destruct (Hreg p Hp) as [n [Hn _]].
    rewrite Hn.
    apply (extract_members_member dest _ _ (basename p, n)).
    + apply (NoDup_fmap_1 basename).
      change (NoDup (map basename (extracted_paths dest (members_of fs files)))).
      by rewrite Hpaths.
    + unfold members_of. apply list_elem_of_omap. exists p. by rewrite Hn.
  - intros k Hk. destruct (decide (k ∈ extracted_paths dest (members_of fs files))); [done|].
    exfalso. apply Hk. by apply extract_members_other.
Qed.

(** ** The poll loop *)

Lemma monitor_loop_continue (cfg : config) (w : world) (wd : string)
    (fuel i : nat) (st : state) :
  poll_continues w i ->
  monitor_loop cfg w wd (S fuel) i st =
    monitor_loop cfg w wd fuel (S i) (logged st (poll_round cfg wd)).
Proof.
  intros [[rc [out Ht]] [[rc' [out' [Hte Hrc]]] Hs]].
  cbn [monitor_loop]. rewrite Ht, Hte, Hs. apply Z.eqb_neq in Hrc.
  mcbv. rewrite Hrc. unfold logged, poll_round. cbn [st_fs st_trace].
  by rewrite <- !app_assoc.
Qed.

Lemma monitor_loop_rounds (cfg : config) (w : world) (wd : string) (k : nat) :
  forall (fuel i : nat) (st : state),
  (forall j, (j < k)%nat -> poll_continues w (i + j)) ->
  monitor_loop cfg w wd (k + fuel) i st =
    monitor_loop cfg w wd fuel (i + k) (logged st (poll_rounds cfg wd k)).
Proof.
  induction k as [|k IH]; intros fuel i st H.
  - cbn [poll_rounds Nat.add]. by rewrite logged_nil, Nat.add_0_r.
  - cbn [Nat.add poll_rounds].
    rewrite monitor_loop_continue.
    2:{ specialize (H 0%nat). rewrite Nat.add_0_r in H. apply H. lia. }
    rewrite IH.
    + rewrite logged_logged. by replace (S i + k)%nat with (i + S k)%nat by lia.
    + intros j Hj. replace (S i + j)%nat with (i + S j)%nat by lia. apply H. lia.
Qed.

Lemma monitor_loop_cut (cfg : config) (w : world) (wd : string)
    (fuel i : nat) (st : state) (evs : list event) (r : response) :
  poll_cut cfg w wd i = Some (evs, r) ->
  monitor_loop cfg w wd (S fuel) i st = (cut_outcome r, logged st evs).
Proof.
  unfold poll_cut. cbn [monitor_loop]. unfold logged.
  destruct (w_tail w i) as [rc out|msg|] eqn:Ht.
  - destruct (w_test w i) as [rc' out'|msg|] eqn:Hte.
    + destruct (rc' =? 0) eqn:Hrc; [done|].
      destruct (w_poll_sleep w i) eqn:Hs; [|done].
      intros [= <- <-]. mcbv. rewrite Hrc. cbn [st_fs st_trace].
      by rewrite <- !app_assoc.
    + intros [= <- <-]. mcbv. by rewrite <- !app_assoc.
    + intros [= <- <-]. mcbv. by rewrite <- !app_assoc.
  - intros [= <- <-]. reflexivity.
  - intros [= <- <-]. reflexivity.
Qed.

(** C8. When the first probe for the completion marker finds it (and the
    log read before it returns), [monitor_process] returns [True] in its
    first round: one log read, one marker test, no sleep. *)
Theorem marker_present_completes_without_sleep
    (cfg : config) (w : world) (wd : string) (fuel : nat) (st : state)
    (rc : Z) (out out' : string) :
  w_tail w 0%nat = Returned rc out ->
  w_test w 0%nat = Returned 0 out' ->
  exists tr,
    monitor_process cfg w wd (S fuel) st = (Ok true, logged st tr) /\
    tr = [EvRun (ssh_argv cfg ("tail -n 1 " ++ wd ++ "/process.log"));
          EvRun (ssh_argv cfg ("test -f " ++ wd ++ "/COMPLETED"));
          EvLog INFO [FStr "Processing completed successfully"]] /\
    sleeps tr = [] /\
    length (filter (fun argv => argv = ssh_argv cfg ("test -f " ++ wd ++ "/COMPLETED"))
                   (runs tr)) = 1%nat.
Proof.
  intros Ht Hte. eexists. split; [|split; [reflexivity|split; [reflexivity|]]].
  - unfold monitor_process. cbn [monitor_loop]. rewrite Ht, Hte.
    mcbv. rewrite Z.eqb_refl. cbn [st_fs st_trace]. unfold logged.
    by rewrite <- !app_assoc.
  - cbn [runs omap list_omap]. rewrite filter_cons_False.
    + by rewrite filter_cons_True.
    + unfold ssh_argv. by intros [=].
Qed.

(** C4 (amended). When, after [k] full rounds, a call of the poll loop is
    interrupted, [monitor_process] returns [False], the value it also
    returns when that call raises an exception; the two cases differ in
    the log record only. After the call that was cut short nothing is
    run: the trace ends with that call and the log record. *)
Theorem poll_cut_returns_false
    (cfg : config) (w : world) (wd : string) (fuel k : nat) (st : state)
    (evs : list event) (r : response) :
  (forall i, (i < k)%nat -> poll_continues w i) ->
  poll_cut cfg w wd k = Some (evs, r) ->
  (k < fuel)%nat ->
  monitor_process cfg w wd fuel st =
    (Ok false, logged st (poll_rounds cfg wd k ++ evs ++ [cut_record r])) /\
  (r = Interrupted -> cut_record r = EvLog INFO [FStr "Monitoring interrupted by user"]) /\
  runs [cut_record r] = [].
Proof.
  intros Hk Hcut Hfuel. split; [|split].
  - replace fuel with (k + S (fuel - S k))%nat by lia.
    unfold monitor_process, try_except2.
    rewrite monitor_loop_rounds by (intros j Hj; apply Hk; lia).
    rewrite (monitor_loop_cut _ _ _ _ _ _ _ _ Hcut).
    rewrite logged_logged.
      destruct r as [rc out|msg|]; cbn [cut_outcome cut_record]; mcbv;
      unfold logged; cbn [st_fs st_trace]; by rewrite <- !app_assoc.
  - by intros ->.
  - by destruct r.
Qed.

(** ** The launch phase and its bundle *)

Lemma bind_check_ok {B} (argv : list string) (r : response)
    (k : Z * string -> M B) (st : state) :
  step_ok r = true ->
  exists out, bind (subprocess_run_check argv r) k st = k (0, out) (logged st [EvRun argv]).
Proof.
  intros H. destruct (run_check_ok argv r st H) as [out E].
  exists out. by rewrite (bind_of _ _ _ _ _ E).
Qed.

Lemma bind_check_failed {B} (argv : list string) (r : response)
    (k : Z * string -> M B) (st : state) :
  step_failed r = true ->
  exists e, bind (subprocess_run_check argv r) k st = (Raise e, logged st [EvRun argv]).
Proof.
  intros H. destruct (run_check_failed argv r st H) as [e E].
  exists e. by rewrite (bind_of _ _ _ _ _ E).
Qed.

Ltac check_ok H :=
  match goal with
  | |- context [bind (subprocess_run_check ?argv ?r) ?k ?st] =>
      let out := fresh "out" in
      destruct (bind_check_ok argv r k st H) as [out ->]; cbv beta
  end.

Ltac check_failed H :=
  match goal with
  | |- context [bind (subprocess_run_check ?argv ?r) ?k ?st] =>
      let e := fresh "e" in
      destruct (bind_check_failed argv r k st H) as [e ->]; cbv beta
  end.

Lemma tar_add_keeps_tar (a p arc : string) (st : state) (ms : list (string * node)) :
  st_fs st !! a = Some (Tar ms) ->
  exists ms', st_fs (tar_add a p arc st).2 !! a = Some (Tar ms').
Proof.
  intros H. unfold tar_add. mcbv.
  destruct (tar_members (st_fs st) p arc) as [new|]; cbn [snd st_fs]; [|eauto].
  rewrite H. cbn [snd st_fs]. rewrite lookup_insert_eq. eauto.
Qed.

Lemma add_files_keeps_tar (a : string) (files : list string) :
  forall (st : state) (ms : list (string * node)),
  st_fs st !! a = Some (Tar ms) ->
  exists ms', st_fs (add_files a files st).2 !! a = Some (Tar ms').
Proof.
  induction files as [|p files IH]; intros st ms H; [by eauto|].
  cbn [add_files]. unfold bind.
  destruct (tar_add_keeps_tar a p (basename p) st ms H) as [ms1 H1].
  destruct (tar_add a p (basename p) st) as [[[]| e | |] st1]; cbn [snd] in *; eauto.
Qed.

(** A bundle that was created is a regular file. *)
Lemma created_archive_is_tar (files : list string) (a a' : string) (st st1 : state) :
  create_compressed_archive files a st = (Ok (Some a'), st1) ->
  exists ms, st_fs st1 !! a = Some (Tar ms).
Proof.
  unfold create_compressed_archive, try_except, bind at 1.
  destruct (tar_open_w a st) as [[[]| e | |] st0] eqn:Hopen; try (mcbv; congruence).
  assert (Htar : st_fs st0 !! a = Some (Tar [])).
  { revert Hopen. unfold tar_open_w. mcbv.
    destruct (String.eqb a ""); [discriminate|].
    destruct (isdir (st_fs st) a); [discriminate|].
    destruct (parent_exists (st_fs st) a).
    - intros [= <-]. cbn [st_fs]. apply lookup_insert_eq.
    - by destruct (st_fs st !! dirname a) as [[]|]. }
  destruct (add_files_keeps_tar a files st0 [] Htar) as [ms Hms].
  unfold bind.
  destruct (add_files a files st0) as [[[]| e | |] st2]; cbn [snd] in Hms;
    mcbv; intros H; try discriminate H.
  injection H as _ <-. eauto.
Qed.

Lemma os_remove_regular (path : string) (st : state) (n : node) :
  st_fs st !! path = Some n -> n <> Dir ->
  os_remove path st = (Ok tt, {| st_fs := delete path (st_fs st); st_trace := st_trace st |}).
Proof. intros H Hn. unfold os_remove. mcbv. rewrite H. by destruct n. Qed.

Lemma join_bundle_truthy (d x : string) :
  str_truthy (Some (join d ("input_" ++ x))) = true.
Proof.
  unfold str_truthy, join.
  change (startswith ("input_" ++ x) "/") with false. cbv iota.
  assert (H : forall a c r, String.eqb (a ++ String c r) "" = false)
    by (intros [|] ? ?; reflexivity).
  destruct (String.eqb d "" || endswith d "/").
  - change ("input_" ++ x) with (String "i" ("nput_" ++ x)). by rewrite H.
  - change ("/" ++ "input_" ++ x) with (String "/" ("input_" ++ x)). by rewrite H.
Qed.

(** C5 (amended). Once the local bundle has been created, the launch
    phase deletes it only on its success path, as its last action after
    the remote start command has returned; when one of the remote steps
    (directory setup, upload, unpack, start) fails, the phase returns
    [None] and the bundle file stays where it was created. *)
Theorem launch_deletes_bundle_on_success_only
    (cfg : config) (w : world) (input_dir wav_file json_file : string)
    (st st1 : state) :
  let archive_path := join input_dir ("input_" ++ w_timestamp w ++ ".tar.gz") in
  create_compressed_archive [wav_file; json_file] archive_path st =
    (Ok (Some archive_path), st1) ->
  (launch_succeeds w = true ->
   exists tr,
     execute_gpu_service cfg w input_dir wav_file json_file st =
       (Ok (Some (work_dir_of cfg (w_timestamp w))),
        {| st_fs := delete archive_path (st_fs st1); st_trace := st_trace st1 ++ tr |}) /\
     length (runs tr) = 4%nat) /\
  (launch_fails w = true ->
   exists tr,
     execute_gpu_service cfg w input_dir wav_file json_file st =
       (Ok None, {| st_fs := st_fs st1; st_trace := st_trace st1 ++ tr |}) /\
     is_Some (st_fs st1 !! archive_path) /\
     (1 <= length (runs tr) <= 4)%nat).
Proof.
  intros archive_path Hcreate.
  destruct (created_archive_is_tar _ _ _ _ _ Hcreate) as [ms Hms].
  split.
  - intros H. unfold launch_succeeds in H.
    apply andb_true_iff in H as [H H4]. apply andb_true_iff in H as [H H3].
    apply andb_true_iff in H as [H1 H2].
    unfold execute_gpu_service, try_except. fold archive_path.
    rewrite (bind_of _ _ _ _ _ Hcreate).
    unfold archive_path at 1. rewrite join_bundle_truthy. cbn [negb]. mstep.
    check_ok H1. check_ok H2. check_ok H3. check_ok H4.
    erewrite bind_of.
    2:{ apply os_remove_regular with (n := Tar ms); [|done].
        unfold logged. cbn [st_fs]. exact Hms. }
    mstep. unfold logged. cbn [st_fs st_trace]. rewrite <- !app_assoc.
    eexists. split; reflexivity.
  - intros H. unfold launch_fails in H.
    unfold execute_gpu_service, try_except. fold archive_path.
    rewrite (bind_of _ _ _ _ _ Hcreate).
    unfold archive_path at 1. rewrite join_bundle_truthy. cbn [negb]. mstep.
    apply orb_true_iff in H as [H1|H]; [check_failed H1|
      apply andb_true_iff in H as [H1 H]; check_ok H1;
      apply orb_true_iff in H as [H2|H]; [check_failed H2|
        apply andb_true_iff in H as [H2 H]; check_ok H2;
        apply orb_true_iff in H as [H3|H]; [check_failed H3|
          apply andb_true_iff in H as [H3 H4]; check_ok H3; check_failed H4]]];
      mstep; unfold logged; cbn [st_fs st_trace]; rewrite <- !app_assoc;
      (eexists; split; [reflexivity|split; [by eauto|cbn; lia]]).
Qed.

(** ** Input discovery *)

Lemma elem_of_listdir (fs : localfs) (d x : string) :
  x ∈ listdir fs d <-> exists k, is_Some (fs !! k) /\ child_name d k = Some x.
Proof.
  unfold listdir. rewrite elem_of_remove_dups, list_elem_of_omap. split.
  - intros [k [Hk Hc]]. exists k. split; [|done].
    apply list_elem_of_fmap in Hk as [[k' v] [-> Hkv]].
    apply elem_of_map_to_list in Hkv. by exists v.
  - intros [k [[v Hv] Hc]]. exists k. split; [|done].
    apply list_elem_of_fmap. exists (k, v). split; [done|].
    by apply elem_of_map_to_list.
Qed.

(** Whatever is peeled off the front of a path [k] that logging makes,
    what is left does not begin with the name of a WAV or JSON file. *)
Ltac peel_prefix p :=
  repeat (destruct p as [|? p]; cbn [strip_prefix];
          [intros ? [= <-]; by vm_compute
          |match goal with
           | |- context [Ascii.eqb ?c ?x] => destruct (Ascii.eqb c x)
           end; [|done]]);
  destruct p; cbn [strip_prefix]; [intros ? [= <-]; by vm_compute|done].

(** The [logs] directory and the log file are neither a WAV nor a JSON
    file of any directory. *)
Lemma logging_child_unmatched (d k x ext : string) :
  k = "logs" \/ k = log_file ->
  ext = ".wav" \/ ext = ".json" ->
  child_name d k = Some x -> glob_match_ext ext x = false.
Proof.
  intros Hk Hext. unfold child_name, below.
  generalize (join d ""). intros p.
  assert (H : forall r, strip_prefix p k = Some r ->
                        glob_match_ext ext (first_component r) = false).
  { destruct Hk as [-> | ->], Hext as [-> | ->]; unfold log_file; peel_prefix p. }
  destruct (strip_prefix p k) as [r|]; [|done].
  destruct (String.eqb r ""); [done|].
  destruct (String.eqb (first_component r) ""); [done|].
  intros [= <-]. by apply H.
Qed.

Lemma glob_ext_insert_unmatched (fs : localfs) (d ext k : string) (n : node) :
  (forall x, child_name d k = Some x -> glob_match_ext ext x = false) ->
  glob_ext (<[k := n]> fs) d ext ≡ₚ glob_ext fs d ext.
Proof.
  intros Hun. unfold glob_ext. apply fmap_Permutation, NoDup_Permutation.
  - apply NoDup_filter, NoDup_remove_dups.
  - apply NoDup_filter, NoDup_remove_dups.
  - intros x. rewrite !list_elem_of_filter, !elem_of_listdir.
    split; intros [Hx [k' [Hk Hc]]]; (split; [done|]).
    + destruct (decide (k' = k)) as [->|Hne].
      * rewrite (Hun x Hc) in Hx. done.
      * exists k'. by rewrite lookup_insert_ne in Hk.
    + exists k'. split; [|done].
      destruct (decide (k' = k)) as [->|Hne].
      * rewrite lookup_insert_eq. eauto.
      * by rewrite lookup_insert_ne.
Qed.

(** Setting up logging adds no WAV and no JSON file to any directory. *)
Lemma glob_ext_with_logs (fs : localfs) (d ext : string) :
  ext = ".wav" \/ ext = ".json" ->
  glob_ext (with_logs fs) d ext ≡ₚ glob_ext fs d ext.
Proof.
  intros Hext. unfold with_logs.
  assert (Hl : forall k, k = "logs" \/ k = log_file ->
                 forall x, child_name d k = Some x -> glob_match_ext ext x = false)
    by (intros k Hk x; by apply logging_child_unmatched).
  destruct (fs !! "logs"); cbv zeta.
  - destruct (fs !! log_file); [done|].
    apply glob_ext_insert_unmatched, Hl. by right.
  - destruct (<["logs" := Dir]> fs !! log_file).
    + apply glob_ext_insert_unmatched, Hl. by left.
    + etrans; [apply glob_ext_insert_unmatched, Hl; by right|].
      apply glob_ext_insert_unmatched, Hl. by left.
Qed.

(** A directory name without metacharacters is listed as it is. *)
Lemma glob_paths_literal (w : world) (fs : localfs) (d ext : string) :
  glob_literal d = true -> glob_paths w fs d ext = glob_ext fs d ext.
Proof. intros H. unfold glob_paths. by rewrite H. Qed.

Lemma find_audio_pair_none (w : world) (input_dir : string) (st : state) :
  length (glob_paths w (st_fs st) input_dir ".wav") <> 1%nat \/
  length (glob_paths w (st_fs st) input_dir ".json") <> 1%nat ->
  exists msg,
    find_audio_pair w input_dir st = (Ok (None, None), logged st [EvLog ERROR msg]).
Proof.
  intros H. unfold find_audio_pair. mcbv.
  assert (Hb : negb (Nat.eqb (length (glob_paths w (st_fs st) input_dir ".wav")) 1) ||
               negb (Nat.eqb (length (glob_paths w (st_fs st) input_dir ".json")) 1) = true).
  { apply orb_true_iff.
    destruct H as [H|H]; [left|right]; by apply negb_true_iff, Nat.eqb_neq. }
  rewrite Hb. eexists. reflexivity.
Qed.

Lemma ancestors_logs : ancestors "logs" = [].
Proof. reflexivity. Qed.

(** What loading the configuration returns, the state being untouched. *)
Lemma load_config_state (config_file : string) (w : world) (st s0 : state)
    (r : res config) :
  _load_config config_file (w_config w) st = (r, s0) -> s0 = st.
Proof.
  unfold _load_config. destruct (w_config w) as [raw|]; [|by intros [= _ <-]].
  destruct (raw_host raw), (raw_port raw), (raw_remote_path raw); by intros [= _ <-].
Qed.

(** Setting up logging leaves the [logs] directory and the log file, and
    nothing in the trace. *)
Lemma setup_logging_ok (st st1 : state) :
  setup_logging st = (Ok tt, st1) ->
  st1 = {| st_fs := with_logs (st_fs st); st_trace := st_trace st |}.
Proof.
  unfold setup_logging, makedirs, open_append, with_logs.
  rewrite ancestors_logs. cbn [existsb]. destruct st as [fs tr]. mcbv.
  destruct (fs !! "logs") as [[]|]; cbn [st_fs st_trace]; try discriminate.
  - destruct (isdir fs log_file); [discriminate|].
    destruct (fs !! log_file); by intros [= <-].
  - destruct (isdir (<["logs" := Dir]> fs) log_file); [discriminate|].
    destruct (<["logs" := Dir]> fs !! log_file); by intros [= <-].
Qed.

Lemma setup_logging_trace (st st1 : state) (r : res unit) :
  setup_logging st = (r, st1) ->
  st_trace st1 = st_trace st /\ r <> Interrupt /\ r <> OutOfFuel.
Proof.
  unfold setup_logging, makedirs, open_append.
  rewrite ancestors_logs. cbn [existsb]. destruct st as [fs tr]. mcbv.
  destruct (fs !! "logs") as [[]|]; cbn [st_fs st_trace]; try by intros [= <- <-].
  - destruct (isdir fs log_file); [by intros [= <- <-]|].
    destruct (fs !! log_file); by intros [= <- <-].
  - destruct (isdir (<["logs" := Dir]> fs) log_file); [by intros [= <- <-]|].
    destruct (<["logs" := Dir]> fs !! log_file); by intros [= <- <-].
Qed.

Lemma new_controller_ok_state (config_file : string) (w : world) (st st1 : state)
    (cfg : config) :
  new_controller config_file w st = (Ok cfg, st1) ->
  st1 = {| st_fs := with_logs (st_fs st); st_trace := st_trace st |}.
Proof.
  unfold new_controller. intros Hn.
  apply bind_ok_inv in Hn as (cfg' & s0 & Hl & Hn).
  apply load_config_state in Hl. subst s0.
  apply bind_ok_inv in Hn as ([] & s1 & Hs & Hn).
  injection Hn as _ <-. by apply setup_logging_ok.
Qed.

Lemma new_controller_trace (config_file : string) (w : world) (st st1 : state)
    (r : res config) :
  new_controller config_file w st = (r, st1) ->
  st_trace st1 = st_trace st /\ r <> Interrupt /\ r <> OutOfFuel.
Proof.
  unfold new_controller, bind.
  destruct (_load_config config_file (w_config w) st) as [[c|e'| |] s0] eqn:Hl.
  - apply load_config_state in Hl. subst s0.
    destruct (setup_logging st) as [[[]|e'| |] s1] eqn:Hs;
      apply setup_logging_trace in Hs as (Hs & Hi & Ho); try done.
    + unfold ret. by intros [= <- <-].
    + by intros [= <- <-].
  - apply load_config_state in Hl. subst s0. by intros [= <- <-].
  - exfalso. revert Hl. unfold _load_config. destruct (w_config w) as [raw|]; [|done].
    by destruct (raw_host raw), (raw_port raw), (raw_remote_path raw).
  - exfalso. revert Hl. unfold _load_config. destruct (w_config w) as [raw|]; [|done].
    by destruct (raw_host raw), (raw_port raw), (raw_remote_path raw).
Qed.

Lemma new_controller_cases (config_file : string) (w : world) (st : state) :
  exists r fs',
    new_controller config_file w st = (r, {| st_fs := fs'; st_trace := st_trace st |}) /\
    ((exists e, r = Raise e) \/
     (exists cfg, r = Ok cfg) /\ fs' = with_logs (st_fs st)).
Proof.
  destruct (new_controller config_file w st) as [r st1] eqn:Hn.
  pose proof (new_controller_trace _ _ _ _ _ Hn) as (Htr & Hi & Ho).
  destruct r as [cfg|e| |]; [| |done|done].
  - apply new_controller_ok_state in Hn as ->. eauto 10.
  - exists (Raise e), (st_fs st1). rewrite <- Htr. destruct st1. eauto.
Qed.

Lemma verify_connection_cases (cfg : config) (w : world) (st : state) :
  exists r tr,
    verify_connection cfg w st = (r, logged st (EvRun (ssh_argv cfg connect_cmd) :: tr)) /\
    runs tr = [] /\
    ((exists b, r = Ok b) \/ r = Interrupt) /\
    (forall out, w_connect w = Returned 0 out -> r = Ok true /\ tr = []).
Proof.
  unfold verify_connection, connect_cmd. unfold logged.
  destruct (w_connect w) as [rc out|msg|]; mcbv.
  - exists (Ok (rc =? 0)), [].
    split; [reflexivity|split; [reflexivity|split; [eauto|]]].
    by intros out' [= -> _].
  - eexists (Ok false), [_]. rewrite <- app_assoc.
    split; [reflexivity|split; [reflexivity|split; [eauto|done]]].
  - exists Interrupt, [].
    split; [reflexivity|split; [reflexivity|split; [eauto|done]]].
Qed.

Lemma runs_app (a b : list event) : runs (a ++ b) = (runs a ++ runs b)%list.
Proof. apply omap_app. Qed.

Lemma runs_cons_run (argv : list string) (tr : list event) :
  runs (EvRun argv :: tr) = argv :: runs tr.
Proof. reflexivity. Qed.

(** X20. For an input directory whose name holds none of the characters
    [*], [?] and [[] (and does not end in a doubled slash): when the
    directory does not hold exactly one [*.wav] and exactly one [*.json]
    file, [find_audio_pair] returns [(None, None)], and [main] ends
    without launching anything: the only command it can have run is the
    connection check. With a directory, a loadable configuration and a
    successful connection check it ends on "Could not find valid WAV/JSON
    pair". *)
Theorem no_unique_pair_aborts_before_launch
    (a : args) (w : world) (fuel : nat) (st : state) :
  glob_literal (arg_input a) = true ->
  length (glob_ext (st_fs st) (arg_input a) ".wav") <> 1%nat \/
  length (glob_ext (st_fs st) (arg_input a) ".json") <> 1%nat ->
  (exists msg,
     find_audio_pair w (arg_input a) st = (Ok (None, None), logged st [EvLog ERROR msg])) /\
  exists v st' tr,
    main a w fuel st = (Ok v, st') /\
    st_trace st' = (st_trace st ++ tr)%list /\
    (runs tr = [] \/ exists cfg, runs tr = [ssh_argv cfg connect_cmd]) /\
    (forall cfg out,
       isdir (st_fs st) (arg_input a) = true ->
       (new_controller (arg_config a) w st).1 = Ok cfg ->
       w_connect w = Returned 0 out ->
       v = NoValidPair /\ runs tr = [ssh_argv cfg connect_cmd]).
Proof.
  intros Hlit H.
  split; [apply find_audio_pair_none; by rewrite !glob_paths_literal|].
  unfold main, try_except2. unfold bind at 1. cbn [get_fs].
  destruct (isdir (st_fs st) (arg_input a)) eqn:Hd; cbn [negb].
  - destruct (new_controller_cases (arg_config a) w st) as (r & fs' & Hn & Hcases).
    rewrite (bind_of _ _ _ _ _ Hn). rewrite Hn. cbn [fst].
    destruct Hcases as [[e ->] | [[cfg ->] Hfs]].
    + mcbv. eexists _, _, [_]. split; [reflexivity|]. split; [reflexivity|].
      split; [by left|]. intros ? ? _ [=].
    + destruct (verify_connection_cases cfg w {| st_fs := fs'; st_trace := st_trace st |})
        as (r & tr & Hv & Hruns & Hr & Hok).
      rewrite (bind_of _ _ _ _ _ Hv).
      destruct Hr as [[b ->] | ->].
      * destruct b; cbn [negb].
        -- destruct (find_audio_pair_none w (arg_input a)
                       (logged {| st_fs := fs'; st_trace := st_trace st |}
                          (EvRun (ssh_argv cfg connect_cmd) :: tr))) as [msg Hf].
           { cbn [logged st_fs]. subst fs'. rewrite !glob_paths_literal by done.
             rewrite (Permutation_length (glob_ext_with_logs _ _ ".wav" (or_introl eq_refl))).
             by rewrite (Permutation_length (glob_ext_with_logs _ _ ".json" (or_intror eq_refl))). }
           rewrite (bind_of _ _ _ _ _ Hf). cbn [fst snd str_truthy negb orb]. mstep.
           eexists _, _, _. split; [reflexivity|].
           unfold logged. cbn [st_fs st_trace]. rewrite <- app_assoc.
           split; [reflexivity|].
           assert (Hr : runs ((EvRun (ssh_argv cfg connect_cmd) :: tr) ++ [EvLog ERROR msg]) =
                        [ssh_argv cfg connect_cmd]).
           { by rewrite runs_app, runs_cons_run, Hruns. }
           split; [right; eauto|].
           intros cfg0 out _ [= <-] _. done.
        -- mstep. eexists _, _, _. split; [reflexivity|].
           unfold logged. cbn [st_fs st_trace].
           split; [reflexivity|].
           assert (Hr : runs (EvRun (ssh_argv cfg connect_cmd) :: tr) =
                        [ssh_argv cfg connect_cmd]).
           { by rewrite runs_cons_run, Hruns. }
           split; [right; eauto|].
           intros cfg0 out _ _ Hc. by destruct (Hok out Hc).
      * mstep. eexists _, _, _. split; [reflexivity|].
        unfold logged. cbn [st_fs st_trace].
        split; [reflexivity|].
        assert (Hr : runs (EvRun (ssh_argv cfg connect_cmd) :: tr) =
                     [ssh_argv cfg connect_cmd]).
        { by rewrite runs_cons_run, Hruns. }
        split; [right; eauto|].
        intros cfg0 out _ _ Hc. by destruct (Hok out Hc).
  - mstep. exists NotADirectory, st, []. rewrite app_nil_r.
    split; [reflexivity|]. split; [reflexivity|]. split; [by left|]. done.
Qed.

(** C10 (the program falls short of the claim). The input directory is
    pasted into the glob pattern as it is, so that a bracket in its name
    is read as a character set. The directory [in[1]] holds two WAV
    files; the pattern [in[1]/*.wav] matches nothing in it but the one
    WAV file of the directory [in1] next to it, and likewise for the JSON
    file: [find_audio_pair] returns the pair of [in1], and [main] goes on
    to launch, poll and retrieve instead of ending on "Could not find
    valid WAV/JSON pair". *)
Theorem bracket_directory_pair_from_elsewhere :
  let st := {| st_fs := bracket_fs; st_trace := [] |} in
  isdir bracket_fs "in[1]" = true /\
  length (glob_ext bracket_fs "in[1]" ".wav") = 2%nat /\
  find_audio_pair sample_world "in[1]" st =
    (Ok (Some "in1/x.wav", Some "in1/x.json"), st) /\
  (main bracket_args sample_world 10 st).1 = Ok ResultsRetrieved /\
  length (runs (st_trace (main bracket_args sample_world 10 st).2)) = 14%nat.
Proof. vm_compute. repeat split. Qed.

(** ** Retrieval *)

Lemma run_check_ok_inv (argv : list string) (r : response) (st st' : state)
    (p : Z * string) :
  subprocess_run_check argv r st = (Ok p, st') -> st' = logged st [EvRun argv].
Proof.
  unfold subprocess_run_check. destruct r as [rc out|msg|]; mcbv; try done.
  destruct (rc =? 0); by intros [= _ <-].
Qed.

Lemma last_logged (st : state) (ev : event) : last (st_trace (logged st [ev])) = Some ev.
Proof. unfold logged. cbn [st_trace]. apply last_snoc. Qed.

(** An attempt that succeeds without [keep_remote] ends with the remote
    [rm -rf]. *)
Lemma retrieve_attempt_ok_last (cfg : config) (w : world)
    (wd tdir wav json : string) (attempt : nat) (st st' : state) :
  keep_remote_set cfg = false ->
  retrieve_attempt cfg w wd tdir wav json attempt st = (Ok tt, st') ->
  last (st_trace st') = Some (EvRun (ssh_argv cfg (cleanup_cmd wd))).
Proof.
  intros Hk H. unfold retrieve_attempt, retrieve_cleanup in H.
  rewrite Hk in H. cbn [negb] in H.
  apply bind_ok_inv in H as (? & ? & _ & H).
  apply bind_ok_inv in H as (p & st1 & H & Hret).
  apply run_check_ok_inv in H. subst st1.
  injection Hret as <-. apply last_logged.
Qed.

Lemma retrieve_loop_ok_last (cfg : config) (w : world)
    (wd tdir wav json : string) (max_retries : Z) (n : nat) :
  forall (attempt : nat) (st st' : state),
  keep_remote_set cfg = false ->
  retrieve_loop cfg w wd tdir wav json max_retries n attempt st = (Ok (Some true), st') ->
  last (st_trace st') = Some (EvRun (ssh_argv cfg (cleanup_cmd wd))).
Proof.
  induction n as [|n IH]; intros attempt st st' Hk H; [discriminate H|].
  cbn [retrieve_loop] in H.
  apply bind_ok_inv in H as (succeeded & st1 & Htry & H).
  apply try_except_ok_inv in Htry as [Hok | (e & st2 & _ & Hh)].
  - apply bind_ok_inv in Hok as ([] & st2 & Ha & Hret).
    injection Hret as <- <-. injection H as <-.
    by eapply retrieve_attempt_ok_last.
  - destruct (Z.of_nat attempt =? max_retries - 1); [discriminate Hh|].
    revert Hh. mcbv. intros [= <- <-]. by eapply IH.
Qed.

Lemma retrieve_results_ok_last (cfg : config) (w : world) (wd dir : string)
    (orig : string * string) (max_retries delay : Z) (st st' : state) :
  keep_remote_set cfg = false ->
  retrieve_results cfg w wd dir orig max_retries delay st = (Ok (Some true), st') ->
  last (st_trace st') = Some (EvRun (ssh_argv cfg (cleanup_cmd wd))).
Proof.
  intros Hk H. unfold retrieve_results in H.
  apply try_except_ok_inv in H as [H | (e & st1 & _ & Hh)].
  - do 2 (apply bind_ok_inv in H as (? & ? & _ & H)).
    by eapply retrieve_loop_ok_last.
  - revert Hh. mcbv. intros [=].
Qed.

Lemma new_controller_keep_remote (config_file : string) (w : world) (st st1 : state)
    (cfg : config) :
  new_controller config_file w st = (Ok cfg, st1) ->
  exists raw, w_config w = Some raw /\ keep_remote cfg = raw_keep_remote raw.
Proof.
  unfold new_controller, _load_config. intros H.
  apply bind_ok_inv in H as (cfg' & st0 & Hload & H).
  apply bind_ok_inv in H as (u & st0' & _ & H). injection H as <- _.
  destruct (w_config w) as [raw|]; [|discriminate Hload].
  exists raw. split; [done|].
  destruct (raw_host raw), (raw_port raw), (raw_remote_path raw);
    try discriminate Hload.
  by injection Hload as <- _.
Qed.

(** ** Events a computation never records *)

Create HintDb quiet.

Section Quiet.
Context (P : event -> Prop).

Lemma quiet_ret {A} (a : A) : quiet P (ret a).
Proof. intros st r st' [= <- <-]. exists []. by rewrite app_nil_r. Qed.

Lemma quiet_raise {A} (e : exn) : quiet P (@raise A e).
Proof. intros st r st' [= <- <-]. exists []. by rewrite app_nil_r. Qed.

Lemma quiet_interrupt {A} : quiet P (@interrupt A).
Proof. intros st r st' [= <- <-]. exists []. by rewrite app_nil_r. Qed.

Lemma quiet_out_of_fuel {A} : quiet P (@out_of_fuel A).
Proof. intros st r st' [= <- <-]. exists []. by rewrite app_nil_r. Qed.

Lemma quiet_get_fs : quiet P get_fs.
Proof. intros st r st' [= <- <-]. exists []. by rewrite app_nil_r. Qed.

Lemma quiet_put_fs (fs : localfs) : quiet P (put_fs fs).
Proof. intros st r st' [= <- <-]. exists []. cbn. by rewrite app_nil_r. Qed.

Lemma quiet_emit (ev : event) : ~ P ev -> quiet P (emit ev).
Proof. intros H st r st' [= <- <-]. exists [ev]. split; [done|]. by constructor. Qed.

Lemma quiet_log (lvl : level) (msg : list frag) :
  ~ P (EvLog lvl msg) -> quiet P (log lvl msg).
Proof. apply quiet_emit. Qed.

Lemma quiet_bind {A B} (m : M A) (k : A -> M B) :
  quiet P m -> (forall a, quiet P (k a)) -> quiet P (bind m k).
Proof.
  intros Hm Hk st r st'. unfold bind.
  destruct (m st) as [r1 st1] eqn:E.
  destruct (Hm _ _ _ E) as (tr1 & Htr1 & Hq1).
  destruct r1 as [a|e| |]; try (intros [= <- <-]; eauto).
  intros E2. destruct (Hk a _ _ _ E2) as (tr2 & Htr2 & Hq2).
  exists (tr1 ++ tr2)%list. rewrite Htr2, Htr1, <- app_assoc.
  split; [done|]. by apply Forall_app.
Qed.

Lemma quiet_try_except {A} (m : M A) (h : exn -> M A) :
  quiet P m -> (forall e, quiet P (h e)) -> quiet P (try_except m h).
Proof.
  intros Hm Hh st r st'. unfold try_except.
  destruct (m st) as [r1 st1] eqn:E.
  destruct (Hm _ _ _ E) as (tr1 & Htr1 & Hq1).
  destruct r1 as [a|e| |]; try (intros [= <- <-]; eauto).
  intros E2. destruct (Hh e _ _ _ E2) as (tr2 & Htr2 & Hq2).
  exists (tr1 ++ tr2)%list. rewrite Htr2, Htr1, <- app_assoc.
  split; [done|]. by apply Forall_app.
Qed.

Lemma quiet_if {A} (c : bool) (m1 m2 : M A) :
  quiet P m1 -> quiet P m2 -> quiet P (if c then m1 else m2).
Proof. by destruct c. Qed.

Lemma quiet_run (argv : list string) (r : response) :
  ~ P (EvRun argv) -> quiet P (subprocess_run argv r).
Proof.
  intros H. unfold subprocess_run. apply quiet_bind; [by apply quiet_emit|].
  intros _. destruct r; [apply quiet_ret|apply quiet_raise|apply quiet_interrupt].
Qed.

Lemma quiet_run_check (argv : list string) (r : response) :
  ~ P (EvRun argv) -> quiet P (subprocess_run_check argv r).
Proof.
  intros H. unfold subprocess_run_check. apply quiet_bind; [by apply quiet_run|].
  intros p. apply quiet_if; [apply quiet_ret|apply quiet_raise].
Qed.

Lemma quiet_sleep (secs : Z) (b : bool) : ~ P (EvSleep secs) -> quiet P (sleep secs b).
Proof.
  intros H. unfold sleep. apply quiet_if; [apply quiet_raise|].
  apply quiet_bind; [by apply quiet_emit|].
  intros _. apply quiet_if; [apply quiet_interrupt|apply quiet_ret].
Qed.

Lemma quiet_os_remove (path : string) : quiet P (os_remove path).
Proof.
  unfold os_remove. apply quiet_bind; [apply quiet_get_fs|]. intros fs.
  destruct (fs !! path) as [[]|];
    first [apply quiet_put_fs | apply quiet_raise
          | apply quiet_if; apply quiet_raise].
Qed.

Lemma quiet_makedirs (path : string) : quiet P (makedirs path).
Proof.
  unfold makedirs. apply quiet_bind; [apply quiet_get_fs|]. intros fs.
  apply quiet_if; [apply quiet_raise|].
  destruct (fs !! path) as [[]|];
    first [apply quiet_put_fs | apply quiet_raise | apply quiet_ret].
Qed.

Lemma quiet_open_append (path : string) : quiet P (open_append path).
Proof.
  unfold open_append. apply quiet_bind; [apply quiet_get_fs|]. intros fs.
  apply quiet_if; [apply quiet_raise|].
  destruct (fs !! path); first [apply quiet_put_fs | apply quiet_ret].
Qed.

Lemma quiet_extractall (archive dest : string) : quiet P (extractall archive dest).
Proof.
  unfold extractall, tar_open_r.
  apply quiet_bind.
  - apply quiet_bind; [apply quiet_get_fs|]. intros fs.
    destruct (fs !! archive) as [[]|];
      first [apply quiet_ret | apply quiet_raise
            | apply quiet_if; apply quiet_raise].
  - intros ms. apply quiet_bind; [apply quiet_get_fs|]. intros fs. apply quiet_put_fs.
Qed.
End Quiet.

#[export] Hint Resolve quiet_ret quiet_raise quiet_interrupt quiet_out_of_fuel
  quiet_get_fs quiet_put_fs quiet_os_remove quiet_makedirs quiet_open_append
  quiet_extractall : quiet.

Ltac quiet_step :=
  first
    [ solve [auto with quiet]
    | apply quiet_run_check
    | apply quiet_run
    | apply quiet_sleep
    | apply quiet_log
    | apply quiet_emit
    | apply quiet_if
    | apply quiet_try_except; [|intros ?]
    | apply quiet_bind; [|intros ?] ].

Lemma not_sleep_run (argv : list string) : ~ is_sleep (EvRun argv).
Proof. by intros [s [=]]. Qed.

Lemma not_sleep_log (lvl : level) (msg : list frag) : ~ is_sleep (EvLog lvl msg).
Proof. by intros [s [=]]. Qed.

Lemma not_deletion_sleep (secs : Z) : ~ is_deletion (EvSleep secs).
Proof. by intros [=]. Qed.

Lemma not_deletion_log (lvl : level) (msg : list frag) : ~ is_deletion (EvLog lvl msg).
Proof. by intros [=]. Qed.

Lemma not_deletion_create (cfg : config) (wd wav json : string) :
  ~ is_deletion (EvRun (ssh_argv cfg (create_archive_cmd wd wav json))).
Proof.
  unfold is_deletion, is_remote_delete, ssh_argv, create_archive_cmd, startswith.
  change ("cd " ++ ?x) with (String "c" ("d " ++ x)).
  cbn [String.prefix]. by rewrite andb_false_r.
Qed.

Lemma not_deletion_download (cfg : config) (wd local_archive : string) :
  ~ is_deletion (EvRun (download_argv cfg wd local_archive)).
Proof. by intros [=]. Qed.

#[export] Hint Resolve not_sleep_run not_sleep_log not_deletion_sleep not_deletion_log
  not_deletion_create not_deletion_download : quiet.

Lemma fetch_never_deletes (cfg : config) (w : world)
    (wd tdir wav json : string) (attempt : nat) :
  quiet is_deletion (retrieve_fetch cfg w wd tdir wav json attempt).
Proof. unfold retrieve_fetch. repeat quiet_step. Qed.

Lemma attempt_keeps_remote (cfg : config) (w : world)
    (wd tdir wav json : string) (attempt : nat) :
  keep_remote_set cfg = true ->
  quiet is_deletion (retrieve_attempt cfg w wd tdir wav json attempt).
Proof.
  intros Hk. unfold retrieve_attempt, retrieve_cleanup. rewrite Hk. cbn [negb].
  apply quiet_bind; [apply fetch_never_deletes|]. intros _. apply quiet_ret.
Qed.

Lemma loop_keeps_remote (cfg : config) (w : world)
    (wd tdir wav json : string) (max_retries : Z) (n : nat) :
  keep_remote_set cfg = true ->
  forall attempt,
    quiet is_deletion (retrieve_loop cfg w wd tdir wav json max_retries n attempt).
Proof.
  intros Hk. induction n as [|n IH]; intros attempt; cbn [retrieve_loop].
  - apply quiet_ret.
  - apply quiet_bind.
    + apply quiet_try_except.
      * apply quiet_bind; [by apply attempt_keeps_remote|]. intros _. apply quiet_ret.
      * intros e. repeat quiet_step.
    + intros b. apply quiet_if; [apply quiet_ret|apply IH].
Qed.

Lemma retrieve_keeps_remote (cfg : config) (w : world) (wd dir : string)
    (orig : string * string) (max_retries delay : Z) :
  keep_remote_set cfg = true ->
  quiet is_deletion (retrieve_results cfg w wd dir orig max_retries delay).
Proof.
  intros Hk. unfold retrieve_results.
  apply quiet_try_except.
  - apply quiet_bind; [auto with quiet|]. intros _.
    apply quiet_bind; [repeat quiet_step|]. intros _.
    by apply loop_keeps_remote.
  - intros e. repeat quiet_step.
Qed.

Lemma quiet_sleeps_for {A} (m : M A) : quiet is_sleep m -> sleeps_for [] m.
Proof.
  intros H st r st' E. destruct (H _ _ _ E) as (tr & Htr & Hq).
  exists tr. split; [done|].
  clear Htr. induction Hq as [|ev tr Hev _ IH]; [reflexivity|].
  destruct ev; cbn; try exact IH. exfalso. apply Hev. by eexists.
Qed.

Lemma sleeps_app (a b : list event) : sleeps (a ++ b) = (sleeps a ++ sleeps b)%list.
Proof. apply omap_app. Qed.

Lemma sleeps_for_bind {A B} (l1 l2 : list Z) (m : M A) (k : A -> M B) :
  sleeps_for l1 m ->
  (forall a, sleeps_for l2 (k a)) ->
  forall st r st',
    bind m k st = (r, st') ->
    exists tr, st_trace st' = (st_trace st ++ tr)%list /\
      (sleeps tr = l1 \/ sleeps tr = (l1 ++ l2)%list).
Proof.
  intros Hm Hk st r st'. unfold bind.
  destruct (m st) as [r1 st1] eqn:E.
  destruct (Hm _ _ _ E) as (tr1 & Htr1 & Hs1).
  destruct r1 as [a|e| |]; try (intros [= <- <-]; eauto).
  intros E2. destruct (Hk a _ _ _ E2) as (tr2 & Htr2 & Hs2).
  exists (tr1 ++ tr2)%list. rewrite Htr2, Htr1, <- app_assoc.
  split; [done|]. right. by rewrite sleeps_app, Hs1, Hs2.
Qed.

Lemma attempt_sleeps (cfg : config) (w : world)
    (wd tdir wav json : string) (attempt : nat) :
  sleeps_for (backoff attempt) (retrieve_attempt cfg w wd tdir wav json attempt).
Proof.
  intros st r st' E. unfold retrieve_attempt in E.
  assert (Hfetch : sleeps_for (backoff attempt)
                     (retrieve_fetch cfg w wd tdir wav json attempt)).
  { clear. intros st r st' E. unfold retrieve_fetch in E.
    eapply (sleeps_for_bind (backoff attempt) []) in E.
    - destruct E as (tr & Htr & [Hs|Hs]); exists tr; split; try done.
      by rewrite app_nil_r in Hs.
    - unfold backoff. destruct (0 <? Z.of_nat attempt).
      + intros st0 r0 st0' E0. revert E0. unfold sleep. mcbv.
        destruct (w_backoff_sleep w attempt); intros [= <- <-]; by eexists.
      + intros st0 r0 st0' [= <- <-]. exists []. by rewrite app_nil_r.
    - intros _. apply quiet_sleeps_for. repeat quiet_step. }
  eapply (sleeps_for_bind (backoff attempt) []) in E.
  - destruct E as (tr & Htr & [Hs|Hs]); exists tr; split; try done.
    by rewrite app_nil_r in Hs.
  - exact Hfetch.
  - intros _. apply quiet_sleeps_for. unfold retrieve_cleanup. repeat quiet_step.
Qed.

Lemma makedirs_then_sleep (tdir : string) (d : Z) (b : bool) (st s0 : state) :
  bind (makedirs tdir) (fun _ => sleep d b) st = (Ok tt, s0) ->
  exists sa,
    makedirs tdir st = (Ok tt, sa) /\ sleep d b sa = (Ok tt, s0) /\
    st_trace s0 = (st_trace st ++ [EvSleep d])%list.
Proof.
  intros H. apply bind_ok_inv in H as ([] & sa & Hm & Hs).
  exists sa. split; [done|]. split; [done|].
  destruct (quiet_makedirs (fun _ => True) tdir _ _ _ Hm) as (tr & Htr & Hq).
  destruct tr as [|ev tr]; [|by inversion Hq].
  rewrite app_nil_r in Htr.
  revert Hs. unfold sleep. destruct (d <? 0); [discriminate|].
  mcbv. destruct b; intros [= <-].
  cbn [st_trace]. by rewrite Htr.
Qed.

(** One round of the retry loop whose attempt fails and is not the last. *)
Lemma retrieve_loop_retry (cfg : config) (w : world)
    (wd tdir wav json : string) (max_retries : Z) (n attempt : nat)
    (st st1 : state) (e : exn) :
  retrieve_attempt cfg w wd tdir wav json attempt st = (Raise e, st1) ->
  Z.of_nat attempt <> max_retries - 1 ->
  retrieve_loop cfg w wd tdir wav json max_retries (S n) attempt st =
    retrieve_loop cfg w wd tdir wav json max_retries n (S attempt) (warned attempt e st1).
Proof.
  intros Ha Hne. apply Z.eqb_neq in Hne.
  cbn [retrieve_loop]. unfold bind at 1, try_except.
  rewrite (bind_of _ _ _ _ _ Ha), Hne. reflexivity.
Qed.

(** The round of the last attempt, when it fails. *)
Lemma retrieve_loop_exhausted (cfg : config) (w : world)
    (wd tdir wav json : string) (max_retries : Z) (n attempt : nat)
    (st st1 : state) (e : exn) :
  retrieve_attempt cfg w wd tdir wav json attempt st = (Raise e, st1) ->
  Z.of_nat attempt = max_retries - 1 ->
  retrieve_loop cfg w wd tdir wav json max_retries (S n) attempt st =
    (Raise (FailedAfter max_retries e), st1).
Proof.
  intros Ha He. apply Z.eqb_eq in He.
  cbn [retrieve_loop]. unfold bind at 1, try_except.
  rewrite (bind_of _ _ _ _ _ Ha), He. reflexivity.
Qed.

(** C2. With [max_retries = 3] and every attempt failing,
    [retrieve_results] makes the three attempts and no more, then logs
    the failure that wraps the error of the last attempt and returns
    [False]; it sleeps [initial_delay] once before the first attempt,
    [1 * 2] before the second and [2 * 2] before the third. *)
Theorem three_failed_attempts_exhaust_retrieval
    (cfg : config) (w : world) (wd dir : string) (orig : string * string)
    (initial_delay : Z) (st s0 s1 s2 s3 : state) (e1 e2 e3 : exn) :
  let tdir := join dir "transcripts" in
  let attempt := retrieve_attempt cfg w wd tdir (basename orig.1) (basename orig.2) in
  bind (makedirs tdir) (fun _ => sleep initial_delay (w_settle_sleep w)) st = (Ok tt, s0) ->
  attempt 0%nat s0 = (Raise e1, s1) ->
  attempt 1%nat (warned 0 e1 s1) = (Raise e2, s2) ->
  attempt 2%nat (warned 1 e2 s2) = (Raise e3, s3) ->
  exists tr,
    retrieve_results cfg w wd dir orig 3 initial_delay st =
      (Ok (Some false), {| st_fs := st_fs s3; st_trace := st_trace st ++ tr |}) /\
    sleeps tr = [initial_delay; 1 * 2; 2 * 2] /\
    last tr = Some (EvLog ERROR [FStr "Error retrieving results: ";
                                 FExn (FailedAfter 3 e3)]) /\
    (st_trace s3 ++ [EvLog ERROR [FStr "Error retrieving results: ";
                                  FExn (FailedAfter 3 e3)]])%list =
      (st_trace st ++ tr)%list.
Proof.
  intros tdir attempt H0 H1 H2 H3.
  destruct (makedirs_then_sleep _ _ _ _ _ H0) as (sa & Hm & Hs & Htr0).
  destruct (attempt_sleeps _ _ _ _ _ _ _ _ _ _ H1) as (tr1 & Htr1 & Hs1).
  destruct (attempt_sleeps _ _ _ _ _ _ _ _ _ _ H2) as (tr2 & Htr2 & Hs2).
  destruct (attempt_sleeps _ _ _ _ _ _ _ _ _ _ H3) as (tr3 & Htr3 & Hs3).
  cbn [warned st_trace] in Htr2, Htr3.
  eexists. split; [|split; [|split]].
  - unfold retrieve_results, try_except. fold tdir.
    rewrite (bind_of _ _ _ _ _ Hm). cbv iota.
    rewrite (bind_of _ _ _ _ _ Hs). cbv iota.
    change (Z.to_nat 3) with 3%nat.
    rewrite (retrieve_loop_retry _ _ _ _ _ _ _ _ _ _ _ _ H1) by done.
    rewrite (retrieve_loop_retry _ _ _ _ _ _ _ _ _ _ _ _ H2) by done.
    rewrite (retrieve_loop_exhausted _ _ _ _ _ _ _ _ _ _ _ _ H3) by done.
    mcbv. rewrite Htr3, Htr2, Htr1, Htr0. rewrite <- !app_assoc. reflexivity.
  - rewrite !sleeps_app, Hs1, Hs2, Hs3. reflexivity.
  - rewrite !app_assoc. apply last_snoc.
  - rewrite Htr3, Htr2, Htr1, Htr0. by rewrite <- !app_assoc.
Qed.

(** ** Remote cleanup *)

Lemma deletions_app (a b : list event) :
  deletions (a ++ b) = (deletions a ++ deletions b)%list.
Proof. apply filter_app. Qed.

Lemma quiet_deletions (tr : list event) :
  Forall (fun ev => ~ is_deletion ev) tr -> deletions tr = [].
Proof.
  induction 1 as [|ev tr Hev _ IH]; [reflexivity|].
  unfold deletions. rewrite filter_cons_False; [exact IH|].
  intros H. apply Hev. unfold is_deletion. by destruct (is_remote_delete ev).
Qed.

Lemma cleanup_is_deletion (cfg : config) (wd : string) :
  is_remote_delete (EvRun (ssh_argv cfg (cleanup_cmd wd))) = true.
Proof.
  unfold is_remote_delete, ssh_argv, cleanup_cmd, startswith. by rewrite prefix_app.
Qed.

Lemma deletions_cleanup (cfg : config) (wd : string) :
  deletions [EvRun (ssh_argv cfg (cleanup_cmd wd))] = [EvRun (ssh_argv cfg (cleanup_cmd wd))].
Proof.
  unfold deletions. rewrite filter_cons_True; [reflexivity|].
  by rewrite cleanup_is_deletion.
Qed.

(** Within an attempt the [rm -rf] is run at most once, and only after
    the fetch part has gone through without [keep_remote]. *)
Lemma attempt_deletes_after_fetch (cfg : config) (w : world)
    (wd tdir wav json : string) (attempt : nat) (s s' : state) (r : res unit) :
  retrieve_attempt cfg w wd tdir wav json attempt s = (r, s') ->
  exists tr, st_trace s' = (st_trace s ++ tr)%list /\
    (deletions tr = [] \/
     deletions tr = [EvRun (ssh_argv cfg (cleanup_cmd wd))] /\
     keep_remote_set cfg = false /\
     exists s1, retrieve_fetch cfg w wd tdir wav json attempt s = (Ok tt, s1)).
Proof.
  unfold retrieve_attempt, bind.
  destruct (retrieve_fetch cfg w wd tdir wav json attempt s) as [r1 s1] eqn:Hf.
  destruct (fetch_never_deletes _ _ _ _ _ _ _ _ _ _ Hf) as (tr1 & Htr1 & Hq).
  apply quiet_deletions in Hq.
  destruct r1 as [[]|e| |]; try (intros [= <- <-]; by eauto).
  unfold retrieve_cleanup. destruct (keep_remote_set cfg) eqn:Hk; cbn [negb].
  - intros [= <- <-]. eauto.
  - intros H.
    assert (Hs : s' = logged s1 [EvRun (ssh_argv cfg (cleanup_cmd wd))]).
    { revert H. unfold bind.
      destruct (subprocess_run_check _ _ s1) as [r2 s2] eqn:Hc.
      assert (s2 = logged s1 [EvRun (ssh_argv cfg (cleanup_cmd wd))]) as ->.
      { revert Hc. unfold subprocess_run_check.
        destruct (w_cleanup w attempt) as [rc out|msg|]; mcbv;
          [destruct (rc =? 0)|..]; by intros [= _ <-]. }
      destruct r2; by intros [= _ <-]. }
    subst s'. exists (tr1 ++ [EvRun (ssh_argv cfg (cleanup_cmd wd))])%list.
    cbn [logged st_trace]. rewrite Htr1, <- app_assoc. split; [done|].
    right. rewrite deletions_app, Hq, deletions_cleanup. eauto.
Qed.

Lemma loop_fails_without_deleting (cfg : config) (w : world)
    (wd tdir wav json : string) (max_retries : Z) (n : nat) :
  forall (attempt : nat) (st : state),
  (0 < n)%nat ->
  Z.of_nat (attempt + n) = max_retries ->
  fails_in_sequence (retrieve_fetch cfg w wd tdir wav json) n attempt st ->
  exists e st' tr,
    retrieve_loop cfg w wd tdir wav json max_retries n attempt st =
      (Raise (FailedAfter max_retries e), st') /\
    st_trace st' = (st_trace st ++ tr)%list /\
    deletions tr = [].
Proof.
  induction n as [|n IH]; intros attempt st Hn Hmax Hfail; [lia|].
  destruct Hfail as (e & st1 & Hf & Hrest).
  assert (Ha : retrieve_attempt cfg w wd tdir wav json attempt st = (Raise e, st1)).
  { unfold retrieve_attempt. by rewrite (bind_of _ _ _ _ _ Hf). }
  destruct (fetch_never_deletes _ _ _ _ _ _ _ _ _ _ Hf) as (tr1 & Htr1 & Hq).
  apply quiet_deletions in Hq.
  destruct n as [|n].
  - rewrite (retrieve_loop_exhausted _ _ _ _ _ _ _ _ _ _ _ _ Ha) by lia.
    eauto 10.
  - rewrite (retrieve_loop_retry _ _ _ _ _ _ _ _ _ _ _ _ Ha) by lia.
    destruct (IH (S attempt) (warned attempt e st1)) as (e' & st' & tr & Hl & Htr & Hd);
      [lia|lia|exact Hrest|].
    exists e', st', (tr1 ++ [EvLog WARNING [FStr "Attempt "; FInt (Z.of_nat attempt + 1);
                                           FStr " failed: "; FExn e]] ++ tr)%list.
    split; [exact Hl|]. split.
    + rewrite Htr. cbn [warned st_trace]. rewrite Htr1. by rewrite <- !app_assoc.
    + rewrite !deletions_app, Hq, Hd. reflexivity.
Qed.

(** C6 (amended). The remote [rm -rf] is run only inside an attempt whose
    bundle creation, download, extraction, verification and local-bundle
    removal all went through, and only when [keep_remote] is not set in
    the configuration; if every attempt fails before that point,
    [retrieve_results] returns [False] without any remote deletion. *)
Theorem remote_cleanup_only_after_fetch
    (cfg : config) (w : world) (wd dir : string) (orig : string * string)
    (max_retries initial_delay : Z) (st : state) :
  let tdir := join dir "transcripts" in
  let wav := basename orig.1 in
  let json := basename orig.2 in
  (keep_remote_set cfg = true ->
   forall r st',
     retrieve_results cfg w wd dir orig max_retries initial_delay st = (r, st') ->
     exists tr, st_trace st' = (st_trace st ++ tr)%list /\ deletions tr = []) /\
  (forall attempt s r s',
     retrieve_attempt cfg w wd tdir wav json attempt s = (r, s') ->
     exists tr, st_trace s' = (st_trace s ++ tr)%list /\
       (deletions tr = [] \/
        deletions tr = [EvRun (ssh_argv cfg (cleanup_cmd wd))] /\
        keep_remote_set cfg = false /\
        exists s1, retrieve_fetch cfg w wd tdir wav json attempt s = (Ok tt, s1))) /\
  (forall s0,
     0 < max_retries ->
     bind (makedirs tdir) (fun _ => sleep initial_delay (w_settle_sleep w)) st = (Ok tt, s0) ->
     fails_in_sequence (retrieve_fetch cfg w wd tdir wav json)
       (Z.to_nat max_retries) 0 s0 ->
     exists st' tr,
       retrieve_results cfg w wd dir orig max_retries initial_delay st =
         (Ok (Some false), st') /\
       st_trace st' = (st_trace st ++ tr)%list /\
       deletions tr = []).
Proof.
  intros tdir wav json. split; [|split].
  - intros Hk r st' H.
    destruct (retrieve_keeps_remote cfg w wd dir orig max_retries initial_delay Hk _ _ _ H)
      as (tr & Htr & Hq).
    exists tr. split; [done|]. by apply quiet_deletions.
  - intros attempt s r s'. apply attempt_deletes_after_fetch.
  - intros s0 Hmax H0 Hfail.
    destruct (makedirs_then_sleep _ _ _ _ _ H0) as (sa & Hm & Hs & Htr0).
    destruct (loop_fails_without_deleting cfg w wd tdir wav json max_retries
                (Z.to_nat max_retries) 0 s0) as (e & st' & tr & Hl & Htr & Hd);
      [lia|lia|exact Hfail|].
    unfold retrieve_results, try_except. fold tdir wav json.
    rewrite (bind_of _ _ _ _ _ Hm). cbv iota.
    rewrite (bind_of _ _ _ _ _ Hs). cbv iota.
    rewrite Hl. mcbv.
    eexists _, _. split; [reflexivity|]. cbn [st_trace].
    rewrite Htr, Htr0, <- !app_assoc. split; [reflexivity|].
    rewrite !deletions_app, Hd. reflexivity.
Qed.

(** ** Verification of the extracted files *)

Lemma prefix_weaken (a b : string) : forall f,
  String.prefix (a ++ b) f = true -> String.prefix a f = true.
Proof.
  induction a as [|c a IH]; intros f; rewrite ?sapp_cons, ?sapp_nil_l.
  - intros _. by destruct f.
  - destruct f as [|c' f]; cbn [String.prefix]; [done|].
    destruct (ascii_dec c c'); [apply IH|done].
Qed.

Lemma contains_weaken (a b f : string) :
  contains (a ++ b) f = true -> contains a f = true.
Proof.
  induction f as [|c f IH]; cbn [contains]; intros H.
  - apply orb_true_iff in H as [H|H]; [|done].
    by rewrite (prefix_weaken _ _ _ H).
  - apply orb_true_iff in H as [H|H].
    + by rewrite (prefix_weaken _ _ _ H).
    + rewrite (IH H). apply orb_true_r.
Qed.

(** Every marker of [expected_files] contains the third one. *)
Lemma marker_means_transcript (f : string) :
  existsb (fun exp => contains exp f) expected_files = true ->
  contains "transcript_" f = true.
Proof.
  unfold expected_files. cbn [existsb]. rewrite orb_false_r.
  intros H. apply orb_true_iff in H as [H|H]; [|apply orb_true_iff in H as [H|H]].
  - by apply (contains_weaken "transcript_" "detailed").
  - by apply (contains_weaken "transcript_" "conversation").
  - exact H.
Qed.

Lemma strip_prefix_app (p n : string) : strip_prefix p (p ++ n) = Some n.
Proof.
  induction p as [|c p IH]; rewrite ?sapp_cons, ?sapp_nil_l; cbn [strip_prefix].
  - by destruct n.
  - by rewrite Ascii.eqb_refl.
Qed.

Lemma child_name_remote_archive (tdir : string) :
  child_name tdir (join tdir remote_archive) = Some remote_archive.
Proof.
  unfold child_name, below. rewrite (join_flat tdir remote_archive) by reflexivity.
  by rewrite strip_prefix_app.
Qed.

Lemma found_files_elem (fs : localfs) (tdir f : string) :
  f ∈ found_files fs tdir ->
  f ∈ listdir fs tdir /\ contains "transcript_" f = true.
Proof.
  unfold found_files. rewrite list_elem_of_filter. intros [Hm Hf].
  split; [done|]. apply marker_means_transcript. by apply Is_true_true.
Qed.

(** A name with a marker survives the removal of the downloaded bundle. *)
Lemma transcript_survives_removal (fs : localfs) (tdir f : string) :
  f ∈ listdir fs tdir ->
  contains "transcript_" f = true ->
  f ∈ listdir (delete (join tdir remote_archive) fs) tdir.
Proof.
  rewrite !elem_of_listdir. intros (k & Hk & Hc) Hf.
  exists k. split; [|done].
  rewrite lookup_delete_ne; [done|].
  intros <-. rewrite child_name_remote_archive in Hc.
  injection Hc as <-. discriminate Hf.
Qed.

Lemma fetch_ok_leaves_transcript (cfg : config) (w : world)
    (wd tdir wav json : string) (attempt : nat) (s s1 : state) :
  retrieve_fetch cfg w wd tdir wav json attempt s = (Ok tt, s1) ->
  exists f, f ∈ listdir (st_fs s1) tdir /\ contains "transcript_" f = true.
Proof.
  unfold retrieve_fetch. intros H.
  do 5 (apply bind_ok_inv in H as (? & ? & _ & H)).
  apply bind_ok_inv in H as (? & sv & _ & H).
  apply bind_ok_inv in H as (fs & sv' & Hfs & H). injection Hfs as <- <-.
  apply bind_ok_inv in H as (? & sv1 & Hver & H).
  apply bind_ok_inv in H as (? & sv2 & Hlog & H).
  destruct (found_files (st_fs sv) tdir) as [|f found] eqn:Hfound;
    [discriminate Hver|].
  injection Hver as _ <-. injection Hlog as _ <-.
  destruct (found_files_elem (st_fs sv) tdir f) as [Hin Hf];
    [rewrite Hfound; by left|].
  exists f. split; [|done].
  revert H. unfold os_remove. mcbv.
  destruct (st_fs sv !! join tdir remote_archive) as [[]|];
    try destruct (isdir (st_fs sv) (join tdir remote_archive)); intros H;
    try discriminate H; injection H as <-;
    cbn [st_fs]; by apply transcript_survives_removal.
Qed.

Lemma attempt_ok_fetch (cfg : config) (w : world)
    (wd tdir wav json : string) (attempt : nat) (s s' : state) :
  retrieve_attempt cfg w wd tdir wav json attempt s = (Ok tt, s') ->
  exists s1, retrieve_fetch cfg w wd tdir wav json attempt s = (Ok tt, s1) /\
             st_fs s' = st_fs s1.
Proof.
  unfold retrieve_attempt. intros H.
  apply bind_ok_inv in H as ([] & s1 & Hf & Hc). exists s1. split; [done|].
  revert Hc. unfold retrieve_cleanup. destruct (negb (keep_remote_set cfg)).
  - intros Hc. apply bind_ok_inv in Hc as (p & s2 & Hr & Hret).
    apply run_check_ok_inv in Hr. injection Hret as <-. by subst s2.
  - by intros [= <-].
Qed.

Lemma retrieve_loop_ok_attempt (cfg : config) (w : world)
    (wd tdir wav json : string) (max_retries : Z) (n : nat) :
  forall (attempt : nat) (st st' : state),
  retrieve_loop cfg w wd tdir wav json max_retries n attempt st = (Ok (Some true), st') ->
  exists i s, retrieve_attempt cfg w wd tdir wav json i s = (Ok tt, st').
Proof.
  induction n as [|n IH]; intros attempt st st' H; [discriminate H|].
  cbn [retrieve_loop] in H.
  apply bind_ok_inv in H as (succeeded & st1 & Htry & H).
  apply try_except_ok_inv in Htry as [Hok | (e & st2 & _ & Hh)].
  - apply bind_ok_inv in Hok as ([] & st2 & Ha & Hret).
    injection Hret as <- <-. injection H as <-. eauto.
  - destruct (Z.of_nat attempt =? max_retries - 1); [discriminate Hh|].
    revert Hh. mcbv. intros [= <- <-]. by eapply IH.
Qed.

Lemma retrieve_results_ok_attempt (cfg : config) (w : world) (wd dir : string)
    (orig : string * string) (max_retries delay : Z) (st st' : state) :
  retrieve_results cfg w wd dir orig max_retries delay st = (Ok (Some true), st') ->
  exists i s,
    retrieve_attempt cfg w wd (join dir "transcripts") (basename orig.1)
      (basename orig.2) i s = (Ok tt, st').
Proof.
  intros H. unfold retrieve_results in H.
  apply try_except_ok_inv in H as [H | (e & st1 & _ & Hh)].
  - do 2 (apply bind_ok_inv in H as (? & ? & _ & H)).
    by eapply retrieve_loop_ok_attempt.
  - revert Hh. mcbv. intros [=].
Qed.

Lemma fetch_fails_verification (cfg : config) (w : world)
    (wd tdir wav json : string) (attempt : nat) (s : state)
    (ms : list (string * node)) :
  w_backoff_sleep w attempt = false ->
  step_ok (w_create w attempt) = true ->
  step_ok (w_download w attempt) = true ->
  w_bundle w attempt = Tar ms ->
  found_files (unpacked_fs tdir ms (st_fs s)) tdir = [] ->
  retrieve_fetch cfg w wd tdir wav json attempt s =
    (Raise (Failure "No transcript files found in the extracted archive"),
     unpacked_state cfg wd tdir wav json attempt ms s).
Proof.
  intros Hs Hc Hd Hb Hfound.
  unfold retrieve_fetch, unpacked_state, attempt_prefix. rewrite Hs, Hb.
  destruct (0 <? Z.of_nat attempt); mstep;
    check_ok Hc; check_ok Hd; mstep;
    (erewrite bind_of by (apply extractall_tar; cbn [st_fs]; apply lookup_insert_eq));
    cbv iota; mstep; cbn [logged st_fs st_trace];
    fold (unpacked_fs tdir ms (st_fs s)); rewrite Hfound;
    cbn [length Nat.eqb]; mstep; rewrite <- ?app_assoc; reflexivity.
Qed.

(** C1 (amended). [retrieve_results] returns [True] only if the
    [transcripts] directory then holds at least one name that contains the
    marker [transcript_] (the one test the three markers of
    [expected_files] amount to); an attempt whose listing holds no such
    name raises "No transcript files found" and, unless it was the last
    one, the loop goes on with the next attempt. *)
Theorem retrieval_succeeds_only_with_a_transcript_name
    (cfg : config) (w : world) (wd dir : string) (orig : string * string)
    (max_retries initial_delay : Z) (st : state) :
  let tdir := join dir "transcripts" in
  let wav := basename orig.1 in
  let json := basename orig.2 in
  let no_files := Failure "No transcript files found in the extracted archive" in
  (forall st',
     retrieve_results cfg w wd dir orig max_retries initial_delay st = (Ok (Some true), st') ->
     exists f, f ∈ listdir (st_fs st') tdir /\ contains "transcript_" f = true) /\
  (forall attempt s ms,
     w_backoff_sleep w attempt = false ->
     step_ok (w_create w attempt) = true ->
     step_ok (w_download w attempt) = true ->
     w_bundle w attempt = Tar ms ->
     found_files (unpacked_fs tdir ms (st_fs s)) tdir = [] ->
     retrieve_attempt cfg w wd tdir wav json attempt s =
       (Raise no_files, unpacked_state cfg wd tdir wav json attempt ms s) /\
     (forall n,
        Z.of_nat attempt <> max_retries - 1 ->
        retrieve_loop cfg w wd tdir wav json max_retries (S n) attempt s =
          retrieve_loop cfg w wd tdir wav json max_retries n (S attempt)
            (warned attempt no_files (unpacked_state cfg wd tdir wav json attempt ms s)))).
Proof.
  intros tdir wav json no_files. split.
  - intros st' H.
    apply retrieve_results_ok_attempt in H as (i & s & Ha).
    apply attempt_ok_fetch in Ha as (s1 & Hf & ->).
    by eapply fetch_ok_leaves_transcript.
  - intros attempt s ms Hs Hc Hd Hb Hfound.
    assert (Ha : retrieve_attempt cfg w wd tdir wav json attempt s =
                 (Raise no_files, unpacked_state cfg wd tdir wav json attempt ms s)).
    { unfold retrieve_attempt.
      by rewrite (bind_of _ _ _ _ _
                    (fetch_fails_verification _ _ _ _ _ _ _ _ _ Hs Hc Hd Hb Hfound)). }
    split; [exact Ha|].
    intros n Hne. by apply retrieve_loop_retry.
Qed.

(** ** The properties on the sample run *)

(** C1, as stated, fails: a bundle that holds the plain-text transcript
    alone is accepted, although two of the three categories are absent
    from the extracted names and from the directory. *)
Lemma text_only_bundle_is_accepted :
  let r := retrieve_results sample_config text_only_world "/remote/work/work_1" "in"
             ("in/meeting.wav", "in/meeting.json") 3 5 sample_state in
  r.1 = Ok (Some true) /\
  all_categories_present ["transcript_1.txt"] = false /\
  all_categories_present (listdir (st_fs r.2) "in/transcripts") = false.
Proof. vm_compute. repeat split. Qed.

Lemma retrieval_needs_transcript_witness :
  (exists f, f ∈ listdir (st_fs (retrieve_results sample_config sample_world
                 "/remote/work/work_1" "in" ("in/meeting.wav", "in/meeting.json") 3 5
                 sample_state).2) (join "in" "transcripts") /\
             contains "transcript_" f = true) /\
  found_files (unpacked_fs (join "in" "transcripts") spec_example_members sample_fs)
    (join "in" "transcripts") = [] /\
  (retrieve_attempt sample_config spec_example_world "/remote/work/work_1"
     (join "in" "transcripts") (basename "in/meeting.wav") (basename "in/meeting.json")
     0 sample_state).1 =
    Raise (Failure "No transcript files found in the extracted archive").
Proof.
  pose proof (retrieval_succeeds_only_with_a_transcript_name sample_config sample_world
                "/remote/work/work_1" "in" ("in/meeting.wav", "in/meeting.json") 3 5
                sample_state) as [H1 _].
  pose proof (retrieval_succeeds_only_with_a_transcript_name sample_config
                spec_example_world
                "/remote/work/work_1" "in" ("in/meeting.wav", "in/meeting.json") 3 5
                sample_state) as [_ H2].
  split; [|split].
  - eapply H1. vm_compute. reflexivity.
  - vm_compute. reflexivity.
  - destruct (H2 0%nat sample_state spec_example_members) as [Ha _];
      [vm_compute; reflexivity ..|].
    cbn [fst snd] in Ha. rewrite Ha. reflexivity.
Defined.

Lemma three_failed_attempts_witness :
  exists tr st',
    retrieve_results sample_config no_bundle_world "/remote/work/work_1" "in"
      ("in/meeting.wav", "in/meeting.json") 3 5 sample_state = (Ok (Some false), st') /\
    st_trace st' = tr /\
    sleeps tr = [5; 2; 4].
Proof.
  edestruct (three_failed_attempts_exhaust_retrieval sample_config no_bundle_world
               "/remote/work/work_1" "in" ("in/meeting.wav", "in/meeting.json") 5
               sample_state) as (tr & H & Hs & _); [reflexivity ..|].
  eexists tr, _. split; [exact H|]. split; [reflexivity|exact Hs].
Defined.

Lemma bundle_command_witness :
  w_backoff_sleep no_bundle_world 0 = false /\
  w_create no_bundle_world 0 = Returned 1 "" /\
  (retrieve_attempt sample_config no_bundle_world "/remote/work/work_1" "in/transcripts"
     (basename "in/meeting.wav") (basename "in/meeting.json") 0 sample_state).1 =
    Raise (CalledProcessError
             (ssh_argv sample_config
                (create_archive_cmd "/remote/work/work_1" (basename "in/meeting.wav")
                   (basename "in/meeting.json"))) 1).
Proof.
  destruct (bundle_command_text_and_size_test sample_config no_bundle_world
              "/remote/work/work_1" "in/transcripts" ("in/meeting.wav", "in/meeting.json")
              0 sample_state 1 "") as (_ & _ & _ & H).
  destruct H as [Ha _]; [reflexivity|reflexivity|lia|].
  split; [reflexivity|]. split; [reflexivity|].
  cbn [fst snd] in Ha. rewrite Ha. reflexivity.
Defined.

(** C4, as stated, fails: interrupted or broken, the poll loop hands the
    same value to its caller. *)
Lemma interrupt_and_error_return_alike :
  (monitor_process sample_config interrupted_world "wd" 5 sample_state).1 = Ok false /\
  (monitor_process sample_config broken_poll_world "wd" 5 sample_state).1 = Ok false /\
  (monitor_process sample_config interrupted_world "wd" 5 sample_state).1 =
  (monitor_process sample_config broken_poll_world "wd" 5 sample_state).1.
Proof. vm_compute. repeat split. Qed.

Lemma poll_cut_witness :
  poll_continues interrupted_world 0 /\
  poll_cut sample_config interrupted_world "wd" 1 =
    Some (poll_round sample_config "wd", Interrupted) /\
  monitor_process sample_config interrupted_world "wd" 5 sample_state =
    (Ok false,
     logged sample_state
       (poll_rounds sample_config "wd" 1 ++ poll_round sample_config "wd" ++
        [EvLog INFO [FStr "Monitoring interrupted by user"]])).
Proof.
  assert (H0 : poll_continues interrupted_world 0).
  { split; [by eexists _, _|]. split; [|reflexivity].
    eexists _, _. split; [reflexivity|lia]. }
  split; [exact H0|]. split; [reflexivity|].
  apply (poll_cut_returns_false sample_config interrupted_world "wd" 5 1 sample_state
           (poll_round sample_config "wd") Interrupted).
  - intros i Hi. replace i with 0%nat by lia. exact H0.
  - reflexivity.
  - lia.
Defined.

(** C5, as stated, fails: the bundle was created and uploaded, the remote
    unpack failed, and the bundle file is still in the input directory
    when the launch phase returns. *)
Lemma failed_unpack_leaves_bundle :
  let path := join "in" ("input_" ++ w_timestamp unpack_fails_world ++ ".tar.gz") in
  let r := execute_gpu_service sample_config unpack_fails_world "in"
             "in/meeting.wav" "in/meeting.json" sample_state in
  (create_compressed_archive ["in/meeting.wav"; "in/meeting.json"] path sample_state).1 =
    Ok (Some path) /\
  r.1 = Ok None /\
  st_fs r.2 !! path =
    Some (Tar [("meeting.wav", Bytes "RIFF"); ("meeting.json", Bytes "{}")]).
Proof. vm_compute. repeat split. Qed.

Lemma launch_bundle_witness :
  launch_fails unpack_fails_world = true /\
  (execute_gpu_service sample_config unpack_fails_world "in"
     "in/meeting.wav" "in/meeting.json" sample_state).1 = Ok None /\
  launch_succeeds sample_world = true /\
  (execute_gpu_service sample_config sample_world "in"
     "in/meeting.wav" "in/meeting.json" sample_state).1 =
    Ok (Some (work_dir_of sample_config (w_timestamp sample_world))).
Proof.
  split; [reflexivity|]. split.
  - edestruct (launch_deletes_bundle_on_success_only sample_config unpack_fails_world
                 "in" "in/meeting.wav" "in/meeting.json" sample_state) as [_ H];
      [vm_compute; reflexivity|].
    destruct H as (tr & -> & _); reflexivity.
  - split; [reflexivity|].
    edestruct (launch_deletes_bundle_on_success_only sample_config sample_world
                 "in" "in/meeting.wav" "in/meeting.json" sample_state) as [H _];
      [vm_compute; reflexivity|].
    destruct H as (tr & -> & _); reflexivity.
Defined.

(** C6, as stated, fails: every attempt ends in an exception, the
    retrieval is exhausted, and the remote [rm -rf] was run three times. *)
Lemma exhausted_retrieval_ran_cleanup :
  let r := retrieve_results sample_config cleanup_fails_world "/remote/work/work_1" "in"
             ("in/meeting.wav", "in/meeting.json") 3 5 sample_state in
  r.1 = Ok (Some false) /\
  deletions (st_trace r.2) =
    [EvRun (ssh_argv sample_config "rm -rf /remote/work/work_1");
     EvRun (ssh_argv sample_config "rm -rf /remote/work/work_1");
     EvRun (ssh_argv sample_config "rm -rf /remote/work/work_1")].
Proof. vm_compute. repeat split. Qed.

Lemma remote_cleanup_witness :
  keep_remote_set keeping_config = true /\
  deletions (st_trace (retrieve_results keeping_config sample_world "/remote/work/work_1"
                         "in" ("in/meeting.wav", "in/meeting.json") 3 5
                         sample_state).2) = [] /\
  exists st' tr,
    retrieve_results sample_config no_bundle_world "/remote/work/work_1" "in"
      ("in/meeting.wav", "in/meeting.json") 3 5 sample_state = (Ok (Some false), st') /\
    st_trace st' = (st_trace sample_state ++ tr)%list /\
    deletions tr = [].
Proof.
  split; [reflexivity|]. split.
  - destruct (remote_cleanup_only_after_fetch keeping_config sample_world
                "/remote/work/work_1" "in" ("in/meeting.wav", "in/meeting.json") 3 5
                sample_state) as [H _].
    destruct (H eq_refl _ _ (surjective_pairing _)) as (tr & -> & Hd).
    exact Hd.
  - destruct (remote_cleanup_only_after_fetch sample_config no_bundle_world
                "/remote/work/work_1" "in" ("in/meeting.wav", "in/meeting.json") 3 5
                sample_state) as (_ & _ & H).
    eapply H; [lia|reflexivity|].
    change (Z.to_nat 3) with 3%nat.
    repeat (eexists _, _; split; [reflexivity|]). exact I.
Defined.

Lemma pack_unpack_witness :
  exists st1 st2 ms,
    create_compressed_archive ["in/meeting.wav"; "deep/dir/notes.json"] "in/input.tar.gz"
      sample_state = (Ok (Some "in/input.tar.gz"), st1) /\
    st_fs st1 !! "in/input.tar.gz" = Some (Tar ms) /\
    map fst ms = map basename ["in/meeting.wav"; "deep/dir/notes.json"] /\
    Forall (fun m => has_slash m.1 = false) ms /\
    extractall "in/input.tar.gz" "deep" st1 = (Ok tt, st2) /\
    map basename (extracted_paths "deep" ms) =
      map basename ["in/meeting.wav"; "deep/dir/notes.json"] /\
    (forall p, p ∈ ["in/meeting.wav"; "deep/dir/notes.json"] ->
               st_fs st2 !! join "deep" (basename p) = sample_fs !! p) /\
    (forall k, st_fs st2 !! k <> st_fs st1 !! k -> k ∈ extracted_paths "deep" ms).
Proof.
  apply (pack_unpack_base_names sample_fs [] ["in/meeting.wav"; "deep/dir/notes.json"]
           "in/input.tar.gz" "deep").
  - repeat constructor; eexists; (split; [reflexivity|discriminate]).
  - intros H. repeat (apply elem_of_cons in H as [H|H]; [discriminate H|]).
    by apply elem_of_nil in H.
  - vm_compute. reflexivity.
  - vm_compute. reflexivity.
  - assert (map (join "deep") (map basename ["in/meeting.wav"; "deep/dir/notes.json"]) =
            ["deep/meeting.wav"; "deep/notes.json"]) as -> by (vm_compute; reflexivity).
    intros H. repeat (apply elem_of_cons in H as [H|H]; [discriminate H|]).
    by apply elem_of_nil in H.
  - assert (map basename ["in/meeting.wav"; "deep/dir/notes.json"] =
            ["meeting.wav"; "notes.json"]) as -> by (vm_compute; reflexivity).
    apply NoDup_cons. split; [|apply NoDup_singleton].
    intros H. apply elem_of_cons in H as [H|H]; [discriminate H|].
    by apply elem_of_nil in H.
Defined.

Lemma marker_present_witness :
  w_tail marker_world 0 = Returned 0 "working" /\
  w_test marker_world 0 = Returned 0 "" /\
  exists tr,
    monitor_process sample_config marker_world "wd" 1 sample_state =
      (Ok true, logged sample_state tr) /\
    sleeps tr = [].
Proof.
  split; [reflexivity|]. split; [reflexivity|].
  destruct (marker_present_completes_without_sleep sample_config marker_world "wd" 0
              sample_state 0 "working" "" eq_refl eq_refl) as (tr & H & _ & Hs & _).
  exists tr. split; [exact H|exact Hs].
Defined.

Lemma no_unique_pair_witness :
  glob_literal "in" = true /\
  length (glob_ext two_wav_fs "in" ".wav") = 2%nat /\
  (find_audio_pair sample_world "in" {| st_fs := two_wav_fs; st_trace := [] |}).1 =
    Ok (None, None) /\
  (main sample_args sample_world 10 {| st_fs := two_wav_fs; st_trace := [] |}).1 =
    Ok NoValidPair.
Proof.
  split; [reflexivity|].
  destruct (no_unique_pair_aborts_before_launch sample_args sample_world 10
              {| st_fs := two_wav_fs; st_trace := [] |})
    as [[msg Hf] (v & st' & tr & Hm & _ & _ & Hv)];
    [reflexivity|left; vm_compute; lia|].
  change (arg_input sample_args) with "in" in Hf.
  split; [vm_compute; reflexivity|]. split; [by rewrite Hf|].
  rewrite Hm. destruct (Hv sample_config "Connection test") as [-> _];
    [vm_compute; reflexivity ..|]. reflexivity.
Defined.

(* ================================================================= *)
(** * Further properties of the controller *)

(** ** Start-up: configuration and connection check *)

(** X1. When the input path is a directory and the configuration file is
    missing or lacks a required key, [main] ends on the "Error" line with
    [FileNotFoundError] (file missing) or [ValueError] (key missing): it
    runs no command and leaves the local files as they were. *)
Theorem unusable_config_ends_run_without_commands
    (a : args) (w : world) (fuel : nat) (st : state) :
  isdir (st_fs st) (arg_input a) = true ->
  config_unusable w ->
  main a w fuel st =
    (Ok (UnexpectedError (config_error (arg_config a) w)),
     logged st [EvLog ERROR [FStr "Unexpected error: ";
                             FExn (config_error (arg_config a) w)]]) /\
  runs [EvLog ERROR [FStr "Unexpected error: ";
                     FExn (config_error (arg_config a) w)]] = [].
Proof.
  intros Hd Hc. split; [|reflexivity].
  unfold main, try_except2. unfold bind at 1. cbn [get_fs]. rewrite Hd. cbn [negb].
  assert (Hn : new_controller (arg_config a) w st =
               (Raise (config_error (arg_config a) w), st)).
  { unfold new_controller, _load_config, config_error.
    destruct Hc as [-> | (raw & -> & Hraw)]; [reflexivity|].
    destruct (raw_host raw), (raw_port raw), (raw_remote_path raw);
      try reflexivity.
    by destruct Hraw as [?|[?|?]]. }
  rewrite (bind_of _ _ _ _ _ Hn). reflexivity.
Qed.

(** X2. When the configuration loads, logging is set up and the
    connection check does not exit with status 0 (it exits with another
    status, or [ssh] cannot be started), [main] ends on "Failed to
    connect": the check is the only command of the run, and the local
    changes are those of the logging set-up, the [logs] directory and the
    log file [logs/gpu_controller.log] in it (made if they were not there,
    the records of the run being appended to the file). *)
Theorem failed_connection_check_ends_run
    (a : args) (w : world) (fuel : nat) (st st1 : state) (cfg : config) :
  isdir (st_fs st) (arg_input a) = true ->
  new_controller (arg_config a) w st = (Ok cfg, st1) ->
  step_failed (w_connect w) = true ->
  exists tr,
    main a w fuel st =
      (Ok ConnectionFailed,
       {| st_fs := with_logs (st_fs st); st_trace := st_trace st ++ tr |}) /\
    runs tr = [ssh_argv cfg connect_cmd].
Proof.
  intros Hd Hn Hc.
  pose proof (new_controller_ok_state _ _ _ _ _ Hn) as Hst1. subst st1.
  unfold main, try_except2. unfold bind at 1. cbn [get_fs]. rewrite Hd. cbn [negb].
  rewrite (bind_of _ _ _ _ _ Hn).
  unfold verify_connection. fold connect_cmd.
  destruct (w_connect w) as [rc out|msg|]; cbn [step_failed] in Hc; [| |done].
  - apply negb_true_iff in Hc. mcbv. rewrite Hc. cbn [negb].
    eexists [_]. split; reflexivity.
  - mcbv. eexists [_; _]. rewrite <- app_assoc. split; reflexivity.
Qed.

(** ** Input discovery, continued *)

Lemma glob_ext_elem (fs : localfs) (d ext p : string) :
  p ∈ glob_ext fs d ext ->
  exists n, p = join d n /\ n ∈ listdir fs d /\
            endswith n ext = true /\ startswith n "." = false.
Proof.
  unfold glob_ext. intros H. apply list_elem_of_fmap in H as (n & -> & Hn).
  apply list_elem_of_filter in Hn as [Hm Hn].
  exists n. split; [done|]. split; [done|].
  unfold glob_match_ext in Hm. apply Is_true_true, andb_true_iff in Hm as [Hh He].
  split; [done|]. by apply negb_true_iff.
Qed.

Lemma endswith_nonempty (n suf : string) :
  endswith n suf = true -> suf <> "" -> n <> "".
Proof.
  intros H Hs ->. cbn [endswith] in H. rewrite orb_false_r in H.
  apply String.eqb_eq in H. by subst suf.
Qed.

Lemma sapp_nonempty_r (a b : string) : b <> "" -> a ++ b <> "".
Proof. destruct a as [|c a]; rewrite ?sapp_cons, ?sapp_nil_l; [done|discriminate]. Qed.

Lemma join_nonempty (d n : string) : n <> "" -> join d n <> "".
Proof.
  intros Hn. unfold join.
  destruct (startswith n "/"); [done|].
  destruct (String.eqb d "" || endswith d "/").
  - by apply sapp_nonempty_r.
  - apply sapp_nonempty_r. by apply sapp_nonempty_r.
Qed.

(** X3. For an input directory whose name holds none of the characters
    [*], [?] and [[] (and does not end in a doubled slash): with exactly
    one [*.wav] and exactly one [*.json] file in the directory,
    [find_audio_pair] returns the two paths, logs nothing and changes
    nothing; each path is [input_dir] joined with a name of the directory
    listing that ends in the extension and does not begin with a dot, and
    neither path is empty, so that [main] goes on to the launch. *)
Theorem find_audio_pair_returns_the_unique_pair
    (w : world) (input_dir : string) (st : state) :
  glob_literal input_dir = true ->
  length (glob_ext (st_fs st) input_dir ".wav") = 1%nat ->
  length (glob_ext (st_fs st) input_dir ".json") = 1%nat ->
  exists wn jn,
    find_audio_pair w input_dir st =
      (Ok (Some (join input_dir wn), Some (join input_dir jn)), st) /\
    wn ∈ listdir (st_fs st) input_dir /\ endswith wn ".wav" = true /\
    startswith wn "." = false /\
    jn ∈ listdir (st_fs st) input_dir /\ endswith jn ".json" = true /\
    startswith jn "." = false /\
    negb (str_truthy (Some (join input_dir wn))) ||
      negb (str_truthy (Some (join input_dir jn))) = false.
Proof.
  intros Hlit Hw Hj.
  destruct (glob_ext (st_fs st) input_dir ".wav") as [|wav [|]] eqn:Ew; try done.
  destruct (glob_ext (st_fs st) input_dir ".json") as [|json [|]] eqn:Ej; try done.
  destruct (glob_ext_elem (st_fs st) input_dir ".wav" wav) as (wn & -> & Hwl & Hwe & Hwh);
    [rewrite Ew; by left|].
  destruct (glob_ext_elem (st_fs st) input_dir ".json" json) as (jn & -> & Hjl & Hje & Hjh);
    [rewrite Ej; by left|].
  exists wn, jn. split; [|repeat (split; [done|])].
  - unfold find_audio_pair. mcbv. rewrite !glob_paths_literal by done.
    rewrite Ew, Ej. cbn. by destruct st.
  - assert (Hwn : join input_dir wn <> "")
      by (apply join_nonempty; by eapply endswith_nonempty).
    assert (Hjn : join input_dir jn <> "")
      by (apply join_nonempty; by eapply endswith_nonempty).
    cbn [str_truthy]. apply String.eqb_neq in Hwn, Hjn. by rewrite Hwn, Hjn.
Qed.

(** ** The input bundle and the launch, continued *)

Lemma not_run_sleep (secs : Z) : ~ is_run (EvSleep secs).
Proof. by intros [argv [=]]. Qed.

Lemma not_run_log (lvl : level) (msg : list frag) : ~ is_run (EvLog lvl msg).
Proof. by intros [argv [=]]. Qed.

#[export] Hint Resolve not_run_sleep not_run_log : quiet.

Lemma quiet_runs (tr : list event) :
  Forall (fun ev => ~ is_run ev) tr -> runs tr = [].
Proof.
  induction 1 as [|ev tr Hev _ IH]; [reflexivity|].
  destruct ev; cbn; try exact IH. exfalso. apply Hev. by eexists.
Qed.

Lemma quiet_tar_open_w (P : event -> Prop) (archive : string) :
  quiet P (tar_open_w archive).
Proof.
  unfold tar_open_w. apply quiet_bind; [apply quiet_get_fs|]. intros fs.
  repeat (apply quiet_if; [first [apply quiet_put_fs | apply quiet_raise]|]).
  destruct (fs !! dirname archive) as [[]|]; apply quiet_raise.
Qed.

Lemma quiet_tar_add (P : event -> Prop) (archive path arcname : string) :
  quiet P (tar_add archive path arcname).
Proof.
  unfold tar_add. apply quiet_bind; [apply quiet_get_fs|]. intros fs.
  destruct (tar_members fs path arcname); [|apply quiet_raise].
  destruct (fs !! archive) as [[]|]; apply quiet_put_fs.
Qed.

Lemma quiet_add_files (P : event -> Prop) (archive : string) (files : list string) :
  quiet P (add_files archive files).
Proof.
  induction files as [|p files IH]; cbn [add_files]; [apply quiet_ret|].
  apply quiet_bind; [apply quiet_tar_add|]. intros _. exact IH.
Qed.

(** Packing runs no command. *)
Lemma create_archive_runs_nothing (files : list string) (archive : string) :
  quiet is_run (create_compressed_archive files archive).
Proof.
  unfold create_compressed_archive. apply quiet_try_except.
  - apply quiet_bind; [apply quiet_tar_open_w|]. intros _.
    apply quiet_bind; [apply quiet_add_files|]. intros _. apply quiet_ret.
  - intros e. repeat quiet_step.
Qed.





(** X5. When the input bundle cannot be created, [execute_gpu_service]
    returns [None] after logging "Failed to create archive": from its
    start to its end it runs no command, local or remote. *)
Theorem launch_without_bundle_runs_nothing
    (cfg : config) (w : world) (input_dir wav_file json_file : string)
    (st st1 : state) :
  create_compressed_archive [wav_file; json_file]
      (join input_dir ("input_" ++ w_timestamp w ++ ".tar.gz")) st = (Ok None, st1) ->
  exists tr,
    execute_gpu_service cfg w input_dir wav_file json_file st =
      (Ok None, {| st_fs := st_fs st1; st_trace := st_trace st ++ tr |}) /\
    runs tr = [] /\
    last tr = Some (EvLog ERROR [FStr "Error in execute_gpu_service: ";
                                 FExn (Failure "Failed to create archive")]).
Proof.
  intros Hc.
  destruct (create_archive_runs_nothing _ _ _ _ _ Hc) as (tr1 & Htr1 & Hq).
  exists (tr1 ++ [EvLog ERROR [FStr "Error in execute_gpu_service: ";
                               FExn (Failure "Failed to create archive")]])%list.
  split; [|split].
  - unfold execute_gpu_service, try_except.
    rewrite (bind_of _ _ _ _ _ Hc). cbn [str_truthy negb]. mcbv.
    by rewrite Htr1, <- app_assoc.
  - rewrite runs_app, (quiet_runs _ Hq). reflexivity.
  - apply last_snoc.
Qed.

(** The bundle of two regular files at a free path. *)
Lemma bundle_of_regular_pair (wav_file json_file archive : string)
    (fs : localfs) (tr : list event) :
  is_regular fs wav_file ->
  is_regular fs json_file ->
  fs !! archive = None ->
  can_create fs archive = true ->
  create_compressed_archive [wav_file; json_file] archive
      {| st_fs := fs; st_trace := tr |} =
    (Ok (Some archive),
     {| st_fs := <[archive := Tar (members_of fs [wav_file; json_file])]> fs;
        st_trace := tr |}).
Proof.
  intros Hw Hj Hfree Hcan. apply create_archive_regular.
  - by repeat constructor.
  - intros Hin. destruct Hw as (n & Hn & _), Hj as (m & Hm & _).
    apply elem_of_cons in Hin as [->|Hin]; [congruence|].
    apply elem_of_cons in Hin as [->|Hin]; [congruence|].
    by apply elem_of_nil in Hin.
  - exact Hcan.
Qed.

(** The remote steps of the launch, once the bundle is there. *)
Lemma launch_steps_go_through
    (cfg : config) (w : world) (input_dir wav_file json_file : string)
    (st st1 : state) (ms : list (string * node)) :
  let archive_name := "input_" ++ w_timestamp w ++ ".tar.gz" in
  let archive_path := join input_dir archive_name in
  let work_dir := work_dir_of cfg (w_timestamp w) in
  create_compressed_archive [wav_file; json_file] archive_path st =
    (Ok (Some archive_path), st1) ->
  st_fs st1 !! archive_path = Some (Tar ms) ->
  launch_succeeds w = true ->
  execute_gpu_service cfg w input_dir wav_file json_file st =
    (Ok (Some work_dir),
     {| st_fs := delete archive_path (st_fs st1);
        st_trace := st_trace st1 ++
          [EvRun (ssh_argv cfg ("mkdir -p " ++ work_dir ++ " && cd " ++ work_dir));
           EvRun ["rsync"; "-avz"; "--progress"; "-e"; "ssh -p " ++ port cfg;
                  archive_path; host cfg ++ ":" ++ work_dir ++ "/"];
           EvRun (ssh_argv cfg ("cd " ++ work_dir ++ " && tar xzf " ++ archive_name));
           EvRun (ssh_argv cfg (execute_cmd work_dir wav_file json_file))] |}).
Proof.
  intros archive_name archive_path work_dir Hcreate Hms H.
  unfold launch_succeeds in H.
  apply andb_true_iff in H as [H H4]. apply andb_true_iff in H as [H H3].
  apply andb_true_iff in H as [H1 H2].
  unfold execute_gpu_service, try_except.
  fold archive_name. fold archive_path. fold work_dir.
  rewrite (bind_of _ _ _ _ _ Hcreate).
  unfold archive_path at 1, archive_name at 1. rewrite join_bundle_truthy.
  cbn [negb]. mstep.
  check_ok H1. check_ok H2. check_ok H3. check_ok H4.
  erewrite bind_of.
  2:{ apply os_remove_regular with (n := Tar ms); [|done].
      unfold logged. cbn [st_fs]. exact Hms. }
  mstep. unfold logged. cbn [st_fs st_trace str_join].
  rewrite <- !app_assoc. reflexivity.
Qed.

(** X6. With both inputs regular files, nothing yet at the bundle path
    [<input_dir>/input_<timestamp>.tar.gz], which lies in a directory that
    exists, and the four remote steps going through,
    [execute_gpu_service] returns the work directory
    [<remote_path>/work_<timestamp>] after exactly four commands, in this
    order: [mkdir -p] of the work directory over ssh, rsync of the bundle
    into it, [tar xzf] of the bundle over ssh, and the start of the
    service over ssh; it logs nothing, and the bundle being removed at
    the end, the local files end as they began. *)
Theorem successful_launch_runs_four_commands
    (cfg : config) (w : world) (input_dir wav_file json_file : string)
    (fs : localfs) (tr : list event) :
  let archive_name := "input_" ++ w_timestamp w ++ ".tar.gz" in
  let archive_path := join input_dir archive_name in
  let work_dir := work_dir_of cfg (w_timestamp w) in
  is_regular fs wav_file ->
  is_regular fs json_file ->
  fs !! archive_path = None ->
  can_create fs archive_path = true ->
  launch_succeeds w = true ->
  execute_gpu_service cfg w input_dir wav_file json_file
      {| st_fs := fs; st_trace := tr |} =
    (Ok (Some work_dir),
     {| st_fs := fs;
        st_trace := tr ++
          [EvRun (ssh_argv cfg ("mkdir -p " ++ work_dir ++ " && cd " ++ work_dir));
           EvRun ["rsync"; "-avz"; "--progress"; "-e"; "ssh -p " ++ port cfg;
                  archive_path; host cfg ++ ":" ++ work_dir ++ "/"];
           EvRun (ssh_argv cfg ("cd " ++ work_dir ++ " && tar xzf " ++ archive_name));
           EvRun (ssh_argv cfg (execute_cmd work_dir wav_file json_file))] |}).
Proof.
  intros archive_name archive_path work_dir Hw Hj Hfree Hcan H.
  pose proof (bundle_of_regular_pair wav_file json_file archive_path fs tr
                Hw Hj Hfree Hcan) as Hcreate.
  pose proof (launch_steps_go_through cfg w input_dir wav_file json_file _ _ _
                Hcreate (lookup_insert_eq _ _ _) H) as Hrun.
  cbv zeta in Hrun. fold archive_name archive_path work_dir in Hrun.
  rewrite Hrun. cbn [st_fs st_trace].
  by rewrite delete_insert_id.
Qed.

(** ** The poll loop, continued *)

Lemma sleeps_poll_rounds (cfg : config) (wd : string) (k : nat) :
  sleeps (poll_rounds cfg wd k) = replicate k 5.
Proof.
  induction k as [|k IH]; [reflexivity|].
  cbn [poll_rounds replicate]. rewrite sleeps_app, IH. reflexivity.
Qed.

Lemma runs_poll_rounds (cfg : config) (wd : string) (k : nat) :
  length (runs (poll_rounds cfg wd k)) = (2 * k)%nat.
Proof.
  induction k as [|k IH]; [reflexivity|].
  cbn [poll_rounds]. rewrite runs_app, length_app, IH. cbn. lia.
Qed.



(** The poll loop that finds the marker in round [k]. *)
Lemma monitor_loop_finds_marker
    (cfg : config) (w : world) (wd : string) (fuel k : nat) (st : state)
    (rc : Z) (out out' : string) :
  (forall i, (i < k)%nat -> poll_continues w i) ->
  w_tail w k = Returned rc out ->
  w_test w k = Returned 0 out' ->
  (k < fuel)%nat ->
  monitor_loop cfg w wd fuel 0 st =
    (Ok true,
     logged st (poll_rounds cfg wd k ++
                [EvRun (ssh_argv cfg ("tail -n 1 " ++ wd ++ "/process.log"));
                 EvRun (ssh_argv cfg ("test -f " ++ wd ++ "/COMPLETED"));
                 EvLog INFO [FStr "Processing completed successfully"]])).
Proof.
  intros Hk Ht Hte Hfuel.
  replace fuel with (k + S (fuel - S k))%nat by lia.
  rewrite monitor_loop_rounds by (intros j Hj; by apply Hk).
  cbn [Nat.add monitor_loop]. rewrite Ht, Hte. mcbv.
  change (0 =? 0) with true. cbv iota beta.
  unfold logged. cbn [st_fs st_trace]. by rewrite <- !app_assoc.
Qed.

(** X7. When the marker is absent for the first [k] rounds and found in
    round [k], [monitor_process] returns [True] after those [k] full
    rounds and one more log read and marker test: it has slept [k] times,
    five seconds each, and logs "Processing completed successfully" last. *)
Theorem marker_found_after_k_rounds
    (cfg : config) (w : world) (wd : string) (fuel k : nat) (st : state)
    (rc : Z) (out out' : string) :
  (forall i, (i < k)%nat -> poll_continues w i) ->
  w_tail w k = Returned rc out ->
  w_test w k = Returned 0 out' ->
  (k < fuel)%nat ->
  exists tr,
    monitor_process cfg w wd fuel st = (Ok true, logged st tr) /\
    tr = (poll_rounds cfg wd k ++
          [EvRun (ssh_argv cfg ("tail -n 1 " ++ wd ++ "/process.log"));
           EvRun (ssh_argv cfg ("test -f " ++ wd ++ "/COMPLETED"));
           EvLog INFO [FStr "Processing completed successfully"]])%list /\
    sleeps tr = replicate k 5 /\
    length (runs tr) = (2 * k + 2)%nat.
Proof.
  intros Hk Ht Hte Hfuel. eexists. split; [|split; [reflexivity|split]].
  - unfold monitor_process, try_except2.
    by rewrite (monitor_loop_finds_marker cfg w wd fuel k st rc out out').
  - rewrite sleeps_app, sleeps_poll_rounds. cbn. by rewrite app_nil_r.
  - rewrite runs_app, length_app, runs_poll_rounds. cbn. lia.
Qed.

(** X8. The poll loop has no timeout: as long as the marker is absent and
    nothing fails or interrupts, the poller is still polling after any
    number [n] of rounds, having run [2 * n] commands and slept [n] times
    five seconds. *)
Theorem polling_has_no_timeout
    (cfg : config) (w : world) (wd : string) (n : nat) (st : state) :
  (forall i, (i < n)%nat -> poll_continues w i) ->
  monitor_process cfg w wd n st = (OutOfFuel, logged st (poll_rounds cfg wd n)) /\
  sleeps (poll_rounds cfg wd n) = replicate n 5 /\
  length (runs (poll_rounds cfg wd n)) = (2 * n)%nat.
Proof.
  intros Hn. split; [|split; [apply sleeps_poll_rounds|apply runs_poll_rounds]].
  unfold monitor_process, try_except2.
  replace n with (n + 0)%nat at 1 by lia.
  rewrite monitor_loop_rounds by (intros j Hj; by apply Hn).
  reflexivity.
Qed.


(** ** Retrieval, continued *)

Lemma sleep_undisturbed (d : Z) (st : state) :
  0 <= d -> sleep d false st = (Ok tt, logged st [EvSleep d]).
Proof. intros H. apply Z.ltb_ge in H. unfold sleep. by rewrite H. Qed.




(** X11. When the path [<local_dir>/transcripts] is taken by a regular
    file (in a directory, not below a file), [retrieve_results] returns
    [False] at once, whatever [max_retries] and [initial_delay] are: it
    does not sleep and runs no command; it makes, removes and rewrites no
    local file or directory, and its one record, the [FileExistsError],
    goes to the log. *)
Theorem transcripts_path_taken_by_a_file
    (cfg : config) (w : world) (wd dir : string) (orig : string * string)
    (max_retries initial_delay : Z) (st : state) (n : node) :
  st_fs st !! join dir "transcripts" = Some n ->
  n <> Dir ->
  existsb (is_file (st_fs st)) (ancestors (join dir "transcripts")) = false ->
  retrieve_results cfg w wd dir orig max_retries initial_delay st =
    (Ok (Some false),
     logged st [EvLog ERROR [FStr "Error retrieving results: ";
                             FExn (FileExistsError (join dir "transcripts"))]]).
Proof.
  intros Hn Hd Hup. unfold retrieve_results, try_except.
  assert (Hm : makedirs (join dir "transcripts") st =
               (Raise (FileExistsError (join dir "transcripts")), st)).
  { unfold makedirs. mcbv. rewrite Hup, Hn. by destruct n. }
  rewrite (bind_of _ _ _ _ _ Hm). reflexivity.
Qed.




Lemma backoff_positive (l : list nat) :
  Forall (fun i => (0 < i)%nat) l ->
  flat_map backoff l = map (fun i => Z.of_nat i * 2) l.
Proof.
  induction 1 as [|i l Hi _ IH]; [reflexivity|].
  cbn [flat_map map]. rewrite IH. unfold backoff.
  assert ((0 <? Z.of_nat i) = true) as -> by (apply Z.ltb_lt; lia). reflexivity.
Qed.

Lemma backoff_from_zero (n : nat) :
  flat_map backoff (seq 0 (S n)) = map (fun i => Z.of_nat i * 2) (seq 1 n).
Proof.
  cbn [seq flat_map]. change (backoff 0) with (@nil Z). rewrite app_nil_l.
  apply backoff_positive. apply Forall_forall. intros i Hi.
  apply elem_of_seq in Hi. lia.
Qed.

(** Every attempt of the loop failing, the loop sleeps the back-off of
    each attempt and raises after the last one, wrapping its exception. *)
Lemma loop_exhausted_sleeps (cfg : config) (w : world)
    (wd tdir wav json : string) (max_retries : Z) (n : nat) :
  forall (attempt : nat) (st : state) (e : exn) (st' : state),
  Z.of_nat (attempt + n) = max_retries ->
  fails_with (retrieve_attempt cfg w wd tdir wav json) n attempt st e st' ->
  retrieve_loop cfg w wd tdir wav json max_retries n attempt st =
    (Raise (FailedAfter max_retries e), st') /\
  exists tr,
    st_trace st' = (st_trace st ++ tr)%list /\
    sleeps tr = flat_map backoff (seq attempt n).
Proof.
  induction n as [|n IH]; intros attempt st e st' Hmax Hfail; [done|].
  cbn [fails_with] in Hfail. destruct n as [|n].
  - destruct (attempt_sleeps _ _ _ _ _ _ _ _ _ _ Hfail) as (tr1 & Htr1 & Hs1).
    rewrite (retrieve_loop_exhausted _ _ _ _ _ _ _ _ _ _ _ _ Hfail) by lia.
    split; [done|]. exists tr1. split; [done|].
    cbn [seq flat_map]. by rewrite app_nil_r.
  - destruct Hfail as (e1 & st1 & Ha & Hrest).
    destruct (attempt_sleeps _ _ _ _ _ _ _ _ _ _ Ha) as (tr1 & Htr1 & Hs1).
    rewrite (retrieve_loop_retry _ _ _ _ _ _ _ _ _ _ _ _ Ha) by lia.
    destruct (IH (S attempt) (warned attempt e1 st1) e st')
      as (Hl & tr & Htr & Hs); [lia|exact Hrest|].
    split; [exact Hl|].
    exists (tr1 ++ [EvLog WARNING [FStr "Attempt "; FInt (Z.of_nat attempt + 1);
                                   FStr " failed: "; FExn e1]] ++ tr)%list.
    split.
    + rewrite Htr. cbn [warned st_trace]. rewrite Htr1. by rewrite <- !app_assoc.
    + rewrite !sleeps_app, Hs1, Hs. reflexivity.
Qed.

(** X13. For every positive [max_retries], when all the attempts fail, the
    last one with the exception [e], leaving the state [s1],
    [retrieve_results] returns [False] after exactly that many attempts;
    it has slept [initial_delay] and then [2 * i] seconds before attempt
    number [i] (counted from zero), for [i] from 1 to [max_retries - 1];
    and it ends in the state of the last attempt with one more record,
    the error that wraps [e], the exception of the last attempt. *)
Theorem failed_retrieval_backs_off_linearly
    (cfg : config) (w : world) (wd dir : string) (orig : string * string)
    (max_retries initial_delay : Z) (st s0 s1 : state) (e : exn) :
  let tdir := join dir "transcripts" in
  let attempt := retrieve_attempt cfg w wd tdir (basename orig.1) (basename orig.2) in
  0 < max_retries ->
  bind (makedirs tdir) (fun _ => sleep initial_delay (w_settle_sleep w)) st = (Ok tt, s0) ->
  fails_with attempt (Z.to_nat max_retries) 0 s0 e s1 ->
  exists tr,
    retrieve_results cfg w wd dir orig max_retries initial_delay st =
      (Ok (Some false),
       logged s1 [EvLog ERROR [FStr "Error retrieving results: ";
                               FExn (FailedAfter max_retries e)]]) /\
    st_trace s1 = (st_trace st ++ tr)%list /\
    sleeps tr =
      initial_delay ::
      map (fun i => Z.of_nat i * 2) (seq 1 (Z.to_nat max_retries - 1)).
Proof.
  intros tdir attempt Hmax H0 Hfail.
  destruct (makedirs_then_sleep _ _ _ _ _ H0) as (sa & Hm & Hs & Htr0).
  destruct (loop_exhausted_sleeps cfg w wd tdir (basename orig.1) (basename orig.2)
              max_retries (Z.to_nat max_retries) 0 s0 e s1)
    as (Hl & tr & Htr & Hsl); [lia|exact Hfail|].
  eexists. split; [|split].
  - unfold retrieve_results, try_except. fold tdir.
    rewrite (bind_of _ _ _ _ _ Hm). cbv iota.
    rewrite (bind_of _ _ _ _ _ Hs). cbv iota.
    rewrite Hl. mcbv. reflexivity.
  - rewrite Htr, Htr0, <- !app_assoc. reflexivity.
  - rewrite !sleeps_app, Hsl.
    destruct (Z.to_nat max_retries) as [|n] eqn:Hn; [lia|].
    rewrite backoff_from_zero. replace (S n - 1)%nat with n by lia.
    reflexivity.
Qed.

Lemma first_component_flat (f : string) : has_slash f = false -> first_component f = f.
Proof.
  induction f as [|c f IH]; cbn [has_slash first_component]; [done|].
  intros H. apply orb_false_iff in H as [Hc Hf]. by rewrite Hc, IH.
Qed.

Lemma contains_nonempty (sub f : string) :
  sub <> "" -> contains sub f = true -> f <> "".
Proof.
  intros Hs H ->. cbn [contains] in H. rewrite orb_false_r in H.
  by destruct sub.
Qed.

Lemma child_name_flat (d f : string) :
  has_slash f = false -> f <> "" -> child_name d (join d f) = Some f.
Proof.
  intros Hf Hne. unfold child_name, below. rewrite (join_flat d f Hf).
  rewrite strip_prefix_app. apply String.eqb_neq in Hne. rewrite Hne.
  by rewrite (first_component_flat f Hf), Hne.
Qed.

(** A flat name with the marker whose path exists is among the files the
    verification finds. *)
Lemma found_files_of_key (fs : localfs) (tdir f : string) :
  has_slash f = false ->
  contains "transcript_" f = true ->
  is_Some (fs !! join tdir f) ->
  f ∈ found_files fs tdir.
Proof.
  intros Hf Hc Hk. unfold found_files. apply list_elem_of_filter. split.
  - unfold expected_files. cbn [existsb]. rewrite Hc.
    rewrite !orb_true_r. exact I.
  - apply elem_of_listdir. exists (join tdir f). split; [done|].
    apply child_name_flat; [done|].
    by apply (contains_nonempty "transcript_").
Qed.


(** An attempt whose fetch part goes through. *)
Lemma fetch_succeeds (cfg : config) (w : world)
    (wd tdir wav json : string) (attempt : nat) (s : state)
    (ms : list (string * node)) (n : node) :
  attempt = 0%nat \/ w_backoff_sleep w attempt = false ->
  step_ok (w_create w attempt) = true ->
  step_ok (w_download w attempt) = true ->
  w_bundle w attempt = Tar ms ->
  found_files (unpacked_fs tdir ms (st_fs s)) tdir <> [] ->
  unpacked_fs tdir ms (st_fs s) !! join tdir remote_archive = Some n ->
  n <> Dir ->
  retrieve_fetch cfg w wd tdir wav json attempt s =
    (Ok tt,
     {| st_fs := delete (join tdir remote_archive) (unpacked_fs tdir ms (st_fs s));
        st_trace :=
          st_trace (unpacked_state cfg wd tdir wav json attempt ms s) ++
          [EvLog INFO [FStr ("Successfully extracted files: " ++
             str_join ", " (found_files (unpacked_fs tdir ms (st_fs s)) tdir))]] |}).
Proof.
  intros Hs Hc Hd Hb Hfound Hla Hn.
  assert (Hlen : Nat.eqb (length (found_files (unpacked_fs tdir ms (st_fs s)) tdir)) 0
                 = false).
  { destruct (found_files (unpacked_fs tdir ms (st_fs s)) tdir); [done|reflexivity]. }
  unfold retrieve_fetch, unpacked_state, attempt_prefix. rewrite Hb.
  assert (Hsl : (if 0 <? Z.of_nat attempt
                 then sleep (Z.of_nat attempt * 2) (w_backoff_sleep w attempt)
                 else ret tt) =
                (if 0 <? Z.of_nat attempt
                 then sleep (Z.of_nat attempt * 2) false
                 else ret tt)).
  { destruct Hs as [-> | ->]; reflexivity. }
  rewrite Hsl. clear Hsl.
  destruct (0 <? Z.of_nat attempt); mstep;
    check_ok Hc; check_ok Hd; mstep;
    (erewrite bind_of by (apply extractall_tar; cbn [st_fs]; apply lookup_insert_eq));
    cbv iota; mstep; cbn [logged st_fs st_trace];
    fold (unpacked_fs tdir ms (st_fs s)); rewrite Hlen; mstep;
    rewrite (os_remove_regular _ _ n) by (first [exact Hn | cbn [st_fs]; exact Hla]);
    cbn [st_fs st_trace]; rewrite <- ?app_assoc; reflexivity.
Qed.

(** The remote cleanup of an attempt, when it goes through or is skipped. *)
Lemma cleanup_succeeds (cfg : config) (w : world) (wd : string) (attempt : nat)
    (s : state) :
  keep_remote_set cfg = true \/ step_ok (w_cleanup w attempt) = true ->
  retrieve_cleanup cfg w wd attempt s =
    (Ok tt, logged s (if keep_remote_set cfg then []
                      else [EvRun (ssh_argv cfg (cleanup_cmd wd))])).
Proof.
  intros H. unfold retrieve_cleanup.
  destruct (keep_remote_set cfg); cbn [negb].
  - by rewrite logged_nil.
  - destruct H as [H|H]; [done|]. check_ok H. reflexivity.
Qed.

Lemma member_path_extracted (tdir : string) (ms : list (string * node))
    (m : string * node) :
  m ∈ ms -> join tdir m.1 ∈ extracted_paths tdir ms.
Proof.
  intros Hm. unfold extracted_paths.
  apply (list_elem_of_fmap_2 (fun m => join tdir m.1)) in Hm. exact Hm.
Qed.

(** A bundle member with a flat transcript name is found by the
    verification once the bundle is unpacked. *)
Lemma marked_member_found (tdir : string) (ms : list (string * node)) (fs : localfs) :
  NoDup (extracted_paths tdir ms) ->
  (exists m, m ∈ ms /\ has_slash m.1 = false /\ contains "transcript_" m.1 = true) ->
  found_files (unpacked_fs tdir ms fs) tdir <> [].
Proof.
  intros Hnd (m0 & Hm0 & Hflat & Hmark) Hnil.
  assert (Hin : m0.1 ∈ found_files (unpacked_fs tdir ms fs) tdir).
  { apply found_files_of_key; [done|done|].
    unfold unpacked_fs. rewrite extract_members_member by done. eauto. }
  rewrite Hnil in Hin. by apply elem_of_nil in Hin.
Qed.

(** The downloaded bundle is still there after unpacking, unless a member
    is unpacked over it. *)
Lemma bundle_survives_unpacking (tdir : string) (ms : list (string * node))
    (fs : localfs) :
  join tdir remote_archive ∉ extracted_paths tdir ms ->
  unpacked_fs tdir ms fs !! join tdir remote_archive = Some (Tar ms).
Proof.
  intros Hla. unfold unpacked_fs. rewrite extract_members_other by done.
  apply lookup_insert_eq.
Qed.

(** Where a bundle member is once the bundle is unpacked and removed. *)
Lemma unpacked_member (tdir : string) (ms : list (string * node)) (fs : localfs)
    (m : string * node) :
  NoDup (extracted_paths tdir ms) ->
  join tdir remote_archive ∉ extracted_paths tdir ms ->
  m ∈ ms ->
  delete (join tdir remote_archive) (unpacked_fs tdir ms fs) !! join tdir m.1 =
    Some m.2.
Proof.
  intros Hnd Hla Hin. rewrite lookup_delete_ne.
  - unfold unpacked_fs. by apply extract_members_member.
  - intros Heq. apply Hla. rewrite Heq. by apply member_path_extracted.
Qed.

(** A plain member is a flat one. *)
Lemma plain_marked_member (fs : localfs) (dest : string) (ms : list (string * node)) :
  plain_members fs dest ms ->
  (exists m, m ∈ ms /\ contains "transcript_" m.1 = true) ->
  exists m, m ∈ ms /\ has_slash m.1 = false /\ contains "transcript_" m.1 = true.
Proof.
  intros Hplain (m & Hin & Hc). exists m. split; [done|]. split; [|done].
  unfold plain_members in Hplain. rewrite Forall_forall in Hplain.
  destruct (Hplain m Hin) as (Hp & _).
  unfold proper_name in Hp. apply andb_true_iff in Hp as [_ Hp].
  by apply negb_true_iff.
Qed.

Lemma makedirs_keeps_trace (path : string) (st sa : state) :
  makedirs path st = (Ok tt, sa) -> st_trace sa = st_trace st.
Proof.
  intros Hm.
  destruct (quiet_makedirs (fun _ => True) _ _ _ _ Hm) as (tr & Htr & Hq).
  destruct tr as [|ev tr]; [|by inversion Hq]. by rewrite app_nil_r in Htr.
Qed.

(** The retrieval whose first attempt goes through, and the state it
    ends in. *)
Lemma first_attempt_state
    (cfg : config) (w : world) (wd dir : string) (orig : string * string)
    (max_retries initial_delay : Z) (st sa : state) (ms : list (string * node))
    (n : node) :
  let tdir := join dir "transcripts" in
  let wav := basename orig.1 in
  let json := basename orig.2 in
  let local_archive := join tdir remote_archive in
  let report :=
    EvLog INFO [FStr ("Successfully extracted files: " ++
                      str_join ", " (found_files (unpacked_fs tdir ms (st_fs sa)) tdir))] in
  0 < max_retries ->
  0 <= initial_delay ->
  makedirs tdir st = (Ok tt, sa) ->
  w_settle_sleep w = false ->
  step_ok (w_create w 0%nat) = true ->
  step_ok (w_download w 0%nat) = true ->
  w_bundle w 0%nat = Tar ms ->
  found_files (unpacked_fs tdir ms (st_fs sa)) tdir <> [] ->
  unpacked_fs tdir ms (st_fs sa) !! local_archive = Some n ->
  n <> Dir ->
  keep_remote_set cfg = true \/ step_ok (w_cleanup w 0%nat) = true ->
  retrieve_results cfg w wd dir orig max_retries initial_delay st =
    (Ok (Some true),
     {| st_fs := delete local_archive (unpacked_fs tdir ms (st_fs sa));
        st_trace :=
          (st_trace st ++
           EvSleep initial_delay :: attempt_prefix cfg wd wav json 0 ++
           [EvRun (download_argv cfg wd local_archive); report] ++
           (if keep_remote_set cfg then []
            else [EvRun (ssh_argv cfg (cleanup_cmd wd))]))%list |}).
Proof.
  intros tdir wav json la report Hmax Hdelay Hm Hs Hc Hd Hb Hfound Harch Hn Hk.
  pose proof (makedirs_keeps_trace _ _ _ Hm) as Htr0.
  set (s0 := logged sa [EvSleep initial_delay]).
  pose proof (fetch_succeeds cfg w wd tdir wav json 0 s0 ms n
                (or_introl eq_refl) Hc Hd Hb Hfound Harch Hn) as Hf.
  assert (Hatt := bind_of _ (fun _ => retrieve_cleanup cfg w wd 0) _ _ _ Hf).
  cbv beta iota in Hatt. rewrite (cleanup_succeeds cfg w wd 0 _ Hk) in Hatt.
  fold (retrieve_attempt cfg w wd tdir wav json 0) in Hatt.
  unfold retrieve_results, try_except at 1. fold tdir wav json.
  rewrite (bind_of _ _ _ _ _ Hm). cbv iota.
  rewrite Hs. rewrite (bind_of _ _ _ _ _ (sleep_undisturbed _ _ Hdelay)). cbv iota.
  fold s0.
  destruct (Z.to_nat max_retries) as [|k] eqn:Hk'; [lia|].
  cbn [retrieve_loop].
  erewrite bind_of.
  2:{ unfold try_except. erewrite bind_of by exact Hatt. reflexivity. }
  cbv beta iota. unfold ret. f_equal.
  unfold logged, unpacked_state, s0, logged, report. cbn [st_fs st_trace].
  rewrite Htr0, <- !app_assoc. reflexivity.
Qed.



(** ** Exceptions and interrupts *)

Lemma try_except_never_raises {A} (m : M A) (h : exn -> M A) :
  (forall e, never_raises (h e)) -> never_raises (try_except m h).
Proof.
  intros Hh st e. unfold try_except.
  destruct (m st) as [[a|e'| |] st1]; cbn [fst]; try discriminate.
  apply Hh.
Qed.

Lemma log_ret_never_raises {A} (lvl : level) (msg : list frag) (a : A) :
  never_raises (log lvl msg;; ret a).
Proof. intros st e. discriminate. Qed.

(** X16. No method of the controller that reports through its return
    value hands an exception to its caller: [verify_connection],
    [find_audio_pair], [create_compressed_archive], [execute_gpu_service]
    and [retrieve_results] catch every exception of their bodies (a
    keyboard interrupt is not one) and return their failure value. *)
Theorem controller_methods_never_raise
    (cfg : config) (w : world) (input_dir wav_file json_file archive_name : string)
    (files : list string) (wd dir : string) (orig : string * string)
    (max_retries initial_delay : Z) :
  never_raises (verify_connection cfg w) /\
  never_raises (find_audio_pair w input_dir) /\
  never_raises (create_compressed_archive files archive_name) /\
  never_raises (execute_gpu_service cfg w input_dir wav_file json_file) /\
  never_raises (retrieve_results cfg w wd dir orig max_retries initial_delay).
Proof.
  repeat split; apply try_except_never_raises; intros e;
    apply log_ret_never_raises.
Qed.

(** *** Computations that come to an end *)

Create HintDb finishes.

Section Finishes.

Lemma finishes_ret {A} (a : A) : finishes (ret a).
Proof. intros st. discriminate. Qed.

Lemma finishes_raise {A} (e : exn) : finishes (@raise A e).
Proof. intros st. discriminate. Qed.

Lemma finishes_interrupt {A} : finishes (@interrupt A).
Proof. intros st. discriminate. Qed.

Lemma finishes_get_fs : finishes get_fs.
Proof. intros st. discriminate. Qed.

Lemma finishes_put_fs (fs : localfs) : finishes (put_fs fs).
Proof. intros st. discriminate. Qed.

Lemma finishes_emit (ev : event) : finishes (emit ev).
Proof. intros st. discriminate. Qed.

Lemma finishes_log (lvl : level) (msg : list frag) : finishes (log lvl msg).
Proof. intros st. discriminate. Qed.

Lemma finishes_bind {A B} (m : M A) (k : A -> M B) :
  finishes m -> (forall a, finishes (k a)) -> finishes (bind m k).
Proof.
  intros Hm Hk st. unfold bind. specialize (Hm st).
  destruct (m st) as [[a|e| |] st1]; cbn [fst] in *; try done. apply Hk.
Qed.


Lemma finishes_if {A} (c : bool) (m1 m2 : M A) :
  finishes m1 -> finishes m2 -> finishes (if c then m1 else m2).
Proof. by destruct c. Qed.

Lemma finishes_run (argv : list string) (r : response) :
  finishes (subprocess_run argv r).
Proof. intros st. by destruct r. Qed.

Lemma finishes_run_check (argv : list string) (r : response) :
  finishes (subprocess_run_check argv r).
Proof.
  unfold subprocess_run_check. apply finishes_bind; [apply finishes_run|].
  intros p. apply finishes_if; [apply finishes_ret|apply finishes_raise].
Qed.

Lemma finishes_sleep (secs : Z) (b : bool) : finishes (sleep secs b).
Proof. intros st. unfold sleep. destruct (secs <? 0); [done|]. by destruct b. Qed.

Lemma finishes_os_remove (path : string) : finishes (os_remove path).
Proof.
  intros st. unfold os_remove. mcbv.
  destruct (st_fs st !! path) as [[]|]; try done.
  by destruct (isdir (st_fs st) path).
Qed.

Lemma finishes_makedirs (path : string) : finishes (makedirs path).
Proof.
  intros st. unfold makedirs. mcbv.
  destruct (existsb (is_file (st_fs st)) (ancestors path)); [done|].
  by destruct (st_fs st !! path) as [[]|].
Qed.

Lemma finishes_open_append (path : string) : finishes (open_append path).
Proof.
  intros st. unfold open_append. mcbv.
  destruct (isdir (st_fs st) path); [done|]. by destruct (st_fs st !! path).
Qed.

Lemma finishes_extractall (archive dest : string) : finishes (extractall archive dest).
Proof.
  intros st. unfold extractall, tar_open_r. mcbv.
  destruct (st_fs st !! archive) as [[]|]; try done.
  by destruct (isdir (st_fs st) archive).
Qed.

Lemma finishes_tar_open_w (archive : string) : finishes (tar_open_w archive).
Proof.
  intros st. unfold tar_open_w. mcbv.
  destruct (String.eqb archive ""); [done|].
  destruct (isdir (st_fs st) archive); [done|].
  destruct (parent_exists (st_fs st) archive); [done|].
  by destruct (st_fs st !! dirname archive) as [[]|].
Qed.

Lemma finishes_tar_add (archive path arcname : string) :
  finishes (tar_add archive path arcname).
Proof.
  intros st. unfold tar_add. mcbv.
  destruct (tar_members (st_fs st) path arcname); [|done].
  by destruct (st_fs st !! archive) as [[]|].
Qed.

Lemma finishes_add_files (archive : string) (files : list string) :
  finishes (add_files archive files).
Proof.
  induction files as [|p files IH]; cbn [add_files]; [apply finishes_ret|].
  apply finishes_bind; [apply finishes_tar_add|]. intros _. exact IH.
Qed.

End Finishes.

#[export] Hint Resolve finishes_ret finishes_raise finishes_interrupt finishes_get_fs
  finishes_put_fs finishes_emit finishes_log finishes_run finishes_run_check
  finishes_sleep finishes_os_remove finishes_makedirs finishes_open_append
  finishes_extractall finishes_tar_open_w finishes_tar_add finishes_add_files
  : finishes.












(** ** Remote deletions of a whole run *)

Lemma quiet_weaken {A} (P Q : event -> Prop) (m : M A) :
  (forall ev, P ev -> Q ev) -> quiet Q m -> quiet P m.
Proof.
  intros HPQ Hm st r st' E. destruct (Hm _ _ _ E) as (tr & Htr & Hq).
  exists tr. split; [done|]. eapply Forall_impl; [exact Hq|].
  intros ev Hev HP. by apply Hev, HPQ.
Qed.

Lemma quiet_bind_post {A B} (P : event -> Prop) (Q : A -> Prop)
    (m : M A) (k : A -> M B) :
  (forall st a st', m st = (Ok a, st') -> Q a) ->
  quiet P m -> (forall a, Q a -> quiet P (k a)) -> quiet P (bind m k).
Proof.
  intros HQ Hm Hk st r st'. unfold bind.
  destruct (m st) as [r1 st1] eqn:E.
  destruct (Hm _ _ _ E) as (tr1 & Htr1 & Hq1).
  destruct r1 as [a|e| |]; try (intros [= <- <-]; eauto).
  intros E2. destruct (Hk a (HQ _ _ _ E) _ _ _ E2) as (tr2 & Htr2 & Hq2).
  exists (tr1 ++ tr2)%list. rewrite Htr2, Htr1, <- app_assoc.
  split; [done|]. by apply Forall_app.
Qed.

Lemma quiet_try_except2 {A} (P : event -> Prop) (m hk : M A) (he : exn -> M A) :
  quiet P m -> quiet P hk -> (forall e, quiet P (he e)) ->
  quiet P (try_except2 m hk he).
Proof.
  intros Hm Hhk Hhe st r st'. unfold try_except2.
  destruct (m st) as [r1 st1] eqn:E.
  destruct (Hm _ _ _ E) as (tr1 & Htr1 & Hq1).
  destruct r1 as [a|e| |]; try (intros [= <- <-]; eauto).
  - intros E2. destruct (Hhe e _ _ _ E2) as (tr2 & Htr2 & Hq2).
    exists (tr1 ++ tr2)%list. rewrite Htr2, Htr1, <- app_assoc.
    split; [done|]. by apply Forall_app.
  - intros E2. destruct (Hhk _ _ _ E2) as (tr2 & Htr2 & Hq2).
    exists (tr1 ++ tr2)%list. rewrite Htr2, Htr1, <- app_assoc.
    split; [done|]. by apply Forall_app.
Qed.

(** An [ssh] command that does not begin with the letter [r] is no remote
    deletion. *)
Lemma not_deletion_ssh (cfg : config) (c : ascii) (r : string) :
  c <> "r"%char -> ~ is_deletion (EvRun (ssh_argv cfg (String c r))).
Proof.
  intros Hc. unfold is_deletion, is_remote_delete, ssh_argv, startswith.
  cbn [String.prefix]. destruct (ascii_dec "r" c) as [<-|]; [done|].
  by rewrite andb_false_r.
Qed.

Lemma not_deletion_seven (a b c d e f g : string) :
  ~ is_deletion (EvRun [a; b; c; d; e; f; g]).
Proof. by intros [=]. Qed.

#[export] Hint Resolve not_deletion_seven : quiet.

Lemma new_controller_never_deletes (config_file : string) (w : world) :
  quiet is_deletion (new_controller config_file w).
Proof.
  unfold new_controller, _load_config, setup_logging.
  destruct (w_config w) as [raw|]; [|repeat quiet_step].
  destruct (raw_host raw), (raw_port raw), (raw_remote_path raw); repeat quiet_step.
Qed.

Lemma verify_connection_never_deletes (cfg : config) (w : world) :
  quiet is_deletion (verify_connection cfg w).
Proof.
  unfold verify_connection. repeat quiet_step.
  by apply (not_deletion_ssh cfg "e").
Qed.

Lemma find_audio_pair_never_deletes (w : world) (input_dir : string) :
  quiet is_deletion (find_audio_pair w input_dir).
Proof. unfold find_audio_pair. repeat quiet_step. Qed.

Lemma create_archive_never_deletes (files : list string) (archive : string) :
  quiet is_deletion (create_compressed_archive files archive).
Proof.
  unfold create_compressed_archive. apply quiet_try_except.
  - apply quiet_bind; [apply quiet_tar_open_w|]. intros _.
    apply quiet_bind; [apply quiet_add_files|]. intros _. apply quiet_ret.
  - intros e. repeat quiet_step.
Qed.

Lemma execute_gpu_service_never_deletes (cfg : config) (w : world)
    (input_dir wav_file json_file : string) :
  quiet is_deletion (execute_gpu_service cfg w input_dir wav_file json_file).
Proof.
  unfold execute_gpu_service.
  apply quiet_try_except; [|intros e; repeat quiet_step].
  apply quiet_bind; [apply create_archive_never_deletes|]. intros created.
  apply quiet_bind; [repeat quiet_step|]. intros _.
  apply quiet_bind; [apply quiet_run_check; by apply (not_deletion_ssh cfg "m")|].
  intros _.
  apply quiet_bind; [apply quiet_run_check; apply not_deletion_seven|]. intros _.
  apply quiet_bind; [apply quiet_run_check; by apply (not_deletion_ssh cfg "c")|].
  intros _.
  apply quiet_bind; [apply quiet_run_check; by apply (not_deletion_ssh cfg "c")|].
  intros _. repeat quiet_step.
Qed.

Lemma monitor_loop_never_deletes (cfg : config) (w : world) (wd : string) (fuel : nat) :
  forall i, quiet is_deletion (monitor_loop cfg w wd fuel i).
Proof.
  induction fuel as [|fuel IH]; intros i; cbn [monitor_loop]; [apply quiet_out_of_fuel|].
  apply quiet_bind; [apply quiet_run; by apply (not_deletion_ssh cfg "t")|]. intros _.
  apply quiet_bind; [apply quiet_run; by apply (not_deletion_ssh cfg "t")|].
  intros result. apply quiet_if; [repeat quiet_step|].
  apply quiet_bind; [repeat quiet_step|]. intros _. apply IH.
Qed.

Lemma monitor_process_never_deletes (cfg : config) (w : world) (wd : string)
    (fuel : nat) :
  quiet is_deletion (monitor_process cfg w wd fuel).
Proof.
  unfold monitor_process. apply quiet_try_except2.
  - apply monitor_loop_never_deletes.
  - repeat quiet_step.
  - intros e. repeat quiet_step.
Qed.

Lemma foreign_is_deletion (cfg : config) (w : world) (ev : event) :
  foreign_deletion cfg w ev -> is_deletion ev.
Proof. by intros (argv & _ & H & _). Qed.

(** The cleanup of the run's own work directory is not foreign, unless
    [keep_remote] is set. *)
Lemma own_cleanup_not_foreign (cfg : config) (w : world) :
  keep_remote_set cfg = false ->
  ~ foreign_deletion cfg w
      (EvRun (ssh_argv cfg (cleanup_cmd (work_dir_of cfg (w_timestamp w))))).
Proof.
  intros Hk (argv & [= <-] & _ & [H|H]); [congruence|done].
Qed.

Lemma retrieve_loop_no_foreign (cfg : config) (w : world)
    (tdir wav json : string) (max_retries : Z) (n : nat) :
  forall attempt,
    quiet (foreign_deletion cfg w)
      (retrieve_loop cfg w (work_dir_of cfg (w_timestamp w)) tdir wav json
         max_retries n attempt).
Proof.
  pose proof (foreign_is_deletion cfg w) as Hw.
  induction n as [|n IH]; intros attempt; cbn [retrieve_loop]; [apply quiet_ret|].
  apply quiet_bind.
  - apply quiet_try_except.
    + apply quiet_bind; [|intros _; apply quiet_ret].
      unfold retrieve_attempt.
      apply quiet_bind;
        [apply (quiet_weaken _ _ _ Hw), fetch_never_deletes|]. intros _.
      unfold retrieve_cleanup.
      destruct (keep_remote_set cfg) eqn:Hk; cbn [negb]; [apply quiet_ret|].
      apply quiet_bind; [|intros _; apply quiet_ret].
      apply quiet_run_check. by apply own_cleanup_not_foreign.
    + intros e. apply quiet_if; [apply quiet_raise|].
      apply quiet_bind; [|intros _; apply quiet_ret].
      apply quiet_log. intros H. by apply Hw in H.
  - intros b. apply quiet_if; [apply quiet_ret|apply IH].
Qed.

Lemma retrieve_results_no_foreign (cfg : config) (w : world) (dir : string)
    (orig : string * string) (max_retries delay : Z) :
  quiet (foreign_deletion cfg w)
    (retrieve_results cfg w (work_dir_of cfg (w_timestamp w)) dir orig
       max_retries delay).
Proof.
  pose proof (foreign_is_deletion cfg w) as Hw.
  unfold retrieve_results. apply quiet_try_except.
  - apply quiet_bind; [apply quiet_makedirs|]. intros _.
    apply quiet_bind; [apply quiet_sleep; intros H; by apply Hw in H|]. intros _.
    apply retrieve_loop_no_foreign.
  - intros e. apply quiet_bind; [|intros _; apply quiet_ret].
    apply quiet_log. intros H. by apply Hw in H.
Qed.

(** The configuration a controller is built with is the one
    [_load_config] reads, whatever the state. *)
Lemma new_controller_config (config_file : string) (w : world) (st st1 st0 : state)
    (cfg : config) :
  new_controller config_file w st = (Ok cfg, st1) ->
  (_load_config config_file (w_config w) st0).1 = Ok cfg.
Proof.
  unfold new_controller. intros H.
  apply bind_ok_inv in H as (c & s1 & Hl & H).
  apply bind_ok_inv in H as ([] & s2 & _ & [= -> _]).
  revert Hl. unfold _load_config.
  destruct (w_config w) as [raw|]; [|done].
  destruct (raw_host raw), (raw_port raw), (raw_remote_path raw); try done.
  by intros [= <- _].
Qed.

(** The launch returns [None] or the work directory of the run. *)
Lemma execute_gpu_service_work_dir (cfg : config) (w : world)
    (input_dir wav_file json_file : string) (st st' : state) (o : option string) :
  execute_gpu_service cfg w input_dir wav_file json_file st = (Ok o, st') ->
  o = None \/ o = Some (work_dir_of cfg (w_timestamp w)).
Proof.
  unfold execute_gpu_service. intros H.
  apply try_except_ok_inv in H as [H | (e & st1 & _ & Hh)].
  - do 6 (apply bind_ok_inv in H as (? & ? & _ & H)).
    apply bind_ok_inv in H as (? & ? & _ & [= <- _]). by right.
  - revert Hh. mcbv. intros [= <- _]. by left.
Qed.

(** Events of a kind that only the retrieval of the run's own work
    directory could record are recorded by no other part of [main]. *)
Lemma main_quiet (P : event -> Prop) (Q : config -> Prop)
    (a : args) (w : world) (fuel : nat) :
  (forall ev, P ev -> is_deletion ev) ->
  (forall st cfg st', new_controller (arg_config a) w st = (Ok cfg, st') -> Q cfg) ->
  (forall cfg dir orig max_retries delay, Q cfg ->
     quiet P (retrieve_results cfg w (work_dir_of cfg (w_timestamp w)) dir orig
                max_retries delay)) ->
  quiet P (main a w fuel).
Proof.
  intros Hw Hcfg Hret.
  unfold main. apply quiet_try_except2.
  - apply quiet_bind; [apply quiet_get_fs|]. intros fs.
    apply quiet_if; [apply quiet_ret|].
    apply (quiet_bind_post _ Q); [exact Hcfg| |].
    { apply (quiet_weaken _ _ _ Hw), new_controller_never_deletes. }
    intros cfg HQ.
    apply quiet_bind;
      [apply (quiet_weaken _ _ _ Hw), verify_connection_never_deletes|].
    intros connected. apply quiet_if; [apply quiet_ret|].
    apply quiet_bind;
      [apply (quiet_weaken _ _ _ Hw), find_audio_pair_never_deletes|].
    intros pair. apply quiet_if; [apply quiet_ret|].
    apply (quiet_bind_post _ (fun o => o = None \/
                                       o = Some (work_dir_of cfg (w_timestamp w)))).
    { intros st o st'. apply execute_gpu_service_work_dir. }
    { apply (quiet_weaken _ _ _ Hw), execute_gpu_service_never_deletes. }
    intros o [-> | ->]; [apply quiet_ret|].
    apply quiet_if; [|apply quiet_ret]. cbn [default].
    apply quiet_bind;
      [apply (quiet_weaken _ _ _ Hw), monitor_process_never_deletes|].
    intros completed. apply quiet_if; [|apply quiet_ret].
    apply quiet_bind; [by apply Hret|].
    intros retrieved. apply quiet_if; apply quiet_ret.
  - apply quiet_ret.
  - intros e. apply quiet_bind; [|intros _; apply quiet_ret].
    apply quiet_log. intros H. by apply Hw in H.
Qed.

(** A run that ends on "Results retrieved successfully" went through a
    successful [retrieve_results] on the work directory of the run. *)
Lemma main_retrieved_inv (a : args) (w : world) (fuel : nat) (st st' : state) :
  main a w fuel st = (Ok ResultsRetrieved, st') ->
  exists cfg st1 orig st4,
    new_controller (arg_config a) w st = (Ok cfg, st1) /\
    retrieve_results cfg w (work_dir_of cfg (w_timestamp w)) (arg_input a) orig 3 5 st4 =
      (Ok (Some true), st').
Proof.
  unfold main, try_except2. intros H.
  match type of H with
  | (let (_, _) := ?body st in _) = _ => destruct (body st) as [[v|e| |] st0] eqn:Hbody
  end; try discriminate H.
  injection H as -> ->.
  apply bind_ok_inv in Hbody as (fs & st1 & Hfs & H).
  injection Hfs as <- <-.
  destruct (negb (isdir (st_fs st) (arg_input a))); [discriminate H|].
  apply bind_ok_inv in H as (cfg & st2 & Hctl & H).
  apply bind_ok_inv in H as (connected & st3 & _ & H).
  destruct (negb connected); [discriminate H|].
  apply bind_ok_inv in H as (pair & st4 & _ & H).
  destruct (negb (str_truthy pair.1) || negb (str_truthy pair.2)); [discriminate H|].
  apply bind_ok_inv in H as (work_dir & st5 & Hexec & H).
  apply execute_gpu_service_work_dir in Hexec as [-> | ->]; [discriminate H|].
  destruct (str_truthy (Some (work_dir_of cfg (w_timestamp w)))); [|discriminate H].
  cbn [default] in H.
  apply bind_ok_inv in H as (completed & st6 & _ & H).
  destruct completed; [|discriminate H].
  apply bind_ok_inv in H as (retrieved & st7 & Hr & H).
  destruct retrieved as [[|]|]; try discriminate H.
  injection H as <-.
  eexists cfg, _, _, _. split; [exact Hctl|exact Hr].
Qed.

(** With [keep_remote] set, every cleanup command would be a foreign
    one. *)
Lemma kept_deletion_is_foreign (cfg : config) (w : world) (ev : event) :
  keep_remote_set cfg = true -> is_deletion ev -> foreign_deletion cfg w ev.
Proof.
  intros Hk Hev. destruct ev as [argv| |]; try discriminate Hev.
  exists argv. by eauto.
Qed.

(** C9. [main] never reads the [--keep-remote] flag: a run with the flag
    set or unset is the same run. Whether the remote work directory is
    deleted is decided by the [keep_remote] key of the configuration file
    alone. With the key set to a truthy value no run issues the cleanup
    command, the remote [rm -rf], whatever the flag is and however the
    run ends. With the key
    absent or not truthy, whatever the flag is (so also with
    [--keep-remote] given), a run that retrieves the results ends with
    the remote [rm -rf] of its own work directory
    [<remote_path>/work_<timestamp>], sent to the host and port of the
    configuration file. *)
Theorem cli_keep_remote_flag_is_ignored
    (a : args) (w : world) (fuel : nat) (st : state) :
  (forall b,
     main {| arg_input := arg_input a; arg_config := arg_config a;
             arg_keep_remote := b |} w fuel st = main a w fuel st) /\
  (forall raw,
     w_config w = Some raw ->
     match raw_keep_remote raw with Some v => truthy v | None => false end = true ->
     exists tr,
       st_trace (main a w fuel st).2 = (st_trace st ++ tr)%list /\
       deletions tr = []) /\
  (forall raw st',
     w_config w = Some raw ->
     match raw_keep_remote raw with Some v => truthy v | None => false end = false ->
     main a w fuel st = (Ok ResultsRetrieved, st') ->
     exists cfg,
       (_load_config (arg_config a) (w_config w) st).1 = Ok cfg /\
       keep_remote cfg = raw_keep_remote raw /\
       last (st_trace st') =
         Some (EvRun (ssh_argv cfg (cleanup_cmd (work_dir_of cfg (w_timestamp w))))) /\
       is_remote_delete
         (EvRun (ssh_argv cfg (cleanup_cmd (work_dir_of cfg (w_timestamp w))))) = true).
Proof.
  split; [reflexivity|]. split.
  - intros raw Hraw Hkey.
    assert (Hq : quiet is_deletion (main a w fuel)).
    { apply (main_quiet is_deletion (fun cfg => keep_remote_set cfg = true)).
      - done.
      - intros s cfg s' Hctl.
        apply new_controller_keep_remote in Hctl as (raw' & Hraw' & Hk).
        rewrite Hraw in Hraw'. injection Hraw' as <-.
        unfold keep_remote_set. by rewrite Hk.
      - intros cfg dir orig m d Hk.
        apply (quiet_weaken _ (foreign_deletion cfg w)).
        + intros ev. by apply kept_deletion_is_foreign.
        + apply retrieve_results_no_foreign. }
    destruct (Hq st (main a w fuel st).1 (main a w fuel st).2) as (tr & Htr & Hf);
      [by destruct (main a w fuel st)|].
    exists tr. split; [exact Htr|]. by apply quiet_deletions.
  - intros raw st' Hraw Hkey Hmain.
    apply main_retrieved_inv in Hmain as (cfg & st1 & orig & st4 & Hctl & Hr).
    pose proof (new_controller_config _ _ _ _ st _ Hctl) as Hload.
    apply new_controller_keep_remote in Hctl as (raw' & Hraw' & Hk).
    rewrite Hraw in Hraw'. injection Hraw' as <-.
    exists cfg. split; [exact Hload|]. split; [exact Hk|]. split.
    + eapply retrieve_results_ok_last; [|exact Hr].
      unfold keep_remote_set. by rewrite Hk.
    + unfold is_remote_delete, ssh_argv, cleanup_cmd, startswith.
      by rewrite prefix_app.
Qed.

(** X18. Of the commands a run of [main] issues, whatever happens during
    the run, the only ones that are a remote cleanup (an ssh call whose
    command line begins [rm -rf]) are the [rm -rf] of the work directory
    [<remote_path>/work_<timestamp>] of this run, sent to the configured
    host and port; and when [keep_remote] is set in the configuration
    file there is none at all. What the remote shell makes of the other
    command lines of the run, into which the input names and the remote
    path are pasted as they are, is outside this statement. *)
Theorem main_cleans_up_only_its_own_work_dir
    (a : args) (w : world) (fuel : nat) (st : state) :
  exists tr,
    st_trace (main a w fuel st).2 = (st_trace st ++ tr)%list /\
    forall ev, ev ∈ deletions tr ->
      exists cfg,
        (_load_config (arg_config a) (w_config w) st).1 = Ok cfg /\
        keep_remote_set cfg = false /\
        ev = EvRun (ssh_argv cfg (cleanup_cmd (work_dir_of cfg (w_timestamp w)))).
Proof.
  assert (Hrun : main a w fuel st = ((main a w fuel st).1, (main a w fuel st).2))
    by (by destruct (main a w fuel st)).
  destruct (_load_config (arg_config a) (w_config w) st) as [r0 s0] eqn:Hload.
  assert (Hsame : forall s c s', new_controller (arg_config a) w s = (Ok c, s') ->
                                 r0 = Ok c).
  { intros s c s' H. apply (new_controller_config _ _ _ _ st) in H.
    by rewrite Hload in H. }
  assert (Hnone : (forall c, r0 <> Ok c) ->
            exists tr, st_trace (main a w fuel st).2 = (st_trace st ++ tr)%list /\
                       deletions tr = []).
  { intros Hno.
    assert (Hq : quiet is_deletion (main a w fuel)).
    { apply (main_quiet is_deletion (fun _ => False)); [done| |done].
      intros s c s' H. apply Hsame in H. by apply Hno in H. }
    destruct (Hq _ _ _ Hrun) as (tr & Htr & Hf).
    exists tr. split; [exact Htr|]. by apply quiet_deletions. }
  destruct r0 as [cfg0|e| |].
  - assert (Hmain : quiet (foreign_deletion cfg0 w) (main a w fuel)).
    { apply (main_quiet _ (fun cfg => cfg = cfg0)).
      - apply foreign_is_deletion.
      - intros s c s' H. apply Hsame in H. by injection H.
      - intros cfg dir orig m d ->. apply retrieve_results_no_foreign. }
    destruct (Hmain _ _ _ Hrun) as (tr & Htr & Hq).
    exists tr. split; [exact Htr|].
    intros ev Hev. exists cfg0. split; [reflexivity|].
    apply list_elem_of_filter in Hev as [Hdel Hin].
    rewrite Forall_forall in Hq. specialize (Hq ev Hin).
    apply Is_true_true in Hdel.
    destruct ev as [argv| |]; try discriminate Hdel.
    destruct (keep_remote_set cfg0) eqn:Hk.
    { exfalso. apply Hq. exists argv. by eauto. }
    split; [reflexivity|].
    destruct (decide (argv =
      ssh_argv cfg0 (cleanup_cmd (work_dir_of cfg0 (w_timestamp w))))) as [->|Hne];
      [reflexivity|].
    exfalso. apply Hq. exists argv. by eauto.
  - destruct Hnone as (tr & Htr & Hd); [done|].
    exists tr. split; [exact Htr|]. rewrite Hd. intros ev Hev.
    by apply elem_of_nil in Hev.
  - destruct Hnone as (tr & Htr & Hd); [done|].
    exists tr. split; [exact Htr|]. rewrite Hd. intros ev Hev.
    by apply elem_of_nil in Hev.
  - destruct Hnone as (tr & Htr & Hd); [done|].
    exists tr. split; [exact Htr|]. rewrite Hd. intros ev Hev.
    by apply elem_of_nil in Hev.
Qed.

(** ** A whole run *)

Lemma verify_connection_ok (cfg : config) (w : world) (st : state) :
  step_ok (w_connect w) = true ->
  verify_connection cfg w st = (Ok true, logged st [EvRun (ssh_argv cfg connect_cmd)]).
Proof.
  intros H. unfold verify_connection. fold connect_cmd.
  destruct (w_connect w) as [rc out| |]; cbn [step_ok] in H; try done.
  mcbv. by rewrite H.
Qed.

Lemma find_audio_pair_unique (w : world) (input_dir wav json : string) (st : state) :
  glob_paths w (st_fs st) input_dir ".wav" = [wav] ->
  glob_paths w (st_fs st) input_dir ".json" = [json] ->
  find_audio_pair w input_dir st = (Ok (Some wav, Some json), st).
Proof.
  intros Hw Hj. unfold find_audio_pair. mcbv. rewrite Hw, Hj. cbn. by destruct st.
Qed.

Lemma glob_ext_nonempty (fs : localfs) (d ext p : string) :
  ext <> "" -> p ∈ glob_ext fs d ext -> str_truthy (Some p) = true.
Proof.
  intros Hext Hp. apply glob_ext_elem in Hp as (n & -> & _ & He & _).
  cbn [str_truthy]. apply negb_true_iff, String.eqb_neq.
  apply join_nonempty. by eapply endswith_nonempty.
Qed.

Lemma runs_cons_sleep (secs : Z) (tr : list event) :
  runs (EvSleep secs :: tr) = runs tr.
Proof. reflexivity. Qed.

Lemma runs_cons_log (lvl : level) (msg : list frag) (tr : list event) :
  runs (EvLog lvl msg :: tr) = runs tr.
Proof. reflexivity. Qed.

Lemma runs_nil : runs [] = [].
Proof. reflexivity. Qed.

Ltac runs_norm :=
  repeat first
    [ rewrite runs_app | rewrite runs_cons_run | rewrite runs_cons_sleep
    | rewrite runs_cons_log | rewrite runs_nil ].

Lemma sleeps_cons_sleep (secs : Z) (tr : list event) :
  sleeps (EvSleep secs :: tr) = secs :: sleeps tr.
Proof. reflexivity. Qed.

Lemma sleeps_cons_run (argv : list string) (tr : list event) :
  sleeps (EvRun argv :: tr) = sleeps tr.
Proof. reflexivity. Qed.

Lemma sleeps_cons_log (lvl : level) (msg : list frag) (tr : list event) :
  sleeps (EvLog lvl msg :: tr) = sleeps tr.
Proof. reflexivity. Qed.

Lemma sleeps_nil : sleeps [] = [].
Proof. reflexivity. Qed.

Ltac sleeps_norm :=
  repeat first
    [ rewrite sleeps_app | rewrite sleeps_cons_sleep | rewrite sleeps_cons_run
    | rewrite sleeps_cons_log | rewrite sleeps_nil | rewrite sleeps_poll_rounds ].

Lemma makedirs_ok (path : string) (st : state) :
  can_makedirs (st_fs st) path = true ->
  exists sa,
    makedirs path st = (Ok tt, sa) /\ st_trace sa = st_trace st /\
    (st_fs sa = st_fs st \/ st_fs sa = <[path := Dir]> (st_fs st)).
Proof.
  unfold can_makedirs, is_file at 2. intros H.
  apply andb_true_iff in H as [Hup Hp]. apply negb_true_iff in Hup.
  unfold makedirs. mcbv. rewrite Hup.
  destruct (st_fs st !! path) as [[]|] eqn:Hn; try discriminate Hp; by eauto.
Qed.

(** X19. The whole run on its success path. Take as input a directory
    whose name holds none of the characters [*], [?] and [[] (and does
    not end in a doubled slash), a loadable configuration with logging set
    up, a connection check that exits with 0, exactly one WAV and one
    JSON file in the directory (both regular files), nothing yet at the
    bundle path, at which a file can be created, the four launch steps
    going through, the marker found in round [k] of the polling, a
    [transcripts] directory that is there or can be made, and a first
    retrieval attempt that goes through with a bundle of regular files
    with plain, distinct names (none that of a directory already in
    [transcripts], where no directory has the name of the bundle
    either), one of them a transcript name. Then [main] ends on
    "Results retrieved successfully". Its commands are, in order: the
    connection check, the four launch commands, two per poll round, and
    the bundle command, the download and (unless [keep_remote] is set)
    the remote [rm -rf]; it sleeps five seconds after each round without
    the marker and five seconds before retrieving; every member of the
    bundle ends up under [<input>/transcripts] and the downloaded bundle
    is removed. *)
Theorem successful_run_end_to_end
    (a : args) (w : world) (fuel k : nat) (st st1 : state) (cfg : config)
    (wav_file json_file : string) (ms : list (string * node)) :
  let input := arg_input a in
  let fs1 := with_logs (st_fs st) in
  let archive_name := "input_" ++ w_timestamp w ++ ".tar.gz" in
  let archive_path := join input archive_name in
  let work_dir := work_dir_of cfg (w_timestamp w) in
  let tdir := join input "transcripts" in
  let local_archive := join tdir remote_archive in
  let setup_cmd := "mkdir -p " ++ work_dir ++ " && cd " ++ work_dir in
  let upload_argv := ["rsync"; "-avz"; "--progress"; "-e"; "ssh -p " ++ port cfg;
                      archive_path; host cfg ++ ":" ++ work_dir ++ "/"] in
  let unpack_cmd := "cd " ++ work_dir ++ " && tar xzf " ++ archive_name in
  let tail_cmd := "tail -n 1 " ++ work_dir ++ "/process.log" in
  let test_cmd := "test -f " ++ work_dir ++ "/COMPLETED" in
  isdir (st_fs st) input = true ->
  glob_literal input = true ->
  new_controller (arg_config a) w st = (Ok cfg, st1) ->
  step_ok (w_connect w) = true ->
  glob_ext fs1 input ".wav" = [wav_file] ->
  glob_ext fs1 input ".json" = [json_file] ->
  is_regular fs1 wav_file ->
  is_regular fs1 json_file ->
  fs1 !! archive_path = None ->
  can_create fs1 archive_path = true ->
  launch_succeeds w = true ->
  (forall i, (i < k)%nat -> poll_continues w i) ->
  (exists rc out, w_tail w k = Returned rc out) ->
  (exists out, w_test w k = Returned 0 out) ->
  (k < fuel)%nat ->
  can_makedirs fs1 tdir = true ->
  w_settle_sleep w = false ->
  step_ok (w_create w 0%nat) = true ->
  step_ok (w_download w 0%nat) = true ->
  w_bundle w 0%nat = Tar ms ->
  plain_members fs1 tdir ms ->
  isdir fs1 local_archive = false ->
  NoDup (extracted_paths tdir ms) ->
  local_archive ∉ extracted_paths tdir ms ->
  (exists m, m ∈ ms /\ contains "transcript_" m.1 = true) ->
  keep_remote_set cfg = true \/ step_ok (w_cleanup w 0%nat) = true ->
  exists st' tr,
    main a w fuel st = (Ok ResultsRetrieved, st') /\
    st_trace st' = (st_trace st ++ tr)%list /\
    runs tr =
      ([ssh_argv cfg connect_cmd;
        ssh_argv cfg setup_cmd;
        upload_argv;
        ssh_argv cfg unpack_cmd;
        ssh_argv cfg (execute_cmd work_dir wav_file json_file)] ++
       runs (poll_rounds cfg work_dir k) ++
       [ssh_argv cfg tail_cmd;
        ssh_argv cfg test_cmd;
        ssh_argv cfg (create_archive_cmd work_dir (basename wav_file)
                        (basename json_file));
        download_argv cfg work_dir local_archive] ++
       (if keep_remote_set cfg then []
        else [ssh_argv cfg (cleanup_cmd work_dir)]))%list /\
    sleeps tr = (replicate k 5 ++ [5])%list /\
    (forall m, m ∈ ms -> st_fs st' !! join tdir m.1 = Some m.2) /\
    st_fs st' !! local_archive = None.
Proof.
  intros input fs1 archive_name archive_path work_dir tdir la
    setup_cmd upload_argv unpack_cmd tail_cmd test_cmd
    Hdir Hlit Hn Hconn Hwav Hjson Hrw Hrj Hfree Hcan Hlaunch Hpoll (rc & out & Htail)
    (out' & Htest) Hfuel Htd Hsettle Hc Hd Hb Hplain _ Hnd Hla Hmark0 Hk.
  pose proof (plain_marked_member _ _ _ Hplain Hmark0) as Hmark.
  pose proof (new_controller_ok_state _ _ _ _ _ Hn) as ->. fold fs1 in Hn.
  set (s2 := logged {| st_fs := fs1; st_trace := st_trace st |}
               [EvRun (ssh_argv cfg connect_cmd)]).
  assert (Hfind : find_audio_pair w input s2 = (Ok (Some wav_file, Some json_file), s2))
    by (apply find_audio_pair_unique; by rewrite glob_paths_literal).
  assert (Htw : str_truthy (Some wav_file) = true).
  { apply (glob_ext_nonempty fs1 input ".wav"); [done|]. rewrite Hwav. by left. }
  assert (Htj : str_truthy (Some json_file) = true).
  { apply (glob_ext_nonempty fs1 input ".json"); [done|]. rewrite Hjson. by left. }
  (* the launch *)
  pose proof (bundle_of_regular_pair wav_file json_file archive_path fs1 (st_trace s2)
                Hrw Hrj Hfree Hcan) as Hcreate.
  pose proof (launch_steps_go_through cfg w input wav_file json_file _ _ _
                Hcreate (lookup_insert_eq _ _ _) Hlaunch) as Hexec.
  cbv zeta in Hexec. fold archive_name archive_path work_dir in Hexec.
  cbn [st_fs st_trace] in Hexec. rewrite delete_insert_id in Hexec by done.
  fold setup_cmd upload_argv unpack_cmd in Hexec.
  match type of Hexec with _ = (_, ?s) => set (s3 := s) in Hexec end.
  (* the polling *)
  pose proof (monitor_loop_finds_marker cfg w work_dir fuel k s3 rc out out'
                Hpoll Htail Htest Hfuel) as Hloop.
  fold tail_cmd test_cmd in Hloop.
  match type of Hloop with _ = (_, logged _ ?t) => set (trm := t) in Hloop end.
  assert (Hmon : monitor_process cfg w work_dir fuel s3 = (Ok true, logged s3 trm)).
  { unfold monitor_process, try_except2. by rewrite Hloop. }
  (* the retrieval *)
  destruct (makedirs_ok tdir (logged s3 trm)) as (sa & Hmk & Htra & _); [exact Htd|].
  pose proof (first_attempt_state cfg w work_dir input (wav_file, json_file) 3 5
                (logged s3 trm) sa ms (Tar ms) ltac:(lia) ltac:(lia) Hmk Hsettle Hc Hd Hb
                (marked_member_found tdir ms (st_fs sa) Hnd Hmark)
                (bundle_survives_unpacking tdir ms (st_fs sa) Hla)
                ltac:(done) Hk) as Hret.
  cbv zeta in Hret. cbn [fst snd] in Hret. fold tdir la in Hret.
  match type of Hret with _ = (_, ?s) => set (s5 := s) in Hret end.
  exists s5. eexists.
  split; [|split; [|split; [|split; [|split]]]].
  - unfold main, try_except2. unfold bind at 1. cbn [get_fs].
    fold input. rewrite Hdir. cbn [negb].
    rewrite (bind_of _ _ _ _ _ Hn). cbv beta iota.
    rewrite (bind_of _ _ _ _ _ (verify_connection_ok _ _ _ Hconn)).
    cbv beta iota. cbn [negb]. fold s2.
    rewrite (bind_of _ _ _ _ _ Hfind). cbv beta iota. cbn [fst snd].
    rewrite Htw, Htj. cbn [negb orb default].
    assert (Hs2 : s2 = {| st_fs := fs1; st_trace := st_trace s2 |}) by reflexivity.
    rewrite Hs2 at 1. rewrite (bind_of _ _ _ _ _ Hexec). cbv beta iota.
    assert (Htwd : str_truthy (Some work_dir) = true).
    { cbn [str_truthy]. apply negb_true_iff, String.eqb_neq.
      unfold work_dir, work_dir_of. apply sapp_nonempty_r. discriminate. }
    rewrite Htwd. cbn [default].
    rewrite (bind_of _ _ _ _ _ Hmon). cbv beta iota.
    rewrite (bind_of _ _ _ _ _ Hret). reflexivity.
  - unfold s5, logged, s3, s2, logged. cbn [st_trace].
    rewrite <- !app_assoc. reflexivity.
  - unfold attempt_prefix, trm. change (0 <? Z.of_nat 0) with false.
    destruct (keep_remote_set cfg); runs_norm;
      rewrite <- ?app_assoc; cbn [app]; reflexivity.
  - unfold attempt_prefix, trm. change (0 <? Z.of_nat 0) with false.
    destruct (keep_remote_set cfg); sleeps_norm;
      rewrite ?app_nil_r; cbn [app]; reflexivity.
  - intros m Hin. unfold s5. cbn [st_fs]. by apply unpacked_member.
  - unfold s5. cbn [st_fs]. apply lookup_delete_eq.
Qed.

(** ** The further properties on the sample run *)

Lemma unusable_config_witness :
  (main sample_args no_config_world 10 sample_state).1 =
    Ok (UnexpectedError (FileNotFoundError "vast_config.json")) /\
  (main sample_args no_port_world 10 sample_state).1 =
    Ok (UnexpectedError
          (ValueError "Config file must contain: ['host', 'port', 'remote_path']")).
Proof.
  split.
  - destruct (unusable_config_ends_run_without_commands sample_args no_config_world 10
                sample_state) as [H _]; [reflexivity|left; reflexivity|].
    rewrite H. reflexivity.
  - destruct (unusable_config_ends_run_without_commands sample_args no_port_world 10
                sample_state) as [H _];
      [reflexivity|right; eexists; split; [reflexivity|right; left; reflexivity]|].
    rewrite H. reflexivity.
Defined.

Lemma failed_connection_witness :
  (main sample_args refused_world 10 sample_state).1 = Ok ConnectionFailed /\
  runs (st_trace (main sample_args refused_world 10 sample_state).2) =
    [ssh_argv sample_config connect_cmd].
Proof.
  destruct (failed_connection_check_ends_run sample_args refused_world 10 sample_state
              {| st_fs := with_logs sample_fs; st_trace := [] |} sample_config)
    as (tr & H & Hr); [reflexivity|vm_compute; reflexivity|reflexivity|].
  rewrite H. split; [reflexivity|exact Hr].
Defined.

Lemma unique_pair_witness :
  exists wn jn,
    find_audio_pair sample_world "in" sample_state =
      (Ok (Some (join "in" wn), Some (join "in" jn)), sample_state) /\
    endswith wn ".wav" = true /\ endswith jn ".json" = true.
Proof.
  destruct (find_audio_pair_returns_the_unique_pair sample_world "in" sample_state)
    as (wn & jn & H & _ & Hw & _ & _ & Hj & _);
    [reflexivity|vm_compute; reflexivity|vm_compute; reflexivity|].
  exists wn, jn. split; [exact H|]. split; [exact Hw|exact Hj].
Defined.



Lemma launch_without_bundle_witness :
  exists tr,
    (execute_gpu_service sample_config sample_world "in" "in/absent.wav"
       "in/meeting.json" sample_state).1 = Ok None /\
    st_trace (execute_gpu_service sample_config sample_world "in" "in/absent.wav"
                "in/meeting.json" sample_state).2 = tr /\
    runs tr = [].
Proof.
  edestruct (launch_without_bundle_runs_nothing sample_config sample_world "in"
               "in/absent.wav" "in/meeting.json" sample_state) as (tr & H & Hr & _);
    [vm_compute; reflexivity|].
  exists tr. rewrite H. split; [reflexivity|]. split; [reflexivity|exact Hr].
Defined.

Lemma successful_launch_witness :
  (execute_gpu_service sample_config sample_world "in" "in/meeting.wav"
     "in/meeting.json" sample_state).1 = Ok (Some "/remote/work/work_20240101_000000") /\
  st_fs (execute_gpu_service sample_config sample_world "in" "in/meeting.wav"
           "in/meeting.json" sample_state).2 = sample_fs.
Proof.
  pose proof (successful_launch_runs_four_commands sample_config sample_world "in"
                "in/meeting.wav" "in/meeting.json" sample_fs []) as H.
  cbv zeta in H. unfold sample_state. rewrite H.
  - split; reflexivity.
  - eexists. split; [reflexivity|discriminate].
  - eexists. split; [reflexivity|discriminate].
  - vm_compute. reflexivity.
  - vm_compute. reflexivity.
  - reflexivity.
Defined.

Lemma marker_after_rounds_witness :
  exists tr,
    monitor_process sample_config sample_world "wd" 5 sample_state =
      (Ok true, logged sample_state tr) /\
    sleeps tr = [5; 5].
Proof.
  destruct (marker_found_after_k_rounds sample_config sample_world "wd" 5 2
              sample_state 0 "working" "") as (tr & H & _ & Hs & _).
  - intros i Hi. split; [by eexists _, _|]. split; [|reflexivity].
    destruct i as [|[|i]]; [| |lia]; eexists _, _; (split; [reflexivity|lia]).
  - reflexivity.
  - reflexivity.
  - lia.
  - exists tr. split; [exact H|exact Hs].
Defined.

Lemma no_timeout_witness :
  (monitor_process sample_config waiting_world "wd" 50 sample_state).1 = OutOfFuel /\
  length (runs (poll_rounds sample_config "wd" 50)) = 100%nat.
Proof.
  destruct (polling_has_no_timeout sample_config waiting_world "wd" 50 sample_state)
    as (H & _ & Hr).
  - intros i Hi. split; [by eexists _, _|]. split; [|reflexivity].
    eexists _, _. split; [reflexivity|lia].
  - rewrite H. split; [reflexivity|exact Hr].
Defined.



Lemma transcripts_path_taken_witness :
  retrieve_results sample_config sample_world "/remote/work/work_1" "in"
      ("in/meeting.wav", "in/meeting.json") 3 5 {| st_fs := blocked_fs; st_trace := [] |} =
    (Ok (Some false),
     {| st_fs := blocked_fs;
        st_trace := [EvLog ERROR [FStr "Error retrieving results: ";
                                  FExn (FileExistsError "in/transcripts")]] |}).
Proof.
  rewrite (transcripts_path_taken_by_a_file sample_config sample_world
             "/remote/work/work_1" "in" ("in/meeting.wav", "in/meeting.json") 3 5
             {| st_fs := blocked_fs; st_trace := [] |} (Bytes "x")).
  - reflexivity.
  - vm_compute. reflexivity.
  - discriminate.
  - vm_compute. reflexivity.
Defined.




Lemma linear_backoff_witness :
  exists e s1 tr,
    retrieve_results sample_config no_bundle_world "/remote/work/work_1" "in"
      ("in/meeting.wav", "in/meeting.json") 4 7 sample_state =
      (Ok (Some false),
       logged s1 [EvLog ERROR [FStr "Error retrieving results: ";
                               FExn (FailedAfter 4 e)]]) /\
    st_trace s1 = tr /\
    sleeps tr = [7; 2; 4; 6].
Proof.
  edestruct (failed_retrieval_backs_off_linearly sample_config no_bundle_world
               "/remote/work/work_1" "in" ("in/meeting.wav", "in/meeting.json") 4 7
               sample_state) as (tr & H & Htr & Hs).
  - lia.
  - vm_compute. reflexivity.
  - change (Z.to_nat 4) with 4%nat. cbn [fails_with].
    do 3 (eexists _, _; split; [vm_compute; reflexivity|]).
    vm_compute. reflexivity.
  - eexists _, _, tr. split; [exact H|]. split; [exact Htr|exact Hs].
Defined.

Lemma sample_paths_distinct :
  NoDup (extracted_paths (join "in" "transcripts")
           [("transcript_detailed_1.json", Bytes "d");
            ("transcript_conversation_1.json", Bytes "c");
            ("transcript_1.txt", Bytes "t")]) /\
  join (join "in" "transcripts") remote_archive ∉
    extracted_paths (join "in" "transcripts")
      [("transcript_detailed_1.json", Bytes "d");
       ("transcript_conversation_1.json", Bytes "c");
       ("transcript_1.txt", Bytes "t")].
Proof.
  assert (E : extracted_paths (join "in" "transcripts")
                [("transcript_detailed_1.json", Bytes "d");
                 ("transcript_conversation_1.json", Bytes "c");
                 ("transcript_1.txt", Bytes "t")] =
              ["in/transcripts/transcript_detailed_1.json";
               "in/transcripts/transcript_conversation_1.json";
               "in/transcripts/transcript_1.txt"]) by (vm_compute; reflexivity).
  rewrite E. split.
  - repeat (apply NoDup_cons; split;
            [intros H; repeat (apply elem_of_cons in H as [H|H]; [discriminate H|]);
             by apply elem_of_nil in H|]).
    apply NoDup_nil_2.
  - assert (E2 : join (join "in" "transcripts") remote_archive =
                 "in/transcripts/results.tar.gz") by (vm_compute; reflexivity).
    rewrite E2. intros H.
    repeat (apply elem_of_cons in H as [H|H]; [discriminate H|]).
    by apply elem_of_nil in H.
Defined.



Lemma never_raise_witness :
  never_raises (verify_connection sample_config refused_world) /\
  never_raises (retrieve_results sample_config no_bundle_world "/remote/work/work_1"
                  "in" ("in/meeting.wav", "in/meeting.json") 3 5).
Proof.
  destruct (controller_methods_never_raise sample_config refused_world "in"
              "in/meeting.wav" "in/meeting.json" "in/input.tar.gz" []
              "/remote/work/work_1" "in" ("in/meeting.wav", "in/meeting.json") 3 5)
    as (H & _).
  destruct (controller_methods_never_raise sample_config no_bundle_world "in"
              "in/meeting.wav" "in/meeting.json" "in/input.tar.gz" []
              "/remote/work/work_1" "in" ("in/meeting.wav", "in/meeting.json") 3 5)
    as (_ & _ & _ & _ & H').
  split; [exact H|exact H'].
Defined.


Lemma cli_keep_remote_witness :
  arg_keep_remote sample_args = true /\
  raw_keep_remote sample_raw = None /\
  (main sample_args sample_world 10 sample_state).1 = Ok ResultsRetrieved /\
  last (st_trace (main sample_args sample_world 10 sample_state).2) =
    Some (EvRun (ssh_argv sample_config "rm -rf /remote/work/work_20240101_000000")) /\
  deletions (st_trace (main sample_args keeping_world 10 sample_state).2) = [].
Proof.
  split; [reflexivity|]. split; [reflexivity|]. split; [vm_compute; reflexivity|].
  split.
  - destruct (cli_keep_remote_flag_is_ignored sample_args sample_world 10 sample_state)
      as (_ & _ & H).
    destruct (H sample_raw (main sample_args sample_world 10 sample_state).2)
      as (cfg & Hc & _ & Hl & _);
      [reflexivity|reflexivity|vm_compute; reflexivity|].
    injection Hc as <-. exact Hl.
  - destruct (cli_keep_remote_flag_is_ignored sample_args keeping_world 10 sample_state)
      as (_ & H & _).
    destruct (H _ eq_refl eq_refl) as (tr & Htr & Hd).
    rewrite Htr. exact Hd.
Defined.

Lemma own_work_dir_witness :
  deletions (st_trace (main sample_args sample_world 10 sample_state).2) =
    [EvRun (ssh_argv sample_config "rm -rf /remote/work/work_20240101_000000")] /\
  deletions (st_trace (main sample_args keeping_world 10 sample_state).2) = [].
Proof.
  split; [vm_compute; reflexivity|].
  destruct (main_cleans_up_only_its_own_work_dir sample_args keeping_world 10 sample_state)
    as (tr & Htr & Hd).
  rewrite Htr. change (st_trace sample_state) with (@nil event). rewrite app_nil_l.
  destruct (deletions tr) as [|ev l] eqn:E; [reflexivity|].
  destruct (Hd ev) as (cfg & Hc & Hk & _); [left|].
  injection Hc as <-. discriminate Hk.
Defined.

Lemma successful_run_witness :
  exists st',
    main sample_args sample_world 10 sample_state = (Ok ResultsRetrieved, st') /\
    sleeps (st_trace st') = [5; 5; 5] /\
    length (runs (st_trace st')) = 14%nat /\
    st_fs st' !! "in/transcripts/transcript_1.txt" = Some (Bytes "t").
Proof.
  destruct sample_paths_distinct as [Hnd Hla].
  edestruct (successful_run_end_to_end sample_args sample_world 10 2 sample_state
               {| st_fs := with_logs sample_fs; st_trace := [] |} sample_config
               "in/meeting.wav" "in/meeting.json")
    as (st' & tr & H & Htr & Hr & Hs & Hmem & _).
  - reflexivity.
  - reflexivity.
  - vm_compute. reflexivity.
  - reflexivity.
  - vm_compute. reflexivity.
  - vm_compute. reflexivity.
  - eexists. split; [vm_compute; reflexivity|discriminate].
  - eexists. split; [vm_compute; reflexivity|discriminate].
  - vm_compute. reflexivity.
  - vm_compute. reflexivity.
  - reflexivity.
  - intros i Hi. split; [by eexists _, _|]. split; [|reflexivity].
    destruct i as [|[|i]]; [| |lia]; eexists _, _; (split; [reflexivity|lia]).
  - eexists _, _. reflexivity.
  - eexists. reflexivity.
  - lia.
  - vm_compute. reflexivity.
  - reflexivity.
  - reflexivity.
  - reflexivity.
  - reflexivity.
  - repeat (constructor;
            [split; [reflexivity|split; [discriminate|vm_compute; reflexivity]]|]).
    constructor.
  - vm_compute. reflexivity.
  - exact Hnd.
  - exact Hla.
  - exists ("transcript_1.txt", Bytes "t"). split; [|reflexivity].
    do 2 apply list_elem_of_further. apply list_elem_of_here.
  - right. reflexivity.
  - exists st'. split; [exact H|]. rewrite Htr.
    change (st_trace sample_state) with (@nil event). rewrite app_nil_l.
    split; [rewrite Hs; reflexivity|]. split; [rewrite Hr; reflexivity|].
    apply (Hmem ("transcript_1.txt", Bytes "t")).
    do 2 apply list_elem_of_further. apply list_elem_of_here.
Defined.
